(** * Shure device control: the protocol client and the monitor

    A shallow embedding of [ad4d.py], [p10t.py] and [monitor.py]: the wire
    codec (reply parsing), the one-shot command client with its bulk merge,
    the command-line validation in front of it, and the two ingestion loops
    of the monitor, followed by the properties proved about them.

    Conventions.
    - A Python [str] (and a [bytes] object) is a Rocq [string]; a character
      is one of the 256 code points of [ascii].  The character classes
      below follow CPython's tables on that range.
    - A Python [dict] is an insertion-ordered association list without
      duplicate keys; its reading as a finite map is a [gmap].
    - Code that can raise runs in the monad [M]: a world (the scripted
      behaviour of the peer and the trace of effects so far) is threaded
      through, and an outcome is an exception or a value.
    - The clock is not modelled: the reads that fit in a read window, and
      the reads that happen before shutdown is requested, are the entries
      of a finite script.  A [time.sleep] of a constant returns and is left
      out; the one of the polling interval, which can raise, is a
      parameter of the loop.
    - A [float] is a [spec_float] of the standard library, the arithmetic
      that of binary64. *)

From Stdlib Require Import String Ascii List ZArith Bool Arith Lia Permutation.
From Stdlib Require Import SpecFloat.
From stdpp Require Import base option gmap strings list fin_maps.
Import ListNotations.
Local Open Scope string_scope.
Local Open Scope list_scope.

(** ** Python strings *)

Module Py.

Definition code (c : ascii) : nat := nat_of_ascii c.

Definition in_range (lo hi : nat) (c : ascii) : bool :=
  Nat.leb lo (code c) && Nat.leb (code c) hi.

(** [str.isspace] on one character, which is also the class [\s] of [re]
    and the set removed by [str.strip()] and [str.split()]. *)
Definition isspace (c : ascii) : bool :=
  in_range 9 13 c || in_range 28 32 c || Nat.eqb (code c) 133
  || Nat.eqb (code c) 160.

(** The class [\d] of [re]. *)
Definition isdecimal (c : ascii) : bool := in_range 48 57 c.

Definition isupper_ascii (c : ascii) : bool := in_range 65 90 c.
Definition islower_ascii (c : ascii) : bool := in_range 97 122 c.

Definition mem_chars (cs : string) (c : ascii) : bool :=
  existsb (Ascii.eqb c) (list_ascii_of_string cs).

Fixpoint lstrip_with (p : ascii -> bool) (s : string) : string :=
  match s with
  | EmptyString => EmptyString
  | String c s' => if p c then lstrip_with p s' else s
  end.

Fixpoint rstrip_with (p : ascii -> bool) (s : string) : string :=
  match s with
  | EmptyString => EmptyString
  | String c s' =>
      match rstrip_with p s' with
      | EmptyString => if p c then EmptyString else String c EmptyString
      | r => String c r
      end
  end.

(** [s.strip()] *)
Definition strip (s : string) : string :=
  rstrip_with isspace (lstrip_with isspace s).

(** [s.strip(chars)] *)
Definition strip_chars (chars s : string) : string :=
  rstrip_with (mem_chars chars) (lstrip_with (mem_chars chars) s).

(** [s.split()]: the maximal runs of non-space characters. *)
Fixpoint split_ws (s : string) : list string :=
  match s with
  | EmptyString => []
  | String c s' =>
      if isspace c then split_ws s'
      else
        match s' with
        | EmptyString => [String c EmptyString]
        | String d _ =>
            if isspace d then String c EmptyString :: split_ws s'
            else
              match split_ws s' with
              | w :: ws => String c w :: ws
              | [] => [String c EmptyString]
              end
        end
  end.

(** [s.split(sep)] for a non-empty [sep]: the leftmost occurrences of
    [sep], not overlapping, cut the string.  [skip] counts the characters
    of a separator still to be passed over. *)
Fixpoint split_go (sep : string) (skip : nat) (s : string) : list string :=
  match s with
  | EmptyString => [EmptyString]
  | String c s' =>
      match skip with
      | S n => split_go sep n s'
      | O =>
          if String.prefix sep s
          then EmptyString :: split_go sep (String.length sep - 1) s'
          else
            match split_go sep 0 s' with
            | p :: ps => String c p :: ps
            | [] => [String c EmptyString]
            end
      end
  end.

Definition split (sep s : string) : list string := split_go sep 0 s.

(** [sub in s] *)
Fixpoint contains (sub s : string) : bool :=
  String.prefix sub s
  || match s with
     | EmptyString => false
     | String _ s' => contains sub s'
     end.

Definition startswith (p s : string) : bool := String.prefix p s.

Fixpoint endswith_go (p s : string) : bool :=
  String.eqb p s
  || match s with
     | EmptyString => false
     | String _ s' => endswith_go p s'
     end.
Definition endswith (p s : string) : bool := endswith_go p s.

(** [s.upper()].  The letters [a-z] and the letters of [224..254] but the
    division sign lose 32; the sharp s (223) becomes [SS].  The upper-case
    forms of the micro sign (181) and of the y with diaeresis (255) are no
    characters of this range: the two are left as they are, which no
    comparison with a key of a registry can tell from the real result. *)
Definition upper_char (c : ascii) : string :=
  if islower_ascii c || (in_range 224 254 c && negb (Nat.eqb (code c) 247))
  then String (ascii_of_nat (code c - 32)) EmptyString
  else if Nat.eqb (code c) 223 then "SS"
  else String c EmptyString.

Fixpoint upper (s : string) : string :=
  match s with
  | EmptyString => EmptyString
  | String c s' => upper_char c +:+ upper s'
  end.

(** [sep.join(parts)] *)
Fixpoint join (sep : string) (parts : list string) : string :=
  match parts with
  | [] => EmptyString
  | [p] => p
  | p :: ps => p +:+ sep +:+ join sep ps
  end.

(** [int(s)] for a string of decimal digits. *)
Fixpoint int_digits (acc : Z) (s : string) : Z :=
  match s with
  | EmptyString => acc
  | String c s' => int_digits (10 * acc + Z.of_nat (code c - 48)) s'
  end.
Definition int_of (s : string) : Z := int_digits 0 s.

(** [str(n)] for an integer. *)
Definition digit_char (n : nat) : ascii := ascii_of_nat (48 + n).

Fixpoint str_nat_go (fuel n : nat) (acc : string) : string :=
  match fuel with
  | O => acc
  | S f =>
      let acc' := String (digit_char (n mod 10)) acc in
      if Nat.eqb (n / 10) 0 then acc' else str_nat_go f (n / 10) acc'
  end.

Definition str_int (z : Z) : string :=
  let n := Z.abs_nat z in
  let d := str_nat_go (S n) n EmptyString in
  if Z.ltb z 0 then String "-"%char d else d.

End Py.

(** ** Regular expressions

    The fragment of [re] the patterns of the sources are written in:
    literals, character classes, a quantified class ([p*], [p+], [p+?]),
    an optional part, capture groups and the two anchors.  [exec] is the
    backtracking matcher of [re]: alternatives are tried in priority order
    and the first that lets the rest of the pattern succeed wins. *)

Module Re.

Inductive regex : Type :=
| Eps
| Chr (c : ascii)
| Cls (p : ascii -> bool)
| Cat (r1 r2 : regex)
| Opt (r : regex)
| Rep (p : ascii -> bool) (min : nat) (greedy : bool)
| Group (i : nat) (r : regex)
| Bol
| Eol.

Definition caps := nat -> option string.
Definition no_caps : caps := fun _ => None.
Definition set_cap (i : nat) (s : string) (c : caps) : caps :=
  fun j => if Nat.eqb j i then Some s else c j.

Section Exec.
Context {R : Type}.

Definition cont := nat -> string -> caps -> option R.

Fixpoint take (n : nat) (s : string) : string :=
  match n, s with
  | S n', String c s' => String c (take n' s')
  | _, _ => EmptyString
  end.

(** [p{min,}], longest first. *)
Fixpoint rep_greedy (p : ascii -> bool) (min pos : nat) (s : string)
    (c : caps) (k : cont) : option R :=
  match s with
  | String a s' =>
      if p a then
        match rep_greedy p (pred min) (S pos) s' c k with
        | Some r => Some r
        | None => if Nat.eqb min 0 then k pos s c else None
        end
      else if Nat.eqb min 0 then k pos s c else None
  | EmptyString => if Nat.eqb min 0 then k pos s c else None
  end.

(** [p{min,}?], shortest first. *)
Fixpoint rep_lazy (p : ascii -> bool) (min pos : nat) (s : string)
    (c : caps) (k : cont) : option R :=
  match min with
  | S m =>
      match s with
      | String a s' => if p a then rep_lazy p m (S pos) s' c k else None
      | EmptyString => None
      end
  | O =>
      match k pos s c with
      | Some r => Some r
      | None =>
          match s with
          | String a s' => if p a then rep_lazy p 0 (S pos) s' c k else None
          | EmptyString => None
          end
      end
  end.

Fixpoint exec (r : regex) (pos : nat) (s : string) (c : caps) (k : cont)
    : option R :=
  match r with
  | Eps => k pos s c
  | Chr a =>
      match s with
      | String b s' => if Ascii.eqb a b then k (S pos) s' c else None
      | EmptyString => None
      end
  | Cls p =>
      match s with
      | String b s' => if p b then k (S pos) s' c else None
      | EmptyString => None
      end
  | Cat r1 r2 => exec r1 pos s c (fun pos' s' c' => exec r2 pos' s' c' k)
  | Opt r1 =>
      match exec r1 pos s c k with
      | Some x => Some x
      | None => k pos s c
      end
  | Rep p min greedy =>
      if greedy then rep_greedy p min pos s c k else rep_lazy p min pos s c k
  | Group i r1 =>
      exec r1 pos s c
        (fun pos' s' c' => k pos' s' (set_cap i (take (pos' - pos) s) c'))
  | Bol => if Nat.eqb pos 0 then k pos s c else None
  | Eol =>
      match s with
      | EmptyString => k pos s c
      | String a EmptyString =>
          if Ascii.eqb a "010"%char then k pos s c else None
      | _ => None
      end
  end.

End Exec.

(** [m.groups()] for a pattern with [n] groups. *)
Definition groups (n : nat) (c : caps) : list (option string) :=
  map c (seq 1 n).

(** [pattern.match(s)], anchored at the start and not at the end, followed
    by [.groups()]; [n] is the number of groups of the pattern. *)
Definition match_groups (r : regex) (n : nat) (s : string)
    : option (list (option string)) :=
  exec r 0 s no_caps (fun _ _ c => Some (groups n c)).

(** A literal word. *)
Fixpoint lit (s : string) : regex :=
  match s with
  | EmptyString => Eps
  | String a s' => Cat (Chr a) (lit s')
  end.

Fixpoint cat (rs : list regex) : regex :=
  match rs with
  | [] => Eps
  | [r] => r
  | r :: rs' => Cat r (cat rs')
  end.

Definition space : ascii -> bool := Py.isspace.
Definition nonspace (c : ascii) : bool := negb (Py.isspace c).
Definition digit : ascii -> bool := Py.isdecimal.
(** [.] *)
Definition dot (c : ascii) : bool := negb (Ascii.eqb c "010"%char).
(** [[^...]] *)
Definition none_of (cs : string) (c : ascii) : bool :=
  negb (Py.mem_chars cs c).

Definition star p := Rep p 0 true.
Definition plus p := Rep p 1 true.
Definition plus_lazy p := Rep p 1 false.

End Re.


(** ** Values and dictionaries *)

(** What a reply dictionary holds: [None], an [int] or a [str]. *)
Inductive atom : Type :=
| NoneV
| IntV (z : Z)
| StrV (s : string).

Global Instance atom_eq_dec : EqDecision atom.
Proof. solve_decision. Defined.

(** [str(v)] *)
Definition str_atom (v : atom) : string :=
  match v with
  | NoneV => "None"
  | IntV z => Py.str_int z
  | StrV s => s
  end.

(** Truth value of [v] in a condition. *)
Definition truthy (v : atom) : bool :=
  match v with
  | NoneV => false
  | IntV z => negb (Z.eqb z 0)
  | StrV s => negb (String.eqb s EmptyString)
  end.

Module Dict.
Section Dict.
Context {K V : Type} `{EqDecision K}.

Definition t := list (K * V).

(** [d.get(k)] *)
Fixpoint get (k : K) (d : t) : option V :=
  match d with
  | [] => None
  | (k', v) :: d' => if decide (k = k') then Some v else get k d'
  end.

(** [k in d] *)
Definition mem (k : K) (d : t) : bool :=
  match get k d with Some _ => true | None => false end.

(** [d[k] = v]: an existing key keeps its place, a new one goes last. *)
Fixpoint set (k : K) (v : V) (d : t) : t :=
  match d with
  | [] => [(k, v)]
  | (k', v') :: d' =>
      if decide (k = k') then (k', v) :: d' else (k', v') :: set k v d'
  end.

(** [del d[k]] *)
Fixpoint remove (k : K) (d : t) : t :=
  match d with
  | [] => []
  | (k', v') :: d' =>
      if decide (k = k') then d' else (k', v') :: remove k d'
  end.

(** [d.update(e)] *)
Definition update (d e : t) : t :=
  fold_left (fun acc kv => set (fst kv) (snd kv) acc) e d.

(** A dictionary display [{k1: v1, k2: v2, ...}]. *)
Definition lit (items : list (K * V)) : t := update [] items.

Definition keys (d : t) : list K := map fst d.

End Dict.
Global Arguments t : clear implicits.
End Dict.

(** A value of a bulk result: a device-level value or the dictionary of
    one channel. *)
Inductive mval : Type :=
| Leaf (v : atom)
| Sub (d : Dict.t string atom).

Global Instance mval_eq_dec : EqDecision mval.
Proof. solve_decision. Defined.

(** One parsed reply, [{"channel": ..., KEY: value}]. *)
Definition parsed : Type := Dict.t string atom.
(** What [format_output] is given: a parsed reply, a bulk result or [{}]. *)
Definition data : Type := Dict.t atom mval.

Definition data_of_parsed (p : parsed) : data :=
  map (fun kv => (StrV (fst kv), Leaf (snd kv))) p.

(** ** Exceptions, the world and the monad *)

Inductive exn_class : Type :=
| OSError
| TimeoutError
| StopIteration
| AttributeError
| TypeError
| ValueError
| UnicodeError
| OverflowError
| KeyError
| SystemExit (code : Z).

Record exn : Type := Exn { exn_cls : exn_class; exn_msg : string }.

(** [except Exception] catches every class but [SystemExit]. *)
Definition is_Exception (e : exn) : bool :=
  match exn_cls e with SystemExit _ => false | _ => true end.

(** [except ValueError], which also catches [UnicodeError]. *)
Definition is_ValueError (e : exn) : bool :=
  match exn_cls e with ValueError | UnicodeError => true | _ => false end.

(** [except socket.timeout] *)
Definition is_timeout (e : exn) : bool :=
  match exn_cls e with TimeoutError => true | _ => false end.

Inductive event : Type :=
| Connect (host : string) (port : Z)
| Sent (payload : string)
| Closed
| Stdout (text : string)
| Stderr (text : string)
| Hset (name field value : string)
| Log (message : string) (fields : list (string * string)).

(** What a socket operation raises: [socket.timeout] or another
    [OSError], with the text [str(e)] gives. *)
Record oserror : Type := OSErr { timed_out : bool; os_msg : string }.

Definition exn_of_os (e : oserror) : exn :=
  Exn (if timed_out e then TimeoutError else OSError) (os_msg e).

(** The scripted behaviour of the peer on one connection: whether the
    connection attempt fails, what each [sendall] does, and what each
    [recv] yields, in order.  A [recv] past the end of the script times
    out (the peer stays silent). *)
Record conn : Type := Conn {
  on_connect : option oserror;
  on_send : list (option oserror);
  on_recv : list (oserror + string)
}.

Definition silent : conn := Conn None [] [].

Record world : Type := World {
  pending : list conn;    (* the connections still to be opened *)
  current : conn;         (* what is left of the open one *)
  trace : list event      (* the effects so far, oldest first *)
}.

Definition M (A : Type) : Type := world -> (exn + A) * world.

Definition ret {A} (a : A) : M A := fun w => (inr a, w).
Definition raise {A} (e : exn) : M A := fun w => (inl e, w).
Definition bind {A B} (m : M A) (f : A -> M B) : M B :=
  fun w =>
    match m w with
    | (inl e, w') => (inl e, w')
    | (inr a, w') => f a w'
    end.

Declare Scope py_scope.
Delimit Scope py_scope with py.
Notation "'do' x <- m ; k" := (bind m (fun x => k))
  (at level 10, x name, m at level 100, k at level 200) : py_scope.
Notation "'run' m ; k" := (bind m (fun _ => k))
  (at level 10, m at level 100, k at level 200) : py_scope.
Local Open Scope py_scope.

(** [try: m except <classes accepted by handles> as e: h e] *)
Definition try_except {A} (m : M A) (handles : exn -> bool) (h : exn -> M A)
    : M A :=
  fun w =>
    match m w with
    | (inl e, w') => if handles e then h e w' else (inl e, w')
    | (inr a, w') => (inr a, w')
    end.

(** [try: m finally: f] *)
Definition finally {A} (m : M A) (f : M unit) : M A :=
  fun w =>
    match m w with
    | (r, w') =>
        match f w' with
        | (inl e, w'') => (inl e, w'')
        | (inr _, w'') => (r, w'')
        end
    end.

Definition emit (e : event) : M unit :=
  fun w => (inr tt, World (pending w) (current w) (trace w ++ [e])).

Fixpoint for_each {A} (l : list A) (body : A -> M unit) : M unit :=
  match l with
  | [] => ret tt
  | a :: l' => run body a; for_each l' body
  end.

(** A string of 7-bit characters, which [str.encode("ascii")] accepts. *)
Definition is_7bit (s : string) : bool :=
  forallb (fun c => Nat.ltb (Py.code c) 128) (list_ascii_of_string s).

(** The [idna] codec on a host name, which [getaddrinfo] applies first:
    the text of the [UnicodeError] it raises, if any.  In a name of 7-bit
    characters every label but the last has 1 to 63 characters and the
    last at most 63.  A name with other characters goes through nameprep
    and Punycode, which are not modelled: it is taken to encode. *)
Definition idna_error (host : string) : option string :=
  if String.eqb host EmptyString || negb (is_7bit host) then None
  else
    let labels := Py.split "." host in
    if existsb
         (fun l => Nat.eqb (String.length l) 0 || Nat.leb 64 (String.length l))
         (List.removelast labels)
    then Some "label empty or too long"
    else if Nat.leb 64 (String.length (List.last labels EmptyString))
    then Some "label too long"
    else None.

(** What [socket.create_connection] raises before it reaches the network:
    the host name does not encode, or the port does not fit a C [long]. *)
Definition connect_error (host : string) (port : Z) : option exn :=
  match idna_error host with
  | Some msg =>
      Some (Exn UnicodeError
              ("encoding with 'idna' codec failed (UnicodeError: " +:+ msg
               +:+ ")"))
  | None =>
      if Z.ltb port (- 2 ^ 63) || Z.leb (2 ^ 63) port
      then Some (Exn OverflowError "Python int too large to convert to C long")
      else None
  end.

(** [socket.create_connection((host, port))]: unless the arguments are
    refused, the next scripted connection; with none left the attempt is
    refused by the peer.  The event records the call. *)
Definition create_connection (host : string) (port : Z) : M unit :=
  fun w =>
    let tr := trace w ++ [Connect host port] in
    match connect_error host port with
    | Some e => (inl e, World (pending w) (current w) tr)
    | None =>
        match pending w with
        | [] => (inl (Exn OSError "[Errno 111] Connection refused"),
                 World [] (current w) tr)
        | c :: rest =>
            match on_connect c with
            | Some e => (inl (exn_of_os e), World rest (current w) tr)
            | None => (inr tt, World rest c tr)
            end
        end
    end.

(** [sock.sendall(payload)] *)
Definition sendall (payload : string) : M unit :=
  fun w =>
    let c := current w in
    let tr := trace w ++ [Sent payload] in
    match on_send c with
    | Some e :: rest =>
        (inl (exn_of_os e),
         World (pending w) (Conn (on_connect c) rest (on_recv c)) tr)
    | None :: rest =>
        (inr tt, World (pending w) (Conn (on_connect c) rest (on_recv c)) tr)
    | [] => (inr tt, World (pending w) c tr)
    end.

(** [sock.recv(4096)] *)
Definition recv : M string :=
  fun w =>
    let c := current w in
    match on_recv c with
    | [] => (inl (Exn TimeoutError "timed out"), w)
    | inl e :: rest =>
        (inl (exn_of_os e),
         World (pending w) (Conn (on_connect c) (on_send c) rest) (trace w))
    | inr b :: rest =>
        (inr b, World (pending w) (Conn (on_connect c) (on_send c) rest)
                  (trace w))
    end.

(** [with socket.create_connection(...) as sock: body]: the socket is
    closed on the way out, whatever the outcome. *)
Definition with_connection {A} (host : string) (port : Z) (body : M A)
    : M A :=
  run create_connection host port; finally body (emit Closed).

(** The read window of the one-shot client,
    [while time.time() < end: try: chunk = sock.recv(4096) ...]: it ends
    when the peer closes, when a read times out, or when the deadline
    passes, which is the end of the script; any other exception leaves
    the loop. *)
Fixpoint drain (script : list (oserror + string)) (chunks : list string)
    : (exn + list string) * list (oserror + string) :=
  match script with
  | [] => (inr chunks, [])
  | inl e :: rest =>
      if is_timeout (exn_of_os e) then (inr chunks, rest)
      else (inl (exn_of_os e), rest)
  | inr b :: rest =>
      if String.eqb b EmptyString then (inr chunks, rest)
      else drain rest (chunks ++ [b])
  end.

Definition read_window : M (list string) :=
  fun w =>
    let c := current w in
    match drain (on_recv c) [] with
    | (r, rest) =>
        (r, World (pending w) (Conn (on_connect c) (on_send c) rest)
              (trace w))
    end.

(** UTF-8 decoding with [errors="ignore"] belongs to the Python library
    and is a parameter of what follows.  On a 7-bit stream it is the
    identity.  [decode_ascii] stands for it in the closed examples, whose
    streams are 7-bit: it keeps the 7-bit bytes and drops every other
    byte, where the library decodes the well-formed sequences among
    them. *)
Definition decode_ascii (b : string) : string :=
  string_of_list_ascii
    (filter (fun c => Nat.ltb (Py.code c) 128) (list_ascii_of_string b)).

(** The chunks joined into one [bytes] object. *)
Definition join_chunks (chunks : list string) : string :=
  fold_right String.append EmptyString chunks.

Definition lift {A} (r : exn + A) : M A := fun w => (r, w).

(** [print(text)] and [print(text, file=sys.stderr)] *)
Definition print (text : string) : M unit := emit (Stdout text).
Definition eprint (text : string) : M unit := emit (Stderr text).

(** [sys.exit(code)] *)
Definition sys_exit {A} (code : Z) : M A := raise (Exn (SystemExit code) EmptyString).

(** ** Sorting, as [sorted] does it *)

Fixpoint insert_sorted {A} (le : A -> A -> bool) (x : A) (l : list A)
    : list A :=
  match l with
  | [] => [x]
  | y :: l' => if le x y then x :: l else y :: insert_sorted le x l'
  end.

(** A stable sort. *)
Definition sort_by {A} (le : A -> A -> bool) (l : list A) : list A :=
  fold_right (insert_sorted le) [] l.

Definition is_str (v : atom) : bool :=
  match v with StrV _ => true | _ => false end.
Definition is_int (v : atom) : bool :=
  match v with IntV _ => true | _ => false end.

Definition atom_le (a b : atom) : bool :=
  match a, b with
  | StrV s, StrV t => String.leb s t
  | IntV x, IntV y => Z.leb x y
  | _, _ => true
  end.

(** [sorted(l)] on keys: values of one type are ordered; two values of
    different types, or [None], cannot be compared. *)
Definition sorted_atoms (l : list atom) : exn + list atom :=
  if Nat.leb (length l) 1 then inr l
  else if forallb is_str l || forallb is_int l then inr (sort_by atom_le l)
  else inl (Exn TypeError "'<' not supported between instances").

(** [s.isdigit()] *)
Definition isdigit_char (c : ascii) : bool :=
  Py.isdecimal c || Nat.eqb (Py.code c) 178 || Nat.eqb (Py.code c) 179
  || Nat.eqb (Py.code c) 185.

Definition isdigit (s : string) : bool :=
  negb (String.eqb s EmptyString) && forallb isdigit_char (list_ascii_of_string s).

(** The digits of an [int] literal: decimal digits, single underscores
    between them. *)
Fixpoint int_body (after_digit : bool) (s : string) : bool :=
  match s with
  | EmptyString => after_digit
  | String c s' =>
      if Py.isdecimal c then int_body true s'
      else if Ascii.eqb c "_"%char then after_digit && int_body false s'
      else false
  end.

Definition drop_underscores (s : string) : string :=
  string_of_list_ascii
    (filter (fun c => negb (Ascii.eqb c "_"%char)) (list_ascii_of_string s)).

(** The white space that [int] skips around a literal. *)
Definition int_space (c : ascii) : bool :=
  Py.in_range 9 13 c || Nat.eqb (Py.code c) 32 || Nat.eqb (Py.code c) 133
  || Nat.eqb (Py.code c) 160.

(** The run of digits and underscores at the head of a string, and what
    follows it. *)
Fixpoint int_run (s : string) : string * string :=
  match s with
  | EmptyString => (EmptyString, EmptyString)
  | String c s' =>
      if Py.isdecimal c || Ascii.eqb c "_"%char
      then let '(num, rest) := int_run s' in (String c num, rest)
      else (EmptyString, s)
  end.

(** [sys.get_int_max_str_digits()] *)
Definition MAX_STR_DIGITS : nat := 4300.

Definition digit_limit_error (digits : nat) : exn :=
  Exn ValueError
    ("Exceeds the limit (4300 digits) for integer string conversion: "
     +:+ "value has " +:+ Py.str_int (Z.of_nat digits)
     +:+ " digits; use sys.set_int_max_str_digits() to increase the limit").

(** [int(s)]: the literal is read up to the end of its digits, then the
    number of digits is checked against the limit, then the rest. *)
Definition py_int (s : string) : exn + Z :=
  let invalid :=
    Exn ValueError
      ("invalid literal for int() with base 10: '" +:+ s +:+ "'") in
  let t := Py.rstrip_with int_space (Py.lstrip_with int_space s) in
  let '(neg, body) :=
    match t with
    | String "-"%char b => (true, b)
    | String "+"%char b => (false, b)
    | _ => (false, t)
    end in
  let '(num, rest) := int_run body in
  let digits := drop_underscores num in
  if negb (int_body false num) then inl invalid
  else if Nat.ltb MAX_STR_DIGITS (String.length digits)
  then inl (digit_limit_error (String.length digits))
  else if negb (String.eqb rest EmptyString) then inl invalid
  else let n := Py.int_of digits in
       inr (if neg : bool then Z.opp n else n).

(** [int(k)] on a key. *)
Definition int_atom (k : atom) : exn + Z :=
  match k with
  | IntV z => inr z
  | StrV s => py_int s
  | NoneV => inl (Exn TypeError "int() argument must be a string or a number")
  end.

Fixpoint map_err {A B} (f : A -> exn + B) (l : list A) : exn + list B :=
  match l with
  | [] => inr []
  | a :: l' =>
      match f a with
      | inl e => inl e
      | inr b =>
          match map_err f l' with
          | inl e => inl e
          | inr bs => inr (b :: bs)
          end
      end
  end.

(** [sorted(l, key=int)] *)
Definition sorted_by_int (l : list atom) : exn + list atom :=
  match map_err (fun k => match int_atom k with
                          | inl e => inl e
                          | inr z => inr (z, k)
                          end) l with
  | inl e => inl e
  | inr zs => inr (map snd (sort_by (fun a b => Z.leb (fst a) (fst b)) zs))
  end.

(** ** Output rendering ([format_output], the same text in both clients)

    [json.dumps], [pprint.pformat] and [str] on a dictionary belong to the
    Python library: they are parameters here. *)

Section Rendering.

Variable json_dumps : data -> string.
Variable pformat : data -> string.
Variable repr : data -> string.

Definition text_lines_of (key : atom) (value : mval) : list string :=
  match value with
  | Sub d =>
      ("Channel " +:+ str_atom key +:+ ":")
      :: map (fun kv => "  " +:+ fst kv +:+ ": " +:+ str_atom (snd kv))
           (sort_by (fun a b => String.leb (fst a) (fst b)) d)
  | Leaf v => [str_atom key +:+ ": " +:+ str_atom v]
  end.

Definition format_output (d : data) (output_format : string)
    : exn + string :=
  if String.eqb output_format "json" then
    let str_keys := sort_by atom_le (filter is_str (Dict.keys d)) in
    let int_keys := sort_by atom_le (filter is_int (Dict.keys d)) in
    let sorted_data :=
      fold_left
        (fun acc k =>
           match Dict.get k d with
           | Some v => Dict.set k v acc
           | None => acc
           end)
        (str_keys ++ int_keys) [] in
    inr (json_dumps sorted_data)
  else if String.eqb output_format "pretty" then inr (pformat d)
  else if String.eqb output_format "raw" then inr (repr d)
  else
    match d with
    | [] => inr "(no data)"
    | _ =>
        match sorted_atoms
                (filter (fun k => negb (isdigit (str_atom k))) (Dict.keys d))
        with
        | inl e => inl e
        | inr device_keys =>
            match sorted_by_int
                    (filter (fun k => isdigit (str_atom k)) (Dict.keys d))
            with
            | inl e => inl e
            | inr channel_keys =>
                inr (Py.join (String "010"%char EmptyString)
                       (flat_map
                          (fun key =>
                             match Dict.get key d with
                             | Some value => text_lines_of key value
                             | None => []
                             end)
                          (device_keys ++ channel_keys)))
            end
        end
    end.

End Rendering.

Definition mem_str (s : string) (l : list string) : bool :=
  existsb (String.eqb s) l.

(** [str(x)] for an optional string, as an f-string renders it. *)
Definition str_opt (x : option string) : string :=
  match x with Some s => s | None => "None" end.

Definition CRLF : string := String "013"%char (String "010"%char EmptyString).

(** [next(k for k in parsed if k != "channel")] *)
Definition first_other_key (p : parsed) : exn + string :=
  match filter (fun k => negb (String.eqb k "channel")) (Dict.keys p) with
  | k :: _ => inr k
  | [] => inl (Exn StopIteration EmptyString)
  end.

(** [d[k]] *)
Definition getitem (k : string) (p : parsed) : exn + atom :=
  match Dict.get k p with
  | Some v => inr v
  | None => inl (Exn KeyError ("'" +:+ k +:+ "'"))
  end.

(** The merge loop of a bulk query, one entry:
    [ch = entry.pop("channel")], then [merged.update(entry)] for a
    device-level reply and [merged[ch].update(entry)] for a channel. *)
Definition merge_entry (merged : data) (entry : parsed) : exn + data :=
  match Dict.get "channel" entry with
  | None => inl (Exn KeyError "'channel'")
  | Some ch =>
      let entry' := Dict.remove "channel" entry in
      match ch with
      | NoneV => inr (Dict.update merged (data_of_parsed entry'))
      | _ =>
          let merged' :=
            if Dict.mem ch merged then merged else Dict.set ch (Sub []) merged
          in
          match Dict.get ch merged' with
          | Some (Sub d) => inr (Dict.set ch (Sub (Dict.update d entry')) merged')
          | Some (Leaf (StrV _)) =>
              inl (Exn AttributeError "'str' object has no attribute 'update'")
          | Some (Leaf (IntV _)) =>
              inl (Exn AttributeError "'int' object has no attribute 'update'")
          | Some (Leaf NoneV) =>
              inl (Exn AttributeError
                     "'NoneType' object has no attribute 'update'")
          | None => inl (Exn KeyError (str_atom ch))
          end
      end
  end.

Fixpoint merge_entries (merged : data) (result : list parsed)
    : exn + data :=
  match result with
  | [] => inr merged
  | entry :: rest =>
      match merge_entry merged entry with
      | inl e => inl e
      | inr merged' => merge_entries merged' rest
      end
  end.

Definition nonempty (p : parsed) : bool :=
  match p with [] => false | _ => true end.

(** The list [result] of the lines that parse ([if parsed:
    result.append(parsed)]), then the merge. *)
Definition parsed_entries (parse : string -> option parsed)
    (lines : list string) : list parsed :=
  filter nonempty (omap parse lines).

Definition bulk_merge (parse : string -> option parsed)
    (lines : list string) : exn + data :=
  merge_entries [] (parsed_entries parse lines).

(** The parsed command line of either client. *)
Record args : Type := Args {
  arg_list : bool;
  arg_host : option string;
  arg_port : Z;
  arg_get : bool;
  arg_set : bool;
  arg_channel : option string;
  arg_key : option string;
  arg_value : option string;
  arg_output_format : string;
  arg_json : bool
}.

(** Truth value of an optional string ([None] and the empty string are
    false). *)
Definition given (x : option string) : bool :=
  match x with Some (String _ _) => true | _ => false end.

(** ** The multi-channel client ([ad4d.py]) *)

Module Ad4d.

Definition DEVICE_GET_ONLY_KEYS : list string :=
  ["DEVICE_ID"; "MODEL"; "FW_VER"; "RF_BAND"; "TRANSMISSION_MODE";
   "QUADVERSITY_MODE"; "ENCRYPTION_MODE"].

Definition DEVICE_GET_SET_KEYS : list string := ["DEVICE_ID"].

Definition CHANNEL_GET_SET_KEYS : list string :=
  ["CHAN_NAME"; "AUDIO_GAIN"; "AUDIO_MUTE"; "FREQUENCY"; "GROUP_CHANNEL";
   "METER_RATE"; "FLASH"].

Definition CHANNEL_GET_ONLY_KEYS : list string :=
  ["FD_MODE"; "ENCRYPTION_STATUS"; "INTERFERENCE_STATUS";
   "UNREGISTERED_TX_STATUS"; "AUDIO_LEVEL_PEAK"; "AUDIO_LEVEL_RMS";
   "CHAN_QUALITY"; "RSSI"; "ANTENNA_STATUS"; "TX_BATT_MINS"; "TX_BATT_TYPE";
   "TX_MODEL"; "TX_DEVICE_ID"; "TX_POWER_LEVEL"].

Definition ALL_KEYS : list string :=
  DEVICE_GET_ONLY_KEYS ++ DEVICE_GET_SET_KEYS ++ CHANNEL_GET_SET_KEYS
  ++ CHANNEL_GET_ONLY_KEYS.

Definition CHANNELS : list string := ["1"; "2"; "3"; "4"].

Definition build_command (channel : option string) (key : option string)
    : exn + string :=
  match key with
  | None =>
      inl (Exn AttributeError "'NoneType' object has no attribute 'upper'")
  | Some key0 =>
      let key := Py.upper key0 in
      if negb (mem_str key ALL_KEYS)
      then inl (Exn ValueError ("Unknown key: " +:+ key))
      else if mem_str key DEVICE_GET_ONLY_KEYS
              || mem_str key DEVICE_GET_SET_KEYS
      then inr key
      else
        match channel with
        | Some ch =>
            if mem_str ch CHANNELS then inr (ch +:+ " " +:+ key)
            else inl (Exn ValueError
                        "Channel must be 1–4 for channel-level keys")
        | None =>
            inl (Exn ValueError "Channel must be 1–4 for channel-level keys")
        end
  end.

(** [[A-Z0-9_]] *)
Definition key_char (c : ascii) : bool :=
  Py.isupper_ascii c || Py.isdecimal c || Ascii.eqb c "_"%char.

(** [^<\s*REP\s+(?:(\d)\s+)?([A-Z0-9_]+)\s+\{?([^>}]+?)\}?\s*>?$] *)
Definition REP_RE : Re.regex :=
  Re.cat
    [Re.Bol; Re.Chr "<"; Re.star Re.space; Re.lit "REP"; Re.plus Re.space;
     Re.Opt (Re.Cat (Re.Group 1 (Re.Cls Re.digit)) (Re.plus Re.space));
     Re.Group 2 (Re.plus key_char); Re.plus Re.space;
     Re.Opt (Re.Chr "{");
     Re.Group 3 (Re.plus_lazy (Re.none_of ">}"));
     Re.Opt (Re.Chr "}"); Re.star Re.space; Re.Opt (Re.Chr ">"); Re.Eol].

Definition parse_report_line (line : string) : option parsed :=
  match Re.match_groups REP_RE 3 (Py.strip line) with
  | Some [channel; Some key; Some value] =>
      let key := Py.strip key in
      let value := Py.strip value in
      match channel with
      | Some (String c ch' as ch) =>
          Some (Dict.lit [("channel", IntV (Py.int_of ch)); (key, StrV value)])
      | _ => Some (Dict.lit [("channel", NoneV); (key, StrV value)])
      end
  | _ => None
  end.

(** The candidate frames of the drained text:
    [[f"< REP {part.strip()}" for part in raw.split("< REP ")
      if part.strip() and "ERR" not in part]] *)
Definition reply_lines (raw : string) : list string :=
  map (fun part => "< REP " +:+ Py.strip part)
    (filter
       (fun part =>
          negb (String.eqb (Py.strip part) EmptyString)
          && negb (Py.contains "ERR" part))
       (Py.split "< REP " raw)).

(** The commands of a bulk query. *)
Definition bulk_commands : list string :=
  map (fun k => "GET " +:+ k) DEVICE_GET_ONLY_KEYS
  ++ flat_map
       (fun ch =>
          map (fun k => "GET " +:+ ch +:+ " " +:+ k)
            (CHANNEL_GET_SET_KEYS ++ CHANNEL_GET_ONLY_KEYS))
       CHANNELS.

Section Client.

Variable decode : string -> string.
Variable json_dumps : data -> string.
Variable pformat : data -> string.
Variable repr : data -> string.

Definition format_output := format_output json_dumps pformat repr.

(** The scan for the first reply at the requested address. *)
Fixpoint find_reply (command expect_key : option string)
    (output_format : string) (bulk : bool) (lines : list string)
    : exn + atom :=
  match lines with
  | [] =>
      if bulk || negb (String.eqb output_format "text")
      then match format_output [] output_format with
           | inl e => inl e
           | inr s => inr (StrV s)
           end
      else inr NoneV
  | line :: rest =>
      match parse_report_line line with
      | None => find_reply command expect_key output_format bulk rest
      | Some [] => find_reply command expect_key output_format bulk rest
      | Some p =>
          match first_other_key p with
          | inl e => inl e
          | inr keyname =>
              let match_key :=
                match Dict.get "channel" p with
                | Some NoneV | None => keyname
                | Some channel => str_atom channel +:+ " " +:+ keyname
                end in
              if match expect_key with
                 | None => true
                 | Some k => String.eqb match_key k
                 end
              then
                if match command with
                   | Some c => negb (String.eqb c EmptyString)
                               && Py.startswith "SET" c
                   | None => false
                   end
                then inr NoneV
                else if bulk || negb (String.eqb output_format "text")
                then match format_output (data_of_parsed p) output_format with
                     | inl e => inl e
                     | inr s => inr (StrV s)
                     end
                else getitem keyname p
              else find_reply command expect_key output_format bulk rest
          end
      end
  end.

(** What [send_command] makes of the text [raw] it has drained: the
    merged bulk result, or the reply at the requested address. *)
Definition resolve (command expect_key : option string)
    (output_format : string) (bulk : bool) (raw : string) : exn + atom :=
  let lines := reply_lines raw in
  if bulk then
    match bulk_merge parse_report_line lines with
    | inl e => inl e
    | inr merged =>
        match format_output merged output_format with
        | inl e => inl e
        | inr s => inr (StrV s)
        end
    end
  else find_reply command expect_key output_format bulk lines.

Definition send_command_body (host : string) (port : Z)
    (command expect_key : option string) (output_format : string)
    (bulk : bool) : M atom :=
  with_connection host port
    (run (if bulk
          then for_each bulk_commands
                 (fun cmd => sendall ("< " +:+ cmd +:+ " >" +:+ CRLF))
          else sendall ("< " +:+ str_opt command +:+ " >" +:+ CRLF));
     do chunks <- read_window;
     lift (resolve command expect_key output_format bulk
             (decode (join_chunks chunks)))).

(** [send_command]: the body under [try: ... except Exception as e:
    return f"(error: {e})"]. *)
Definition send_command (host : string) (port : Z)
    (command expect_key : option string) (output_format : string)
    (bulk : bool) : M atom :=
  try_except
    (send_command_body host port command expect_key output_format bulk)
    is_Exception
    (fun e => ret (StrV ("(error: " +:+ exn_msg e +:+ ")"))).

Definition brace_keys : list string :=
  ["CHAN_NAME"; "DEVICE_ID"; "GROUP_CHANNEL"; "GROUP_CHANNEL2";
   "TX_DEVICE_ID"; "SLOT_TX_DEVICE_ID"].

(** The loop of [--get --channel N] without a key: one query per channel
    key, every exception swallowed by the bare [except]. *)
Fixpoint get_channel_keys (host : string) (port : Z)
    (channel : option string) (keys : list string) (result : parsed)
    : M parsed :=
  match keys with
  | [] => ret result
  | key :: rest =>
      do result' <-
        try_except
          (do full_key <- lift (build_command channel (Some key));
           do value <- send_command host port (Some ("GET " +:+ full_key))
                         (Some full_key) "text" false;
           ret (if truthy value
                   && negb (if decide (value = StrV "(no match)")
                            then true else false)
                then Dict.set key value result
                else result))
          (fun _ => true)
          (fun _ => ret result);
      get_channel_keys host port channel rest result'
  end.

Definition main (a : args) : M unit :=
  if arg_list a then
    run print "Device-level keys:";
    run for_each DEVICE_GET_ONLY_KEYS
          (fun k => print ("  " +:+ k +:+ "  [read-only]"));
    run for_each DEVICE_GET_SET_KEYS
          (fun k => print ("  " +:+ k +:+ "  [read/write]"));
    run print (String "010"%char "Channel-level keys (require --channel 1–4):");
    run for_each CHANNEL_GET_SET_KEYS
          (fun k => print ("  " +:+ k +:+ "  [read/write]"));
    run for_each CHANNEL_GET_ONLY_KEYS
          (fun k => print ("  " +:+ k +:+ "  [read-only]"));
    sys_exit 0
  else
  match arg_host a with
  | None | Some EmptyString =>
      run eprint "Error: --host is required"; sys_exit 1
  | Some host =>
  let output_format :=
    if arg_json a then "json" else arg_output_format a in
  if arg_get a && negb (given (arg_key a)) then
    run (if given (arg_channel a) then
           do result <- get_channel_keys host (arg_port a) (arg_channel a)
                          (CHANNEL_GET_SET_KEYS ++ CHANNEL_GET_ONLY_KEYS) [];
           do n <- lift (py_int (str_opt (arg_channel a)));
           do s <- lift (format_output [(IntV n, Sub result)] output_format);
           print s
         else
           do r <- send_command host (arg_port a) None None output_format true;
           print (str_atom r));
    sys_exit 0
  else
  do full_key <-
    try_except (lift (build_command (arg_channel a) (arg_key a)))
      is_ValueError
      (fun e => run eprint ("Error: " +:+ exn_msg e); sys_exit 1);
  let key := Py.upper (str_opt (arg_key a)) in
  if arg_set a then
    if mem_str key DEVICE_GET_ONLY_KEYS then
      run eprint ("Error: " +:+ key +:+ " is read-only and cannot be set");
      sys_exit 1
    else
    match arg_value a with
    | None => run eprint "Error: --value is required for --set"; sys_exit 1
    | Some v =>
        let value := if mem_str key brace_keys then "{" +:+ v +:+ "}" else v in
        do result <- send_command host (arg_port a)
                       (Some ("SET " +:+ full_key +:+ " " +:+ value))
                       None output_format false;
        match result with
        | NoneV => ret tt
        | _ => print (str_atom result)
        end
    end
  else if arg_get a then
    do r <- send_command host (arg_port a) (Some ("GET " +:+ full_key))
              (Some full_key) output_format false;
    print (str_atom r)
  else
    run eprint "Error: must specify --get or --set"; sys_exit 1
  end.

End Client.
End Ad4d.

(** ** The point-to-point client ([p10t.py]) *)

Module P10t.

Definition DEVICE_GET_ONLY_KEYS : list string := ["DEVICE_NAME"].
Definition DEVICE_GET_SET_KEYS : list string := [].

Definition CHANNEL_GET_SET_KEYS : list string :=
  ["CHAN_NAME"; "AUDIO_IN_LVL"; "GROUP_CHAN"; "FREQUENCY"; "RF_TX_LVL";
   "RF_MUTE"; "AUDIO_TX_MODE"; "AUDIO_IN_LINE_LVL"; "METER_RATE"].

Definition ALL_KEYS : list string :=
  DEVICE_GET_ONLY_KEYS ++ DEVICE_GET_SET_KEYS ++ CHANNEL_GET_SET_KEYS.

Definition CHANNELS : list string := ["1"; "2"].

Definition build_command (channel : option string) (key : option string)
    : exn + string :=
  match key with
  | None =>
      inl (Exn AttributeError "'NoneType' object has no attribute 'upper'")
  | Some key0 =>
      let key := Py.upper key0 in
      if negb (mem_str key ALL_KEYS)
      then inl (Exn ValueError ("Unknown key: " +:+ key))
      else if mem_str key DEVICE_GET_ONLY_KEYS
              || mem_str key DEVICE_GET_SET_KEYS
      then inr key
      else
        match channel with
        | Some ch =>
            if mem_str ch CHANNELS then inr (ch +:+ " " +:+ key)
            else inl (Exn ValueError
                        "Channel must be 1 or 2 for channel-level keys")
        | None =>
            inl (Exn ValueError
                   "Channel must be 1 or 2 for channel-level keys")
        end
  end.

Definition opt_atom (x : option string) : atom :=
  match x with Some s => StrV s | None => NoneV end.

Definition parse_report_line (line : string) : option parsed :=
  let parts := Py.split_ws (Py.strip_chars "<> " line) in
  match parts with
  | p0 :: p1 :: p2 :: rest =>
      if negb (String.eqb p0 "REPORT") then None
      else if mem_str p1 CHANNELS
      then Some (Dict.lit [("channel", IntV (Py.int_of p1));
                           (p2, opt_atom (head rest))])
      else Some (Dict.lit [("channel", NoneV); (p1, StrV p2)])
  | _ => None
  end.

(** [[f"< REPORT {part.strip()}" for part in raw.split("< REPORT ")
      if part.strip()]] *)
Definition reply_lines (raw : string) : list string :=
  map (fun part => "< REPORT " +:+ Py.strip part)
    (filter (fun part => negb (String.eqb (Py.strip part) EmptyString))
       (Py.split "< REPORT " raw)).

Definition bulk_commands : list string :=
  map (fun k => "GET " +:+ k) DEVICE_GET_ONLY_KEYS
  ++ flat_map
       (fun ch => map (fun k => "GET " +:+ ch +:+ " " +:+ k)
                    CHANNEL_GET_SET_KEYS)
       CHANNELS.

(** [next(v for k, v in parsed.items() if k != "channel")] *)
Definition first_other_value (p : parsed) : exn + atom :=
  match filter (fun kv => negb (String.eqb (fst kv) "channel")) p with
  | kv :: _ => inr (snd kv)
  | [] => inl (Exn StopIteration EmptyString)
  end.

Section Client.

Variable decode : string -> string.
Variable json_dumps : data -> string.
Variable pformat : data -> string.
Variable repr : data -> string.

Definition format_output := format_output json_dumps pformat repr.

Fixpoint find_reply (expect_key : option string) (output_format : string)
    (bulk : bool) (lines : list string) : exn + atom :=
  match lines with
  | [] =>
      if bulk || negb (String.eqb output_format "text")
      then match format_output [] output_format with
           | inl e => inl e
           | inr s => inr (StrV s)
           end
      else inr (StrV "(no match)")
  | line :: rest =>
      match parse_report_line line with
      | None => find_reply expect_key output_format bulk rest
      | Some [] => find_reply expect_key output_format bulk rest
      | Some p =>
          match getitem "channel" p with
          | inl e => inl e
          | inr channel =>
              match first_other_key p with
              | inl e => inl e
              | inr keyname =>
                  let match_key :=
                    match channel with
                    | NoneV => keyname
                    | _ => str_atom channel +:+ " " +:+ keyname
                    end in
                  if match expect_key with
                     | None => false
                     | Some k => String.eqb match_key k
                     end
                  then
                    if bulk || negb (String.eqb output_format "text")
                    then match format_output (data_of_parsed p)
                                 output_format with
                         | inl e => inl e
                         | inr s => inr (StrV s)
                         end
                    else first_other_value p
                  else find_reply expect_key output_format bulk rest
              end
          end
      end
  end.

Definition resolve (expect_key : option string) (output_format : string)
    (bulk : bool) (raw : string) : exn + atom :=
  let lines := reply_lines raw in
  if bulk then
    match bulk_merge parse_report_line lines with
    | inl e => inl e
    | inr merged =>
        match format_output merged output_format with
        | inl e => inl e
        | inr s => inr (StrV s)
        end
    end
  else find_reply expect_key output_format bulk lines.

Definition send_command_body (host : string) (port : Z)
    (command expect_key : option string) (output_format : string)
    (bulk : bool) : M atom :=
  with_connection host port
    (run (if bulk
          then for_each bulk_commands
                 (fun cmd => sendall ("< " +:+ cmd +:+ " >" +:+ CRLF))
          else sendall ("< " +:+ str_opt command +:+ " >" +:+ CRLF));
     try_except
       (do chunks <- read_window;
        lift (resolve expect_key output_format bulk
                (decode (join_chunks chunks))))
       is_timeout
       (fun _ => ret (StrV "(timeout)"))).

Definition send_command (host : string) (port : Z)
    (command expect_key : option string) (output_format : string)
    (bulk : bool) : M atom :=
  try_except
    (send_command_body host port command expect_key output_format bulk)
    is_Exception
    (fun e => ret (StrV ("(error: " +:+ exn_msg e +:+ ")"))).

Fixpoint get_channel_keys (host : string) (port : Z)
    (channel : option string) (keys : list string) (result : parsed)
    : M parsed :=
  match keys with
  | [] => ret result
  | key :: rest =>
      do result' <-
        try_except
          (do full_key <- lift (build_command channel (Some key));
           do value <- send_command host port (Some ("GET " +:+ full_key))
                         (Some full_key) "text" false;
           ret (if truthy value
                   && negb (if decide (value = StrV "(no match)")
                            then true else false)
                then Dict.set key value result
                else result))
          (fun _ => true)
          (fun _ => ret result);
      get_channel_keys host port channel rest result'
  end.

Definition main (a : args) : M unit :=
  if arg_list a then
    run print "Device-level keys:";
    run for_each DEVICE_GET_ONLY_KEYS
          (fun k => print ("  " +:+ k +:+ "  [read-only]"));
    run for_each DEVICE_GET_SET_KEYS
          (fun k => print ("  " +:+ k +:+ "  [read/write]"));
    run print (String "010"%char
                 "Channel-level keys (require --channel 1 or 2):");
    run for_each CHANNEL_GET_SET_KEYS
          (fun k => print ("  " +:+ k +:+ "  [read/write]"));
    sys_exit 0
  else
  match arg_host a with
  | None | Some EmptyString =>
      run eprint "Error: --host is required"; sys_exit 1
  | Some host =>
  let output_format :=
    if arg_json a then "json" else arg_output_format a in
  if arg_get a && negb (given (arg_key a)) then
    run (if given (arg_channel a) then
           do result <- get_channel_keys host (arg_port a) (arg_channel a)
                          CHANNEL_GET_SET_KEYS [];
           do n <- lift (py_int (str_opt (arg_channel a)));
           do s <- lift (format_output [(IntV n, Sub result)] output_format);
           print s
         else
           do r <- send_command host (arg_port a) None None output_format true;
           print (str_atom r));
    sys_exit 0
  else
  do full_key <-
    try_except (lift (build_command (arg_channel a) (arg_key a)))
      is_ValueError
      (fun e => run eprint ("Error: " +:+ exn_msg e); sys_exit 1);
  let key := Py.upper (str_opt (arg_key a)) in
  if arg_set a then
    if mem_str key DEVICE_GET_ONLY_KEYS then
      run eprint ("Error: " +:+ key +:+ " is read-only and cannot be set");
      sys_exit 1
    else
    match arg_value a with
    | None => run eprint "Error: --value is required for --set"; sys_exit 1
    | Some v =>
        do result <- send_command host (arg_port a)
                       (Some ("SET " +:+ full_key +:+ " " +:+ v))
                       (Some full_key) output_format false;
        if truthy result then print (str_atom result) else ret tt
    end
  else if arg_get a then
    do r <- send_command host (arg_port a) (Some ("GET " +:+ full_key))
              (Some full_key) output_format false;
    print (str_atom r)
  else
    run eprint "Error: must specify --get or --set"; sys_exit 1
  end.

End Client.
End P10t.

(** ** The monitor ([monitor.py]) *)

(** A positional argument of a call written with [*match.groups()]. *)
Inductive pyarg : Type :=
| AStr (s : string)
| ANone
| ARedis.

Definition arg_of_group (g : option string) : pyarg :=
  match g with Some s => AStr s | None => ANone end.

Module Monitor.

(** [< REP (\d+) (\S+)\s+(\S+) >] *)
Definition reply_channel_re : Re.regex :=
  Re.cat
    [Re.lit "< REP "; Re.Group 1 (Re.plus Re.digit); Re.Chr " ";
     Re.Group 2 (Re.plus Re.nonspace); Re.plus Re.space;
     Re.Group 3 (Re.plus Re.nonspace); Re.lit " >"].

(** [< REP (\S+)\s+{(C)} >], where the group [C] is the class [[^}]]
    repeated zero or more times. *)
Definition reply_device_re : Re.regex :=
  Re.cat
    [Re.lit "< REP "; Re.Group 1 (Re.plus Re.nonspace); Re.plus Re.space;
     Re.Chr "{"; Re.Group 2 (Re.star (Re.none_of "}")); Re.lit "} >"].

(** [< REPORT (\S+)(?: (\S+))?(?: (.+))? >] *)
Definition report_re : Re.regex :=
  Re.cat
    [Re.lit "< REPORT "; Re.Group 1 (Re.plus Re.nonspace);
     Re.Opt (Re.Cat (Re.Chr " ") (Re.Group 2 (Re.plus Re.nonspace)));
     Re.Opt (Re.Cat (Re.Chr " ") (Re.Group 3 (Re.plus Re.dot)));
     Re.lit " >"].

(** [< SAMPLE (\d+) ALL (.+) >] *)
Definition sample_re : Re.regex :=
  Re.cat
    [Re.lit "< SAMPLE "; Re.Group 1 (Re.plus Re.digit); Re.lit " ALL ";
     Re.Group 2 (Re.plus Re.dot); Re.lit " >"].

Definition POLL_COMMANDS : list string :=
  ["GET DEVICE_NAME"; "GET DEVICE_ID"; "GET MODEL"; "GET SERIAL_NUMBER";
   "GET FW_VER"; "GET ENCRYPTION_MODE"; "GET FIRMWARE_UPDATE_PROGRESS";
   "GET EVENT_LOG_STATUS"; "GET NETWORK_IP_ADDR"; "GET NETWORK_SUBNET_MASK";
   "GET NETWORK_MAC_ADDR"; "GET NETWORK_GATEWAY"; "GET DEVICE_NOTES";
   "GET LOCATION";
   "GET 1 CHAN_NAME"; "GET 1 FREQUENCY"; "GET 1 AUDIO_GAIN";
   "GET 1 AUDIO_MUTE"; "GET 1 ANTENNA_STATUS"; "GET 1 AUDIO_LEVEL_RMS";
   "GET 1 AUDIO_LEVEL_PEAK"; "GET 1 TX_DEVICE_ID"; "GET 1 TX_BATT_MINS";
   "GET 1 TX_BATT_CHARGE_PERCENT"; "GET 1 TX_MODEL"; "GET 1 TX_LOCK";
   "GET 1 TX_TALK_SWITCH";
   "GET 2 CHAN_NAME"; "GET 2 FREQUENCY"; "GET 2 AUDIO_GAIN";
   "GET 2 AUDIO_MUTE"; "GET 2 ANTENNA_STATUS"; "GET 2 AUDIO_LEVEL_RMS";
   "GET 2 AUDIO_LEVEL_PEAK"; "GET 2 TX_DEVICE_ID"; "GET 2 TX_BATT_MINS";
   "GET 2 TX_BATT_CHARGE_PERCENT"; "GET 2 TX_MODEL"; "GET 2 TX_LOCK";
   "GET 2 TX_TALK_SWITCH"].

(** [log(message, **fields)] *)
Definition log (message : string) (fields : list (string * string))
    : M unit :=
  emit (Log message fields).

(** [redis_client.hset(name, field, value)] *)
Definition hset (name field value : string) : M unit :=
  emit (Hset name field value).

Definition handle_response (host line device_type : string) : M unit :=
  let channel_match := Re.match_groups reply_channel_re 3 line in
  let device_match := Re.match_groups reply_device_re 2 line in
  match
    match device_match, channel_match with
    | Some [Some g1; Some g2], _ =>
        Some (Py.strip g1, Py.strip g2, host +:+ ":device", None)
    | _, Some [Some g1; Some g2; Some g3] =>
        let channel := Py.strip g1 in
        Some (Py.strip g2, Py.strip g3, host +:+ ":channel:" +:+ channel,
              Some channel)
    | _, _ => None
    end
  with
  | None =>
      log (host +:+ ": unparsed line: " +:+ line) [("PRIORITY", "4")]
  | Some (key, value, redis_key, channel) =>
      run hset redis_key key value;
      let fields :=
        Dict.lit
          [("REDIS_KEY", redis_key); ("SHURE_HOST", host);
           ("SHURE_DEVICE", device_type); ("SHURE_KEY", key);
           ("SHURE_VALUE", value); ("SHURE_METRIC", Py.upper key)] in
      let fields :=
        if given channel
        then Dict.set "SHURE_CHANNEL" (str_opt channel) fields
        else fields in
      let fields :=
        if Py.startswith "AUDIO_IN_LVL_" key
           || Py.startswith "AUDIO_LEVEL_" key
        then
          let fields := Dict.set "SHURE_METRIC" "AUDIO_LEVEL" fields in
          if Py.endswith "_L" key then Dict.set "SHURE_SIDE" "L" fields
          else if Py.endswith "_R" key then Dict.set "SHURE_SIDE" "R" fields
          else fields
        else fields in
      log (redis_key +:+ " " +:+ key +:+ " = " +:+ value) fields
  end.

(** The nine metering fields of a sample frame, in wire order. *)
Definition SAMPLE_KEYS : list string :=
  ["CHANNEL_QUALITY"; "AUDIO_LED_BITMAP"; "AUDIO_LEVEL_PEAK";
   "AUDIO_LEVEL_RMS"; "ANTENNA_STATUS"; "RSSI_LED_BITMAP_A"; "RSSI_A";
   "RSSI_LED_BITMAP_B"; "RSSI_B"].

Definition handle_sample (host ch_num raw device_type : string) : M unit :=
  let redis_key := host +:+ ":channel:" +:+ ch_num in
  let parts := Py.split_ws raw in
  for_each (combine SAMPLE_KEYS (firstn (length SAMPLE_KEYS) parts))
    (fun kv =>
       let k := fst kv in
       let v := snd kv in
       run hset redis_key k v;
       log (redis_key +:+ " " +:+ k +:+ " = " +:+ v)
         [("REDIS_KEY", redis_key); ("SHURE_HOST", host);
          ("SHURE_DEVICE", device_type); ("SHURE_CHANNEL", ch_num);
          ("SHURE_KEY", k); ("SHURE_VALUE", v); ("SHURE_METRIC", k)]).

Definition arity_error {A} (name : string) (takes given_ : nat) : M A :=
  raise (Exn TypeError
           (name +:+ "() takes " +:+ Py.str_int (Z.of_nat takes)
            +:+ " positional arguments but "
            +:+ Py.str_int (Z.of_nat given_) +:+ " were given")).

Definition bad_argument {A} : M A :=
  raise (Exn TypeError "expected string or bytes-like object").

(** A call of [handle_response] with starred arguments: four parameters
    [(host, redis_client, line, device_type)]. *)
Definition call_handle_response (args : list pyarg) : M unit :=
  match args with
  | [host; _; line; device_type] =>
      match host, line, device_type with
      | AStr h, AStr l, AStr d => handle_response h l d
      | _, _, _ => bad_argument
      end
  | _ => arity_error "handle_response" 4 (length args)
  end.

(** A call of [handle_sample] with starred arguments: five parameters
    [(host, redis_client, ch_num, raw, device_type)]. *)
Definition call_handle_sample (args : list pyarg) : M unit :=
  match args with
  | [host; _; ch_num; raw; device_type] =>
      match host, ch_num, raw, device_type with
      | AStr h, AStr c, AStr r, AStr d => handle_sample h c r d
      | _, _, _, _ => bad_argument
      end
  | _ => arity_error "handle_sample" 5 (length args)
  end.

Definition NL : string := String "010"%char EmptyString.

Section Ingest.

Variable decode : string -> string.

(** [time.sleep] belongs to the library and to the system clock: it is a
    parameter of the polling loop. *)
Variable sleep : spec_float -> M unit.

(** The loop over [raw.decode(...).split("<")] of [process_raw_data];
    the [return] after a sample frame leaves the function. *)
Fixpoint process_parts (parts : list string) (host device_type : string)
    : M unit :=
  match parts with
  | [] => ret tt
  | part0 :: rest =>
      let part := Py.strip part0 in
      if String.eqb part EmptyString then process_parts rest host device_type
      else
        let line := "< " +:+ part in
        if Py.startswith "< SAMPLE" line then
          match Re.match_groups sample_re 2 line with
          | Some gs =>
              call_handle_sample
                ([AStr host; ARedis] ++ map arg_of_group gs
                 ++ [AStr device_type])
          | None => ret tt
          end
        else
          run handle_response host line device_type;
          process_parts rest host device_type
  end.

Definition process_raw_data (raw host device_type : string) : M unit :=
  process_parts (Py.split "<" (decode raw)) host device_type.

(** [poll_command]: [True] to go on, [False] to leave the monitor. *)
Definition poll_command (host cmd device_type : string) : M bool :=
  do r <-
    try_except
      (run sendall ("< " +:+ cmd +:+ " >" +:+ NL);
       do raw <- recv;
       ret (inl raw))
      is_Exception
      (fun e =>
         if is_timeout e then ret (inr true)
         else
           run log ("polling error: " +:+ exn_msg e) [("PRIORITY", "4")];
           ret (inr false));
  match r with
  | inr b => ret b
  | inl raw => run process_raw_data raw host device_type; ret true
  end.

(** One extracted line of the passive loop. *)
Definition ingest_line (host device_type : string) (line0 : string)
    : M unit :=
  let line := Py.strip (decode line0) in
  if Py.startswith "< SAMPLE" line then
    match Re.match_groups sample_re 2 line with
    | Some gs =>
        call_handle_sample
          ([AStr host; ARedis] ++ map arg_of_group gs ++ [AStr device_type])
    | None => ret tt
    end
  else
    match Re.match_groups report_re 3 line with
    | Some gs =>
        call_handle_response
          ([AStr host; ARedis] ++ map arg_of_group gs ++ [AStr device_type])
    | None => log (host +:+ ": unparsed line: " +:+ line) []
    end.

(** [init_metering] *)
Definition init_metering : M unit :=
  run sendall ("< SET 1 METER_RATE 1000 >" +:+ NL);
  sendall ("< SET 2 METER_RATE 1000 >" +:+ NL).

(** One pass over the poll list; [False] as soon as a command says so. *)
Fixpoint poll_all (cmds : list string) (host device_type : string)
    : M bool :=
  match cmds with
  | [] => ret true
  | cmd :: rest =>
      do ok <- poll_command host cmd device_type;
      if ok then poll_all rest host device_type else ret false
  end.

(** The loop of [run_polling_monitor]: a pass over the poll list, then
    [time.sleep(interval)]; [cycles] is the number of passes begun before
    the shutdown flag is seen set. *)
Fixpoint polling_loop (cycles : nat) (host : string) (interval : spec_float)
    (device_type : string) : M unit :=
  match cycles with
  | O => ret tt
  | S n =>
      do ok <- poll_all POLL_COMMANDS host device_type;
      if ok
      then run sleep interval;
           polling_loop n host interval device_type
      else ret tt
  end.

Definition run_polling_monitor (cycles : nat) (host : string)
    (interval : spec_float) (device_type : string) : M unit :=
  run init_metering; polling_loop cycles host interval device_type.

(** [while b"\n" in buffer: line, buffer = buffer.split(b"\n", 1)]: the
    complete lines of the buffer, in order, and what stays buffered. *)
Fixpoint cut_lines (buffer : string) : list string * string :=
  match buffer with
  | EmptyString => ([], EmptyString)
  | String c rest =>
      let '(lines, tail) := cut_lines rest in
      if Ascii.eqb c "010"%char then (EmptyString :: lines, tail)
      else
        match lines with
        | [] => ([], String c tail)
        | l :: ls => (String c l :: ls, tail)
        end
  end.

(** The loop of [run_passive_monitor] over the reads that happen before
    the shutdown flag is seen set. *)
Fixpoint passive_loop (host device_type : string)
    (script : list (oserror + string)) (buffer : string) : M unit :=
  match script with
  | [] => ret tt
  | inl e :: rest =>
      if is_timeout (exn_of_os e)
      then passive_loop host device_type rest buffer
      else log ("read error: " +:+ os_msg e) [("PRIORITY", "4")]
  | inr chunk :: rest =>
      if String.eqb chunk EmptyString then ret tt
      else
        let '(lines, buffer') := cut_lines (buffer +:+ chunk) in
        run for_each lines (ingest_line host device_type);
        passive_loop host device_type rest buffer'
  end.

Definition run_passive_monitor (host device_type : string) : M unit :=
  fun w =>
    let c := current w in
    passive_loop host device_type (on_recv c) EmptyString
      (World (pending w) (Conn (on_connect c) (on_send c) []) (trace w)).

End Ingest.
End Monitor.

(** ** Observations on a run *)

(** The writes to the metric sink in a trace: (hash, field, value). *)
Fixpoint sink_writes (tr : list event) : list (string * string * string) :=
  match tr with
  | [] => []
  | Hset name field value :: tr' => (name, field, value) :: sink_writes tr'
  | _ :: tr' => sink_writes tr'
  end.

(** The connections opened in a trace. *)
Fixpoint connects (tr : list event) : list (string * Z) :=
  match tr with
  | [] => []
  | Connect host port :: tr' => (host, port) :: connects tr'
  | _ :: tr' => connects tr'
  end.

(** A world in which nothing has happened yet and the peer accepts one
    connection, then sends the chunks of [chunks]. *)
Definition fresh (chunks : list string) : world :=
  World [Conn None [] (map inr chunks)] silent [].

(** A world in which the monitor holds an open connection on which the
    chunks of [chunks] arrive before shutdown is requested. *)
Definition listening (chunks : list string) : world :=
  World [] (Conn None [] (map inr chunks)) [].

(** A [time.sleep] for closed examples: the checks CPython 3.11 makes on
    a float argument, after which the system is taken to sleep.  NaN is
    refused; the seconds are multiplied by [1e9] in binary64 and rounded
    away from zero to a whole number of nanoseconds, which must lie
    between [-2^63] and [2^63]; a negative number is refused (at [2^63]
    itself the conversion to a 64-bit integer wraps to a negative number
    on x86-64).  The system call can refuse a length that passes these
    checks, when the clock plus the length is past its range. *)

(** [1e9] *)
Definition SEC_TO_NS : spec_float :=
  S754_finite false 8388608000000000 (-23).

(** The magnitude of [m * 2^e] rounded up to an integer. *)
Definition round_up (m : positive) (e : Z) : Z :=
  if Z.leb 0 e then Z.pos m * 2 ^ e
  else (Z.pos m + 2 ^ (- e) - 1) / 2 ^ (- e).

Definition sleep_error (secs : spec_float) : option exn :=
  let overflow :=
    Exn OverflowError "timestamp too large to convert to C _PyTime_t" in
  let negative := Exn ValueError "sleep length must be non-negative" in
  match secs with
  | S754_nan => Some (Exn ValueError "Invalid value NaN (not a number)")
  | _ =>
      match SFmul 53 1024 secs SEC_TO_NS with
      | S754_zero _ => None
      | S754_finite sign m e =>
          let ns := round_up m e in
          if Z.ltb (2 ^ 63) ns then Some overflow
          else if sign || Z.eqb ns (2 ^ 63) then Some negative
          else None
      | _ => Some overflow
      end
  end.

Definition checked_sleep (secs : spec_float) : M unit :=
  match sleep_error secs with
  | Some e => raise e
  | None => ret tt
  end.

Definition minus_one : spec_float := S754_finite true 4503599627370496 (-52).

(** A string of [n] digits. *)
Definition ones (n : nat) : string :=
  string_of_list_ascii (repeat "1"%char n).

(** A renderer for closed examples: the empty dictionary as Python shows
    it, anything else as an ellipsis. *)
Definition plain_render (d : data) : string :=
  match d with [] => "{}" | _ => "{...}" end.

(** ** Notions used in the statements

    The strings of one character class, a denotation of the patterns (what
    a match consumes and captures, whatever the order the matcher tries
    things in), and the direct reply frame as the device writes it. *)

Fixpoint all_chars (p : ascii -> bool) (u : string) : bool :=
  match u with
  | EmptyString => true
  | String a u' => p a && all_chars p u'
  end.

(** [s] is empty or starts with a character outside [p]. *)
Definition stops (p : ascii -> bool) (s : string) : bool :=
  match s with
  | EmptyString => true
  | String a _ => negb (p a)
  end.

Fixpoint sem (r : Re.regex) (pos : nat) (s : string) (c : Re.caps)
    (pos' : nat) (s' : string) (c' : Re.caps) : Prop :=
  match r with
  | Re.Eps => pos' = pos /\ s' = s /\ c' = c
  | Re.Chr a => s = String a s' /\ pos' = S pos /\ c' = c
  | Re.Cls p => exists b, p b = true /\ s = String b s' /\ pos' = S pos /\ c' = c
  | Re.Cat r1 r2 =>
      exists p1 s1 c1, sem r1 pos s c p1 s1 c1 /\ sem r2 p1 s1 c1 pos' s' c'
  | Re.Opt r1 => sem r1 pos s c pos' s' c' \/ (pos' = pos /\ s' = s /\ c' = c)
  | Re.Rep p min _ =>
      exists u, all_chars p u = true /\ min <= String.length u
                /\ s = u +:+ s' /\ pos' = pos + String.length u /\ c' = c
  | Re.Group i r1 =>
      exists c1, sem r1 pos s c pos' s' c1
                 /\ c' = Re.set_cap i (Re.take (pos' - pos) s) c1
  | Re.Bol => pos = 0 /\ pos' = pos /\ s' = s /\ c' = c
  | Re.Eol =>
      (s = EmptyString \/ s = String "010"%char EmptyString)
      /\ pos' = pos /\ s' = s /\ c' = c
  end.

(** An outcome that is a value, or an exception of a class under
    [Exception]. *)
Definition caught {A} (r : exn + A) : Prop :=
  match r with inl e => is_Exception e = true | inr _ => True end.

(** A computation that raises nothing else. *)
Definition catchable {A} (m : M A) : Prop := forall w, caught (fst (m w)).

(** A scope written on the wire is one decimal digit. *)
Definition scope_ok (scope : option ascii) : bool :=
  match scope with Some d => Py.isdecimal d | None => true end.

(** A direct reply of the multi-channel family, as the device writes
    it. *)
Definition rep_frame (scope : option ascii) (key shown : string) : string :=
  "< REP "
  +:+ match scope with Some d => String d " " | None => EmptyString end
  +:+ key +:+ " " +:+ shown +:+ " >".

(** The tail of [REP_RE] behind the value group. *)
Definition rep_tail : Re.regex :=
  Re.cat [Re.Opt (Re.Chr "}"); Re.star Re.space; Re.Opt (Re.Chr ">"); Re.Eol].

Definition tail_char (c : ascii) : bool :=
  Py.isspace c || Ascii.eqb c ">" || Ascii.eqb c "010".

(** [^<\s*REP\s+] in front of a reply. *)
Definition rep_head : Re.regex :=
  Re.cat [Re.Bol; Re.Chr "<"; Re.star Re.space; Re.lit "REP";
          Re.plus Re.space].

(** [(?:(\d)\s+)?] *)
Definition rep_scope : Re.regex :=
  Re.Opt (Re.Cat (Re.Group 1 (Re.Cls Re.digit)) (Re.plus Re.space)).

(** [([A-Z0-9_]+)\s+] *)
Definition rep_key : Re.regex :=
  Re.Cat (Re.Group 2 (Re.plus Ad4d.key_char)) (Re.plus Re.space).

(** [\{?([^>}]+?)] and the tail. *)
Definition value_char : ascii -> bool := Re.none_of ">}".

Definition rep_value : Re.regex :=
  Re.Cat (Re.Opt (Re.Chr "{"))
    (Re.Cat (Re.Group 3 (Re.plus_lazy value_char)) rep_tail).

Definition scope_group (scope : option ascii) : option string :=
  match scope with Some d => Some (String d EmptyString) | None => None end.

Definition scope_atom (scope : option ascii) : atom :=
  match scope with
  | Some d => IntV (Py.int_of (String d EmptyString))
  | None => NoneV
  end.

(** ** Snapshots as finite maps

    Two dictionaries are equal in Python when they bind the same keys to
    equal values, whatever the insertion order: the reading of a bulk
    result as a finite map is what [==] compares. *)

Global Instance atom_countable : Countable atom.
Proof.
  refine (inj_countable'
            (fun a => match a with
                      | NoneV => inl tt
                      | IntV z => inr (inl z)
                      | StrV s => inr (inr s)
                      end)
            (fun x => match x with
                      | inl _ => NoneV
                      | inr (inl z) => IntV z
                      | inr (inr s) => StrV s
                      end) _).
  by intros [].
Defined.

Inductive sval : Type :=
| SLeaf (v : atom)
| SChan (m : gmap string atom).

Definition sval_of (v : mval) : sval :=
  match v with
  | Leaf a => SLeaf a
  | Sub s => SChan (list_to_map s)
  end.

Definition snapshot (d : data) : gmap atom sval :=
  sval_of <$> (list_to_map d : gmap atom mval).

(** The value a snapshot holds at an address: [merged[key]] for the
    device, [merged[n][key]] for channel [n]. *)
Definition snapshot_at (m : gmap atom sval) (ch : atom) (key : string)
    : option atom :=
  match ch with
  | NoneV => match m !! StrV key with Some (SLeaf v) => Some v | _ => None end
  | IntV _ => match m !! ch with Some (SChan c) => c !! key | _ => None end
  | StrV _ => None
  end.

(** A parsed reply as the decoders build it: the scope under [channel],
    [None] or a number, then one key other than [channel] and its
    value. *)
Definition reply_entry (e : parsed) : bool :=
  match e with
  | [(c, ch); (key, _)] =>
      String.eqb c "channel" && negb (String.eqb key "channel")
      && negb (is_str ch)
  | _ => false
  end.

Definition address (e : parsed) : option (atom * string) :=
  match e with
  | [(_, ch); (key, _)] => Some (ch, key)
  | _ => None
  end.

Definition reading (e : parsed) : option atom :=
  match e with
  | [_; (_, v)] => Some v
  | _ => None
  end.

(** Two replies agree when they are for two addresses or carry one
    value; a list is consistent when its replies agree two by two. *)
Definition agree (e1 e2 : parsed) : bool :=
  negb (bool_decide (address e1 = address e2))
  || bool_decide (reading e1 = reading e2).

Definition consistent (l : list parsed) : bool :=
  forallb (fun e1 => forallb (agree e1) l) l.

(** The value of the last reply of [l] for an address. *)
Definition latest (l : list parsed) (ch : atom) (key : string)
    : option atom :=
  fold_left
    (fun acc e =>
       if bool_decide (address e = Some (ch, key)) then reading e else acc)
    l None.

(** One step of the merge, on the finite map. *)
Definition chan_of (x : option sval) : gmap string atom :=
  match x with Some (SChan c) => c | _ => ∅ end.

Definition put (e : parsed) (m : gmap atom sval) : gmap atom sval :=
  match e with
  | [(_, NoneV); (key, v)] => <[StrV key := SLeaf v]> m
  | [(_, ch); (key, v)] =>
      <[ch := SChan (<[key := v]> (chan_of (m !! ch)))]> m
  | _ => m
  end.

(** No channel number is bound to a device-level value. *)
Definition tidy (m : gmap atom sval) : Prop :=
  forall n v, m !! IntV n <> Some (SLeaf v).

(** The text whose complete lines are [lines] and whose unfinished last
    line is [tail]. *)
Definition unlines (lines : list string) (tail : string) : string :=
  fold_right (fun l acc => l +:+ Monitor.NL +:+ acc) tail lines.

Definition one_line (l : string) : bool := negb (Py.contains Monitor.NL l).

(** The connection that a call of [create_connection] opens, when it
    opens one: the arguments are not refused and the peer accepts. *)
Definition opened (host : string) (port : Z) (w : world) : option conn :=
  match connect_error host port, pending w with
  | None, c :: _ =>
      match on_connect c with None => Some c | Some _ => None end
  | _, _ => None
  end.

(** The commands that reach [sendall] when [cmds] are written in order on
    a connection whose writes behave as [script] says: all of them, or the
    ones up to and including the first whose write fails. *)
Fixpoint written (script : list (option oserror)) (cmds : list string)
    {struct cmds} : list string :=
  match cmds with
  | [] => []
  | cmd :: rest =>
      match script with
      | Some _ :: _ => [cmd]
      | None :: script' => cmd :: written script' rest
      | [] => cmd :: rest
      end
  end.

(** A computation that leaves no event. *)
Definition quiet {A} (m : M A) : Prop :=
  forall w, trace (snd (m w)) = trace w.

(** What one call of [send_command] may write to the socket, in order. *)
Definition wire (cmds : list string) : list event :=
  map (fun cmd => Sent ("< " +:+ cmd +:+ " >" +:+ CRLF)) cmds.

(** A computation that never ends in [sys.exit(1)]. *)
Definition no_refusal {A} (m : M A) : Prop :=
  forall w e w', m w = (inl e, w') -> exn_cls e <> SystemExit 1.

(** An outcome that, when it is [sys.exit(1)], has left one line on
    standard error since [w] and nothing else. *)
Definition refusal {A} (w : world) (r : (exn + A) * world) : Prop :=
  forall m w',
    r = (inl (Exn (SystemExit 1) m), w') ->
    exists msg,
      w' = World (pending w) (current w) (trace w ++ [Stderr msg]).

(** A computation that never raises. *)
Definition returns {A} (m : M A) : Prop :=
  forall w, exists a w', m w = (inr a, w').

(** Whether every match of [r] sets group [i]. *)
Fixpoint sets (r : Re.regex) (i : nat) : bool :=
  match r with
  | Re.Cat r1 r2 => sets r1 i || sets r2 i
  | Re.Group j r1 => Nat.eqb i j || sets r1 i
  | _ => false
  end.

(** Whether a line is one that [report_re] matches and that does not
    start as a sample frame. *)
Definition report_line (line : string) : bool :=
  negb (Py.startswith "< SAMPLE" line)
  && match Re.match_groups Monitor.report_re 3 line with
     | Some _ => true
     | None => false
     end.

(** The replies the polling monitor decodes, as the device writes them:
    a device-level value in braces, a channel-level value as one word. *)
Definition device_reply (key v : string) : string :=
  "< REP " +:+ key +:+ " {" +:+ v +:+ "} >".

Definition channel_reply (n key v : string) : string :=
  "< REP " +:+ n +:+ " " +:+ key +:+ " " +:+ v +:+ " >".

(** A pattern without groups. *)
Fixpoint groupless (r : Re.regex) : bool :=
  match r with
  | Re.Cat r1 r2 => groupless r1 && groupless r2
  | Re.Opt r1 => groupless r1
  | Re.Group _ _ => false
  | _ => true
  end.

(** A key that the text rendering can place: a string that is no digit
    string or is one of decimal digits, or an integer written with
    digits only. *)
Definition plain_key (k : atom) : bool :=
  match k with
  | StrV s => negb (isdigit s) || all_chars Py.isdecimal s
  | IntV n => isdigit (Py.str_int n)
  | NoneV => false
  end.

Definition plain (d : data) : bool := forallb plain_key (Dict.keys d).

(** An exception of the socket layer: what [create_connection],
    [sendall] and [recv] raise. *)
Definition socket_error (e : exn) : Prop :=
  exn_cls e = OSError \/ exn_cls e = TimeoutError
  \/ exn_cls e = UnicodeError \/ exn_cls e = OverflowError.

(** The [ValueError] of [int] on a literal of more than 4300 digits. *)
Definition digit_limit (e : exn) : Prop :=
  exists n, MAX_STR_DIGITS < n /\ e = digit_limit_error n.

(** A computation that raises nothing but exceptions of [P]. *)
Definition raises_only {A} (P : exn -> Prop) (m : M A) : Prop :=
  forall w e w', m w = (inl e, w') -> P e.

(** The output formats that do not sort the keys with [int]. *)
Definition structured (output_format : string) : bool :=
  mem_str output_format ["json"; "pretty"; "raw"].

(** A key that is no string of more than 4300 characters. *)
Definition short (k : atom) : bool :=
  match k with
  | StrV s => Nat.leb (String.length s) MAX_STR_DIGITS
  | _ => true
  end.

(** A report of the point-to-point family, as the device writes it:
    [< REPORT n KEY value >] for a channel, [< REPORT KEY value >] for the
    device. *)
Definition report_frame (scope : option string) (key v : string) : string :=
  "< REPORT "
  +:+ match scope with Some n => n +:+ " " | None => EmptyString end
  +:+ key +:+ " " +:+ v +:+ " >".

(** A word: no white space in it, and not empty. *)
Definition word (u : string) : bool :=
  all_chars Re.nonspace u && negb (String.eqb u EmptyString).

(** A key that [build_command] takes as a channel-level key. *)
Definition ad4d_channel_key (key : string) : bool :=
  mem_str (Py.upper key) Ad4d.ALL_KEYS
  && negb (mem_str (Py.upper key) Ad4d.DEVICE_GET_ONLY_KEYS
           || mem_str (Py.upper key) Ad4d.DEVICE_GET_SET_KEYS).

Definition p10t_channel_key (key : string) : bool :=
  mem_str (Py.upper key) P10t.ALL_KEYS
  && negb (mem_str (Py.upper key) P10t.DEVICE_GET_ONLY_KEYS
           || mem_str (Py.upper key) P10t.DEVICE_GET_SET_KEYS).

(** Whether a client knows the channel given on the command line. *)
Definition known_channel (channels : list string) (channel : option string)
    : bool :=
  match channel with Some ch => mem_str ch channels | None => false end.

(** The address of a reply as [send_command] compares it with
    [expect_key]: the key, after the channel number when there is one. *)
Definition reply_address (e : parsed) : string :=
  match e with
  | [(_, NoneV); (key, _)] => key
  | [(_, ch); (key, _)] => str_atom ch +:+ " " +:+ key
  | _ => EmptyString
  end.

(** The value of the first reply of [entries] at the address [k], [None]
    when there is none. *)
Definition first_reply (entries : list parsed) (k : string) : atom :=
  match List.find (fun e => String.eqb (reply_address e) k) entries with
  | Some e => match reading e with Some v => v | None => NoneV end
  | None => NoneV
  end.

(** [command and command.startswith("SET")] *)
Definition is_set (command : option string) : bool :=
  match command with
  | Some c => negb (String.eqb c EmptyString) && Py.startswith "SET" c
  | None => false
  end.

(** * Properties *)

(** ** The monad *)

Lemma bind_ret_l {A B} (a : A) (f : A -> M B) w : bind (ret a) f w = f a w.
Proof. reflexivity. Qed.


Lemma sink_writes_app tr1 tr2 :
  sink_writes (tr1 ++ tr2) = sink_writes tr1 ++ sink_writes tr2.
Proof.
  induction tr1 as [|e tr1 IH]; [done|].
  destruct e; simpl; rewrite ?IH; done.
Qed.

Lemma connects_app tr1 tr2 : connects (tr1 ++ tr2) = connects tr1 ++ connects tr2.
Proof.
  induction tr1 as [|e tr1 IH]; [done|].
  destruct e; simpl; rewrite ?IH; done.
Qed.

(** ** Strings and patterns *)

Lemma str_app_cons a s t : String a s +:+ t = String a (s +:+ t).
Proof. reflexivity. Qed.

Lemma str_app_nil_l s : EmptyString +:+ s = s.
Proof. reflexivity. Qed.

Lemma str_app_nil_r s : s +:+ EmptyString = s.
Proof. induction s as [|a s IH]; [done|]. by rewrite str_app_cons, IH. Qed.

Lemma str_app_assoc s t u : (s +:+ t) +:+ u = s +:+ (t +:+ u).
Proof. induction s as [|a s IH]; [done|]. by rewrite !str_app_cons, IH. Qed.

Lemma str_length_app s t :
  String.length (s +:+ t) = String.length s + String.length t.
Proof. induction s as [|a s IH]; [done|]. rewrite str_app_cons. simpl. by rewrite IH. Qed.

Lemma take_app u s : Re.take (String.length u) (u +:+ s) = u.
Proof.
  induction u as [|a u IH]; [by destruct s|].
  rewrite str_app_cons. simpl. by rewrite IH.
Qed.

Section ExecFacts.
Context {R : Type}.
Implicit Types (k : @Re.cont R) (x : R).

Lemma rep_greedy_sound p min pos s c k x :
  Re.rep_greedy p min pos s c k = Some x ->
  exists u s', all_chars p u = true /\ min <= String.length u
               /\ s = u +:+ s' /\ k (pos + String.length u) s' c = Some x.
Proof.
  revert min pos; induction s as [|a s IH]; intros min pos; simpl.
  - destruct (Nat.eqb_spec min 0) as [->|]; [|done]. intros H.
    exists EmptyString, EmptyString. by rewrite Nat.add_0_r.
  - destruct (p a) eqn:Hp.
    + destruct (Re.rep_greedy p (pred min) (S pos) s c k) eqn:Hrec.
      * intros [= ->]. apply IH in Hrec as (u & s' & Hu & Hmin & -> & Hk).
        exists (String a u), s'. simpl. rewrite Hp, Hu.
        rewrite Nat.add_succ_r. repeat split; [lia|done].
      * destruct (Nat.eqb_spec min 0) as [->|]; [|done]. intros H.
        exists EmptyString, (String a s). by rewrite Nat.add_0_r.
    + destruct (Nat.eqb_spec min 0) as [->|]; [|done]. intros H.
      exists EmptyString, (String a s). by rewrite Nat.add_0_r.
Qed.

Lemma rep_lazy_sound p min pos s c k x :
  Re.rep_lazy p min pos s c k = Some x ->
  exists u s', all_chars p u = true /\ min <= String.length u
               /\ s = u +:+ s' /\ k (pos + String.length u) s' c = Some x.
Proof.
  revert min pos; induction s as [|a s IH]; intros min pos.
  - destruct min; simpl; [|done].
    destruct (k pos EmptyString c) eqn:Hk; [|done]. intros [= ->].
    exists EmptyString, EmptyString. by rewrite Nat.add_0_r.
  - destruct min as [|m]; simpl.
    + destruct (k pos (String a s) c) eqn:Hk.
      * intros [= ->]. exists EmptyString, (String a s). by rewrite Nat.add_0_r.
      * destruct (p a) eqn:Hp; [|done]. intros Hrec.
        apply IH in Hrec as (u & s' & Hu & Hmin & -> & Hk').
        exists (String a u), s'. simpl. rewrite Hp, Hu.
        rewrite Nat.add_succ_r. repeat split; [lia|done].
    + destruct (p a) eqn:Hp; [|done]. intros Hrec.
      apply IH in Hrec as (u & s' & Hu & Hmin & -> & Hk').
      exists (String a u), s'. simpl. rewrite Hp, Hu.
      rewrite Nat.add_succ_r. repeat split; [lia|done].
Qed.

End ExecFacts.

Lemma exec_sound {R} r : forall pos s c (k : @Re.cont R) x,
  Re.exec r pos s c k = Some x ->
  exists pos' s' c', sem r pos s c pos' s' c' /\ k pos' s' c' = Some x.
Proof.
  induction r as [|a|p|r1 IH1 r2 IH2|r1 IH1|p min g|i r1 IH1| |];
    intros pos s c k x; simpl.
  - intros H. by exists pos, s, c.
  - destruct s as [|b s]; [done|].
    destruct (Ascii.eqb_spec a b) as [->|]; [|done]. intros H.
    by exists (S pos), s, c.
  - destruct s as [|b s]; [done|]. destruct (p b) eqn:Hp; [|done].
    intros H. exists (S pos), s, c. split; [by exists b|done].
  - intros H. apply IH1 in H as (p1 & s1 & c1 & H1 & H).
    apply IH2 in H as (p2 & s2 & c2 & H2 & H).
    exists p2, s2, c2. split; [by exists p1, s1, c1|done].
  - destruct (Re.exec r1 pos s c k) eqn:Hr.
    + intros [= ->]. apply IH1 in Hr as (p1 & s1 & c1 & H1 & H).
      exists p1, s1, c1. by split; [left|].
    + intros H. exists pos, s, c. by split; [right|].
  - intros H.
    assert (exists u s', all_chars p u = true /\ min <= String.length u
               /\ s = u +:+ s' /\ k (pos + String.length u) s' c = Some x)
      as (u & s' & Hu & Hmin & -> & Hk).
    { destruct g; [by apply rep_greedy_sound|by apply rep_lazy_sound]. }
    exists (pos + String.length u), s', c. split; [by exists u|done].
  - intros H. apply IH1 in H as (p1 & s1 & c1 & H1 & H).
    eexists p1, s1, _. split; [by exists c1|done].
  - destruct (Nat.eqb_spec pos 0) as [->|]; [|done]. intros H.
    by exists 0, s, c.
  - destruct s as [|a [|b s]]; [| |done].
    + intros H. exists pos, EmptyString, c. split; [|done]. split; [by left|done].
    + destruct (Ascii.eqb_spec a "010"%char) as [->|]; [|done]. intros H.
      exists pos, (String "010"%char EmptyString), c. split; [|done].
      split; [by right|done].
Qed.

Section ExecFirst.
Context {R : Type}.
Implicit Types (k : @Re.cont R) (x : R).

Lemma rep_greedy_first p min pos u s c k x :
  all_chars p u = true -> stops p s = true -> min <= String.length u ->
  k (pos + String.length u) s c = Some x ->
  Re.rep_greedy p min pos (u +:+ s) c k = Some x.
Proof.
  revert min pos; induction u as [|a u IH]; intros min pos Hu Hs Hmin Hk.
  - simpl in Hmin. assert (min = 0) as -> by lia.
    rewrite str_app_nil_l. simpl in Hk. rewrite Nat.add_0_r in Hk.
    destruct s as [|b s]; simpl; [done|].
    simpl in Hs. by destruct (p b).
  - simpl in Hu. apply andb_prop in Hu as [Hp Hu].
    rewrite str_app_cons. simpl. rewrite Hp.
    rewrite (IH (pred min) (S pos)); [done|done|done|simpl in Hmin; lia|].
    simpl in Hk. by rewrite Nat.add_succ_r in Hk.
Qed.

Lemma rep_lazy_first p min pos u s c k x :
  all_chars p u = true -> min <= String.length u ->
  (forall a b, u = a +:+ b -> min <= String.length a -> b <> EmptyString ->
               k (pos + String.length a) (b +:+ s) c = None) ->
  k (pos + String.length u) s c = Some x ->
  Re.rep_lazy p min pos (u +:+ s) c k = Some x.
Proof.
  revert min pos; induction u as [|a u IH]; intros min pos Hu Hmin Hnone Hk.
  - simpl in Hmin. assert (min = 0) as -> by lia.
    rewrite str_app_nil_l. simpl in Hk. rewrite Nat.add_0_r in Hk.
    destruct s; simpl; by rewrite Hk.
  - simpl in Hu. apply andb_prop in Hu as [Hp Hu].
    assert (Hrec : forall m, m <= String.length u ->
              (forall a' b, u = a' +:+ b -> m <= String.length a' ->
                 b <> EmptyString ->
                 k (pos + String.length (String a a')) (b +:+ s) c = None) ->
              Re.rep_lazy p m (S pos) (u +:+ s) c k = Some x).
    { intros m Hm Hn. apply IH; [done|done| |].
      - intros a' b Hab Hma Hb. specialize (Hn a' b Hab Hma Hb).
        simpl in Hn. by rewrite Nat.add_succ_r in Hn.
      - simpl in Hk. by rewrite Nat.add_succ_r in Hk. }
    rewrite str_app_cons.
    destruct min as [|m]; simpl.
    + pose proof (Hnone EmptyString (String a u) eq_refl (Nat.le_0_l _)) as H0.
      simpl in H0. rewrite Nat.add_0_r, str_app_cons in H0.
      rewrite H0 by done. rewrite Hp. apply Hrec; [lia|].
      intros a' b -> _ Hb. apply Hnone; [done|simpl; lia|done].
    + rewrite Hp. apply Hrec; [simpl in Hmin; lia|].
      intros a' b -> Hm Hb. apply Hnone; [done|simpl; lia|done].
Qed.

End ExecFirst.

Lemma opt_first {R} r pos s c (k : @Re.cont R) x :
  Re.exec r pos s c k = Some x -> Re.exec (Re.Opt r) pos s c k = Some x.
Proof. simpl. by intros ->. Qed.

Lemma opt_skip {R} r pos s c (k : @Re.cont R) :
  Re.exec r pos s c k = None -> Re.exec (Re.Opt r) pos s c k = k pos s c.
Proof. simpl. by intros ->. Qed.

Lemma all_chars_app p u v :
  all_chars p (u +:+ v) = all_chars p u && all_chars p v.
Proof.
  induction u as [|a u IH]; [done|]. rewrite str_app_cons. simpl.
  by rewrite IH, andb_assoc.
Qed.

Lemma all_chars_impl (p q : ascii -> bool) u :
  (forall a, p a = true -> q a = true) ->
  all_chars p u = true -> all_chars q u = true.
Proof.
  intros Hpq. induction u as [|a u IH]; [done|]. simpl.
  intros [Ha Hu]%andb_prop. by rewrite (Hpq _ Ha), IH.
Qed.

Lemma rep_tail_shape pos s c pos' s' c' :
  sem rep_tail pos s c pos' s' c' ->
  all_chars tail_char s = true
  \/ exists t, s = String "}" t /\ all_chars tail_char t = true.
Proof.
  unfold rep_tail; simpl.
  intros (p1 & s1 & c1 & H1 & p2 & s2 & c2 & (u & Hu & _ & -> & _) &
          p3 & s3 & c3 & H3 & He & _ & -> & _).
  assert (all_chars tail_char (u +:+ s2) = true) as Hall.
  { rewrite all_chars_app. apply andb_true_intro; split.
    - revert Hu. apply all_chars_impl. intros a Ha.
      unfold tail_char. unfold Re.space in Ha. by rewrite Ha.
    - destruct H3 as [(-> & _)|(_ & -> & _)];
        by destruct He as [->| ->]. }
  destruct H1 as [(-> & _)|(_ & <- & _)]; [right; by eexists|by left].
Qed.

Section Stages.
Context {R : Type}.
Implicit Types (k : @Re.cont R) (x : R).

Lemma exec_cat r1 r2 pos s c k :
  Re.exec (Re.Cat r1 r2) pos s c k
  = Re.exec r1 pos s c (fun p' s' c' => Re.exec r2 p' s' c' k).
Proof. reflexivity. Qed.

Lemma exec_chr a pos s c k :
  Re.exec (Re.Chr a) pos (String a s) c k = k (S pos) s c.
Proof. simpl. by rewrite Ascii.eqb_refl. Qed.

Lemma exec_bol s c k : Re.exec Re.Bol 0 s c k = k 0 s c.
Proof. reflexivity. Qed.

Lemma exec_cls p b pos s c k :
  p b = true -> Re.exec (Re.Cls p) pos (String b s) c k = k (S pos) s c.
Proof. simpl. by intros ->. Qed.

Lemma exec_cls_stop p pos s c k :
  stops p s = true -> Re.exec (Re.Cls p) pos s c k = None.
Proof. destruct s as [|a s]; [done|]. simpl. by destruct (p a). Qed.

Lemma exec_group i r pos s c k :
  Re.exec (Re.Group i r) pos s c k
  = Re.exec r pos s c
      (fun pos' s' c' =>
         k pos' s' (Re.set_cap i (Re.take (pos' - pos) s) c')).
Proof. reflexivity. Qed.

Lemma exec_lit w pos s c k :
  Re.exec (Re.lit w) pos (w +:+ s) c k = k (pos + String.length w) s c.
Proof.
  revert pos; induction w as [|a w IH]; intros pos.
  - simpl. by rewrite Nat.add_0_r.
  - rewrite str_app_cons. cbn [Re.lit]. rewrite exec_cat, exec_chr, IH.
    simpl. by rewrite Nat.add_succ_r.
Qed.

Lemma exec_greedy_first p min pos u s c k x :
  all_chars p u = true -> stops p s = true -> min <= String.length u ->
  k (pos + String.length u) s c = Some x ->
  Re.exec (Re.Rep p min true) pos (u +:+ s) c k = Some x.
Proof. apply rep_greedy_first. Qed.

Lemma exec_lazy_first p min pos u s c k x :
  all_chars p u = true -> min <= String.length u ->
  (forall a b, u = a +:+ b -> min <= String.length a -> b <> EmptyString ->
               k (pos + String.length a) (b +:+ s) c = None) ->
  k (pos + String.length u) s c = Some x ->
  Re.exec (Re.Rep p min false) pos (u +:+ s) c k = Some x.
Proof. apply rep_lazy_first. Qed.

Lemma exec_rep_head s k x :
  stops Re.space s = true ->
  k 6 s Re.no_caps = Some x ->
  Re.exec rep_head 0 ("< REP " +:+ s) Re.no_caps k = Some x.
Proof.
  intros Hs Hk. unfold rep_head. cbn [Re.cat].
  change ("< REP " +:+ s) with (String "<" (" " +:+ ("REP" +:+ (" " +:+ s)))).
  rewrite exec_cat, exec_bol, exec_cat, exec_chr, exec_cat.
  apply exec_greedy_first; [done|done|simpl; lia|].
  rewrite exec_cat, exec_lit.
  apply exec_greedy_first; [done|done|simpl; lia|]. exact Hk.
Qed.

Lemma exec_rep_scope_some d pos s c k x :
  Re.digit d = true -> stops Re.space s = true ->
  k (pos + 2) s (Re.set_cap 1 (String d EmptyString) c) = Some x ->
  Re.exec rep_scope pos (String d (" " +:+ s)) c k = Some x.
Proof.
  intros Hd Hs Hk. apply opt_first.
  rewrite exec_cat, exec_group, (exec_cls _ _ _ _ _ _ Hd).
  apply exec_greedy_first; [done|done|simpl; lia|].
  replace (S pos - pos) with 1 by lia. simpl Re.take.
  replace (S pos + String.length " ") with (pos + 2) by (simpl; lia).
  exact Hk.
Qed.

Lemma exec_rep_scope_none pos s c k :
  stops Re.digit s = true ->
  Re.exec rep_scope pos s c k = k pos s c.
Proof.
  intros Hs. apply opt_skip.
  by rewrite exec_cat, exec_group, exec_cls_stop.
Qed.

Lemma exec_rep_key key pos s c k x :
  all_chars Ad4d.key_char key = true -> key <> EmptyString ->
  stops Re.space s = true ->
  k (pos + String.length key + 1) s (Re.set_cap 2 key c) = Some x ->
  Re.exec rep_key pos (key +:+ " " +:+ s) c k = Some x.
Proof.
  intros Hkey Hne Hs Hk. unfold rep_key. rewrite exec_cat, exec_group.
  apply exec_greedy_first; [done|done| |].
  { destruct key; [done|simpl; lia]. }
  apply exec_greedy_first; [done|done|simpl; lia|].
  replace (pos + String.length key - pos) with (String.length key) by lia.
  rewrite take_app. simpl String.length. exact Hk.
Qed.

End Stages.

Lemma rep_re_stages {R} pos s c (k : @Re.cont R) :
  Re.exec Ad4d.REP_RE pos s c k
  = Re.exec
      (Re.Cat rep_head (Re.Cat rep_scope (Re.Cat rep_key rep_value)))
      pos s c k.
Proof. reflexivity. Qed.

Lemma lstrip_length p s :
  String.length (Py.lstrip_with p s) <= String.length s.
Proof. induction s as [|a s IH]; simpl; [done|]. destruct (p a); simpl; lia. Qed.

Lemma rstrip_length p s :
  String.length (Py.rstrip_with p s) <= String.length s.
Proof.
  induction s as [|a s IH]; simpl; [done|].
  destruct (Py.rstrip_with p s); [destruct (p a)|]; simpl in *; lia.
Qed.

Lemma rstrip_app_all p a b :
  all_chars p b = true -> Py.rstrip_with p (a +:+ b) = Py.rstrip_with p a.
Proof.
  intros Hb. induction a as [|c a IH].
  - rewrite str_app_nil_l. induction b as [|d b IHb]; [done|].
    simpl in *. apply andb_prop in Hb as [Hd Hb]. by rewrite (IHb Hb), Hd.
  - rewrite str_app_cons. simpl. by rewrite IH.
Qed.

Lemma strip_fixed v :
  Py.strip v = v ->
  Py.lstrip_with Py.isspace v = v /\ Py.rstrip_with Py.isspace v = v.
Proof.
  unfold Py.strip. intros H.
  assert (Py.lstrip_with Py.isspace v = v) as Hl.
  { destruct v as [|a v]; [done|]. simpl in *.
    destruct (Py.isspace a); [|done]. exfalso.
    pose proof (rstrip_length Py.isspace (Py.lstrip_with Py.isspace v)).
    pose proof (lstrip_length Py.isspace v).
    rewrite H in *. simpl in *. lia. }
  by rewrite Hl in H.
Qed.

Lemma strip_fixed_first v :
  Py.strip v = v -> stops Py.isspace v = true.
Proof.
  intros [Hl _]%strip_fixed. destruct v as [|a v]; [done|]. simpl in *.
  destruct (Py.isspace a); [|done]. exfalso.
  pose proof (lstrip_length Py.isspace v). rewrite Hl in *. simpl in *. lia.
Qed.

Lemma strip_fixed_suffix v a b :
  Py.strip v = v -> v = a +:+ b -> b <> EmptyString ->
  all_chars Py.isspace b = false.
Proof.
  intros [_ Hr]%strip_fixed -> Hb.
  destruct (all_chars Py.isspace b) eqn:Hall; [|done]. exfalso.
  rewrite rstrip_app_all in Hr by done.
  pose proof (rstrip_length Py.isspace a) as Hlen.
  rewrite Hr, str_length_app in Hlen. destruct b; [done|simpl in *; lia].
Qed.

Lemma rep_tail_none {R} pos s c (k : @Re.cont R) :
  all_chars tail_char s = false ->
  (forall t, s = String "}" t -> all_chars tail_char t = false) ->
  Re.exec rep_tail pos s c k = None.
Proof.
  intros H1 H2. destruct (Re.exec rep_tail pos s c k) eqn:E; [|done].
  apply exec_sound in E as (p' & s' & c' & Hsem & _).
  apply rep_tail_shape in Hsem as [H|(t & -> & H)]; [congruence|].
  by rewrite (H2 t) in H.
Qed.

Lemma exec_rep_tail_braced {R} pos c (k : @Re.cont R) x :
  k (pos + 3) EmptyString c = Some x ->
  Re.exec rep_tail pos "} >" c k = Some x.
Proof.
  intros Hk. unfold rep_tail. cbn [Re.cat].
  rewrite exec_cat. apply opt_first. rewrite exec_chr, exec_cat.
  apply (exec_greedy_first _ _ _ " " ">"); [done|done|simpl; lia|].
  rewrite exec_cat. apply opt_first. rewrite exec_chr. simpl.
  by replace (S (S (pos + 1))) with (pos + 3) by lia.
Qed.

Lemma exec_rep_tail_plain {R} pos c (k : @Re.cont R) x :
  k (pos + 2) EmptyString c = Some x ->
  Re.exec rep_tail pos " >" c k = Some x.
Proof.
  intros Hk. unfold rep_tail. cbn [Re.cat].
  rewrite exec_cat, opt_skip by done.
  rewrite exec_cat.
  apply (exec_greedy_first _ _ _ " " ">"); [done|done|simpl; lia|].
  rewrite exec_cat. apply opt_first. rewrite exec_chr. simpl.
  by replace (S (pos + 1)) with (pos + 2) by lia.
Qed.

Lemma value_char_first b :
  all_chars value_char b = true -> b <> EmptyString ->
  forall t, b <> String "}" t.
Proof. intros Hb _ t ->. done. Qed.

Lemma tail_chars_space b :
  all_chars value_char b = true -> all_chars tail_char b = true ->
  all_chars Py.isspace b = true.
Proof.
  induction b as [|a b IH]; [done|]. simpl.
  intros [Ha Hb]%andb_prop [Ht Hb']%andb_prop. rewrite (IH Hb Hb'), andb_true_r.
  unfold tail_char in Ht. unfold value_char, Re.none_of, Py.mem_chars in Ha.
  simpl in Ha. destruct (Py.isspace a) eqn:Hsp; [done|]. exfalso.
  simpl in Ht. apply orb_prop in Ht as [Ht|Ht].
  - by rewrite Ht in Ha.
  - apply Ascii.eqb_eq in Ht as ->. done.
Qed.

Lemma exec_rep_value_braced {R} v pos c (k : @Re.cont R) x :
  all_chars value_char v = true -> v <> EmptyString ->
  k (S pos + String.length v + 3) EmptyString (Re.set_cap 3 v c) = Some x ->
  Re.exec rep_value pos (String "{" (v +:+ "} >")) c k = Some x.
Proof.
  intros Hv Hne Hk. unfold rep_value.
  rewrite exec_cat. apply opt_first. rewrite exec_chr, exec_cat, exec_group.
  apply exec_lazy_first; [done|destruct v; [done|simpl; lia]| |].
  - intros a b -> Ha Hb. rewrite all_chars_app in Hv.
    apply andb_prop in Hv as [_ Hvb]. apply rep_tail_none.
    + rewrite all_chars_app. apply andb_false_intro2. done.
    + intros t Ht. destruct b as [|b0 b]; [done|].
      rewrite str_app_cons in Ht. injection Ht as -> _. done.
  - apply exec_rep_tail_braced.
    replace (S pos + String.length v - S pos) with (String.length v) by lia.
    by rewrite take_app.
Qed.

Lemma exec_rep_value_plain {R} v pos c (k : @Re.cont R) x :
  all_chars value_char v = true -> v <> EmptyString ->
  Py.strip v = v -> stops (Ascii.eqb "{") v = true ->
  k (pos + String.length v + 2) EmptyString (Re.set_cap 3 v c) = Some x ->
  Re.exec rep_value pos (v +:+ " >") c k = Some x.
Proof.
  intros Hv Hne Hstrip Hbrace Hk. unfold rep_value.
  rewrite exec_cat, opt_skip.
  2:{ destruct v as [|a v]; [done|]. rewrite str_app_cons.
      unfold stops in Hbrace. cbn [Re.exec].
      destruct (Ascii.eqb "{" a); [discriminate Hbrace|reflexivity]. }
  rewrite exec_cat, exec_group.
  apply exec_lazy_first; [done|destruct v; [done|simpl; lia]| |].
  - intros a b Hab Ha Hb. pose proof Hv as Hv'. rewrite Hab, all_chars_app in Hv'.
    apply andb_prop in Hv' as [_ Hvb]. apply rep_tail_none.
    + rewrite all_chars_app. apply andb_false_intro1.
      destruct (all_chars tail_char b) eqn:Ht; [|done].
      rewrite <- (strip_fixed_suffix v a b Hstrip Hab Hb).
      symmetry. by apply tail_chars_space.
    + intros t Ht. destruct b as [|b0 b]; [done|].
      rewrite str_app_cons in Ht. injection Ht as -> _. done.
  - apply exec_rep_tail_plain.
    replace (pos + String.length v - pos) with (String.length v) by lia.
    by rewrite take_app.
Qed.

Lemma digit_not_space d : Py.isdecimal d = true -> Py.isspace d = false.
Proof.
  destruct d as [b0 b1 b2 b3 b4 b5 b6 b7].
  destruct b0, b1, b2, b3, b4, b5, b6, b7; vm_compute; intros H;
    try reflexivity; discriminate H.
Qed.

Lemma key_char_not_space a : Ad4d.key_char a = true -> Py.isspace a = false.
Proof.
  destruct a as [b0 b1 b2 b3 b4 b5 b6 b7].
  destruct b0, b1, b2, b3, b4, b5, b6, b7; vm_compute; intros H;
    try reflexivity; discriminate H.
Qed.

Lemma key_first_not_space key :
  all_chars Ad4d.key_char key = true -> stops Re.space key = true.
Proof.
  destruct key as [|a key]; [done|]. simpl. intros [Ha _]%andb_prop.
  unfold Re.space. by rewrite key_char_not_space.
Qed.

Lemma stops_app p u s : u <> EmptyString -> stops p (u +:+ s) = stops p u.
Proof. by destruct u. Qed.

Lemma rstrip_app p u t :
  t <> EmptyString -> Py.rstrip_with p t = t ->
  Py.rstrip_with p (u +:+ t) = u +:+ t.
Proof.
  intros Hne Ht. induction u as [|a u IH]; [done|].
  rewrite str_app_cons. simpl. rewrite IH.
  destruct (u +:+ t) eqn:E; [|done]. destruct u; [|done]. by simpl in E.
Qed.

Lemma str_app_ne_r u t : t <> EmptyString -> u +:+ t <> EmptyString.
Proof. intros Ht. by destruct u. Qed.

Lemma strip_rep_frame scope key shown :
  Py.strip (rep_frame scope key shown) = rep_frame scope key shown.
Proof.
  unfold Py.strip, rep_frame.
  change (Py.lstrip_with Py.isspace ("< REP " +:+ ?s)) with ("< REP " +:+ s).
  repeat (apply rstrip_app; [repeat apply str_app_ne_r; done|]). done.
Qed.

Lemma strip_key key :
  all_chars Ad4d.key_char key = true -> Py.strip key = key.
Proof.
  intros Hkey. unfold Py.strip.
  assert (Py.lstrip_with Py.isspace key = key) as ->.
  { destruct key as [|a key]; [done|]. simpl in *.
    apply andb_prop in Hkey as [Ha _]. by rewrite key_char_not_space. }
  induction key as [|a key IH]; [done|]. simpl in *.
  apply andb_prop in Hkey as [Ha Hkey]. rewrite (IH Hkey).
  destruct key; [by rewrite key_char_not_space|done].
Qed.

Lemma key_not_channel key :
  all_chars Ad4d.key_char key = true -> key <> "channel".
Proof. by intros H ->. Qed.

Lemma match_rep_frame scope key v shown :
  (forall d, scope = Some d -> Py.isdecimal d = true) ->
  all_chars Ad4d.key_char key = true -> key <> EmptyString ->
  stops Py.isdecimal key = true ->
  all_chars value_char v = true -> v <> EmptyString ->
  Py.strip v = v -> stops (Ascii.eqb "{") v = true ->
  shown = v \/ shown = "{" +:+ v +:+ "}" ->
  Re.match_groups Ad4d.REP_RE 3 (rep_frame scope key shown)
  = Some [scope_group scope; Some key; Some v].
Proof.
  intros Hscope Hkey Hkne Hkd Hv Hvne Hstrip Hbrace Hshown.
  unfold Re.match_groups. rewrite rep_re_stages, exec_cat.
  unfold rep_frame. apply exec_rep_head.
  { destruct scope as [d|].
    - simpl. unfold Re.space. by rewrite digit_not_space; [|apply Hscope].
    - rewrite str_app_nil_l, stops_app by done. by apply key_first_not_space. }
  rewrite exec_cat.
  assert (forall pos c,
    Re.exec rep_key pos (key +:+ " " +:+ shown +:+ " >") c
      (fun p' s' c' =>
         Re.exec rep_value p' s' c' (fun _ _ c0 => Some (Re.groups 3 c0)))
    = Some [c 1; Some key; Some v]) as Hrest.
  { intros pos c. apply exec_rep_key; [done|done| |].
    - destruct Hshown as [-> | ->]; [|done].
      rewrite stops_app by done. by apply strip_fixed_first.
    - destruct Hshown as [-> | ->].
      + by apply exec_rep_value_plain.
      + change (("{" +:+ v +:+ "}") +:+ " >")
          with (String "{" ((v +:+ "}") +:+ " >")).
        rewrite str_app_assoc. by apply exec_rep_value_braced. }
  destruct scope as [d|].
  - change (String d " " +:+ ?s) with (String d (" " +:+ s)).
    apply exec_rep_scope_some; [by apply Hscope| |].
    + rewrite stops_app by done. by apply key_first_not_space.
    + rewrite exec_cat. apply Hrest.
  - rewrite str_app_nil_l, exec_rep_scope_none.
    + rewrite exec_cat. apply Hrest.
    + by rewrite stops_app.
Qed.

Lemma parse_rep_frame scope key v shown :
  (forall d, scope = Some d -> Py.isdecimal d = true) ->
  all_chars Ad4d.key_char key = true -> key <> EmptyString ->
  stops Py.isdecimal key = true ->
  all_chars value_char v = true -> v <> EmptyString ->
  Py.strip v = v -> stops (Ascii.eqb "{") v = true ->
  shown = v \/ shown = "{" +:+ v +:+ "}" ->
  Ad4d.parse_report_line (rep_frame scope key shown)
  = Some [("channel", scope_atom scope); (key, StrV v)].
Proof.
  intros Hscope Hkey Hkne Hkd Hv Hvne Hstrip Hbrace Hshown.
  unfold Ad4d.parse_report_line.
  rewrite strip_rep_frame, (match_rep_frame scope key v shown) by done.
  rewrite strip_key, Hstrip by done.
  pose proof (key_not_channel key Hkey) as Hch.
  destruct scope as [d|]; simpl; unfold Dict.lit, Dict.update; simpl;
    by destruct (decide (key = "channel")).
Qed.

(** ** Sample frames *)



Lemma combine_snd {A B} (l1 : list A) (l2 : list B) :
  map snd (combine l1 l2) = firstn (length l1) l2.
Proof.
  revert l2; induction l1 as [|a l1 IH]; intros [|b l2]; simpl; try done.
  by rewrite IH.
Qed.


Lemma word_parts u :
  word u = true -> all_chars Re.nonspace u = true /\ u <> EmptyString.
Proof.
  unfold word. intros H. apply andb_prop in H as [Hu Hne].
  split; [done|]. intros ->. done.
Qed.

Lemma split_ws_word u : word u = true -> Py.split_ws u = [u].
Proof.
  intros H. apply word_parts in H as [Hu Hne].
  induction u as [|c u IH]; [done|]. simpl in Hu.
  apply andb_prop in Hu as [Hc Hu]. cbn [Py.split_ws].
  unfold Re.nonspace in Hc. apply negb_true_iff in Hc. rewrite Hc.
  destruct u as [|d u]; [done|].
  pose proof Hu as Hu'. simpl in Hu'. apply andb_prop in Hu' as [Hd _].
  unfold Re.nonspace in Hd. apply negb_true_iff in Hd. rewrite Hd.
  by rewrite IH.
Qed.

Lemma split_ws_word_space u rest :
  word u = true ->
  Py.split_ws (u +:+ " " +:+ rest) = u :: Py.split_ws rest.
Proof.
  intros H. apply word_parts in H as [Hu Hne].
  induction u as [|c u IH]; [done|]. simpl in Hu.
  apply andb_prop in Hu as [Hc Hu]. rewrite str_app_cons.
  cbn [Py.split_ws].
  unfold Re.nonspace in Hc. apply negb_true_iff in Hc. rewrite Hc.
  destruct u as [|d u].
  - rewrite str_app_nil_l.
    change (" " +:+ rest) with (String " " rest). cbn [Py.split_ws].
    by replace (Py.isspace " ") with true by by vm_compute.
  - pose proof Hu as Hu'. simpl in Hu'. apply andb_prop in Hu' as [Hd _].
    unfold Re.nonspace in Hd. apply negb_true_iff in Hd.
    rewrite str_app_cons, Hd, <- str_app_cons.
    by rewrite IH.
Qed.





(** ** Scenarios of the wire codec *)

(** C9.  The multi-channel decoder reads [< REP 2 FREQUENCY 518.475 >] as
    channel 2, key [FREQUENCY], value [518.475]. *)
Theorem ad4d_rep_frequency :
  Ad4d.parse_report_line "< REP 2 FREQUENCY 518.475 >"
  = Some [("channel", IntV 2); ("FREQUENCY", StrV "518.475")].
Proof. vm_compute. reflexivity. Qed.

(** C3, as stated, fails: the point-to-point decoder returns the value of
    [< REPORT DEVICE_NAME {Unit-A} >] with its braces. *)
Lemma p10t_report_keeps_braces :
  P10t.parse_report_line "< REPORT DEVICE_NAME {Unit-A} >"
  = Some [("channel", NoneV); ("DEVICE_NAME", StrV "{Unit-A}")]
  /\ P10t.parse_report_line "< REPORT DEVICE_NAME {Unit-A} >"
     <> Some [("channel", NoneV); ("DEVICE_NAME", StrV "Unit-A")].
Proof. split; [vm_compute; reflexivity | vm_compute; discriminate]. Qed.

(** Braces in a direct reply (the subject of C3).  The point-to-point
    decoder returns the value of
    [< REPORT DEVICE_NAME {Unit-A} >] as [{Unit-A}], braces kept.  The
    multi-channel decoder strips one brace pair: for a key of
    [[A-Z0-9_]+] that does not start with a digit and a non-empty value
    without [>] or [}], without surrounding white space and not starting
    with a brace, the reply [< REP [n] KEY {value} >] and the reply
    [< REP [n] KEY value >] both decode to that scope, key and value. *)
Theorem direct_reply_braces (scope : option ascii) (key v : string) :
  scope_ok scope = true ->
  all_chars Ad4d.key_char key = true -> key <> EmptyString ->
  stops Py.isdecimal key = true ->
  all_chars value_char v = true -> v <> EmptyString ->
  Py.strip v = v -> stops (Ascii.eqb "{") v = true ->
  P10t.parse_report_line "< REPORT DEVICE_NAME {Unit-A} >"
  = Some [("channel", NoneV); ("DEVICE_NAME", StrV "{Unit-A}")]
  /\ Ad4d.parse_report_line (rep_frame scope key ("{" +:+ v +:+ "}"))
     = Some [("channel", scope_atom scope); (key, StrV v)]
  /\ Ad4d.parse_report_line (rep_frame scope key v)
     = Some [("channel", scope_atom scope); (key, StrV v)].
Proof.
  intros Hscope Hkey Hkne Hkd Hv Hvne Hstrip Hbrace.
  assert (forall d, scope = Some d -> Py.isdecimal d = true) as Hd.
  { by intros d ->. }
  split; [vm_compute; reflexivity|].
  split; apply parse_rep_frame; auto.
Qed.

Lemma direct_reply_braces_witness :
  P10t.parse_report_line "< REPORT DEVICE_NAME {Unit-A} >"
  = Some [("channel", NoneV); ("DEVICE_NAME", StrV "{Unit-A}")]
  /\ Ad4d.parse_report_line "< REP 1 CHAN_NAME {Lead Vox} >"
     = Some [("channel", IntV 1); ("CHAN_NAME", StrV "Lead Vox")]
  /\ Ad4d.parse_report_line "< REP 1 CHAN_NAME Lead Vox >"
     = Some [("channel", IntV 1); ("CHAN_NAME", StrV "Lead Vox")].
Proof.
  apply (direct_reply_braces (Some "1"%char) "CHAN_NAME" "Lead Vox");
    first [reflexivity | discriminate].
Defined.

(** ** The monitor's ingestion loops *)

(** C1.  A report line kills the passive loop: the three groups of the
    report pattern are passed to [handle_response] between [host],
    [redis_client] and [device_type], six arguments for four parameters,
    and the [TypeError] leaves [run_passive_monitor] with nothing written
    to the sink. *)
Theorem passive_report_line_escapes :
  Monitor.run_passive_monitor decode_ascii "rx1" "p10t"
    (listening ["< REPORT 1 FREQUENCY 518.475 >" +:+ Monitor.NL])
  = (inl (Exn TypeError
            "handle_response() takes 4 positional arguments but 6 were given"),
     World [] (Conn None [] []) []).
Proof. vm_compute. reflexivity. Qed.

(** C5.  A reply that follows a sample frame in one chunk never reaches
    the sink: [process_raw_data] returns after the sample.  Alone in its
    chunk the same reply is forwarded. *)
Theorem polling_sample_cuts_chunk :
  sink_writes
    (trace
       (snd (Monitor.process_raw_data decode_ascii
               "< SAMPLE 1 ALL 5 >< REP 1 FREQUENCY 518.475 >" "rx1" "ad4d"
               (listening []))))
  = [("rx1:channel:1", "CHANNEL_QUALITY", "5")]
  /\ sink_writes
       (trace
          (snd (Monitor.process_raw_data decode_ascii
                  "< REP 1 FREQUENCY 518.475 >" "rx1" "ad4d"
                  (listening []))))
     = [("rx1:channel:1", "FREQUENCY", "518.475")].
Proof. split; vm_compute; reflexivity. Qed.

(** ** Validation in front of the client *)

(** C2.  [--set --channel 1 --key RSSI --value 5] on the multi-channel
    client: [RSSI] is listed read-only, yet the command is sent. *)
Theorem ad4d_set_channel_read_only_connects :
  Ad4d.main decode_ascii plain_render plain_render plain_render
    (Args false (Some "rx1") 2202 false true (Some "1") (Some "RSSI")
       (Some "5") "text" false)
    (fresh [])
  = (inr tt,
     World [] (Conn None [] [])
       [Connect "rx1" 2202; Sent ("< SET 1 RSSI 5 >" +:+ CRLF); Closed]).
Proof. vm_compute. reflexivity. Qed.

(** ** The bulk merge, on examples *)

(** C6, as stated, fails: two replies for one address in the two orders
    give two snapshots, the later reply winning. *)
Lemma bulk_merge_order_matters :
  bulk_merge Ad4d.parse_report_line ["< REP MODEL a >"; "< REP MODEL b >"]
  = inr [(StrV "MODEL", Leaf (StrV "b"))]
  /\ bulk_merge Ad4d.parse_report_line ["< REP MODEL b >"; "< REP MODEL a >"]
     = inr [(StrV "MODEL", Leaf (StrV "a"))].
Proof. split; vm_compute; reflexivity. Qed.

(** C4, as stated, fails for the point-to-point client, which has no
    filter on the error marker: the error reply [< REP ERR >] ends up in
    the bulk snapshot, and a reply whose value is [ERR] is returned to the
    caller. *)
Lemma p10t_error_frame_surfaces :
  bulk_merge P10t.parse_report_line
    (P10t.reply_lines "< REP ERR >< REPORT 1 FREQUENCY 5 >")
  = inr [(StrV "<", Leaf (StrV "REP"));
         (IntV 1, Sub [("FREQUENCY", StrV "5")])]
  /\ fst (P10t.send_command decode_ascii plain_render plain_render
            plain_render "rx1" 2202 (Some "GET 1 CHAN_NAME")
            (Some "1 CHAN_NAME") "text" false
            (fresh ["< REPORT 1 CHAN_NAME ERR >" +:+ CRLF]))
     = inr (StrV "ERR").
Proof. split; vm_compute; reflexivity. Qed.

(** ** No data and transport errors *)

(** C8.  On the point-to-point client a stray frame whose key token is
    the word [channel] makes a [GET] for another key return the
    transport-error shape, and the very value a failed connection with an
    empty error text returns. *)
Theorem p10t_get_stray_frame_error :
  fst (P10t.send_command decode_ascii plain_render plain_render plain_render
         "rx1" 2202 (Some "GET 1 FREQUENCY") (Some "1 FREQUENCY") "text"
         false (fresh ["< REPORT channel x >" +:+ CRLF]))
  = inr (StrV "(error: )")
  /\ fst (P10t.send_command decode_ascii plain_render plain_render
            plain_render "rx1" 2202 (Some "GET 1 FREQUENCY")
            (Some "1 FREQUENCY") "text" false
            (World [Conn (Some (OSErr false EmptyString)) [] []] silent []))
     = inr (StrV "(error: )").
Proof. split; vm_compute; reflexivity. Qed.

(** ** What [except Exception] catches *)

Lemma catchable_ret {A} (a : A) : catchable (ret a).
Proof. by intros w. Qed.

Lemma catchable_lift {A} (r : exn + A) : caught r -> catchable (lift r).
Proof. by intros H w. Qed.

Lemma catchable_bind {A B} (m : M A) (f : A -> M B) :
  catchable m -> (forall a, catchable (f a)) -> catchable (bind m f).
Proof.
  intros Hm Hf w. unfold bind. specialize (Hm w).
  destruct (m w) as [[e|a] w']; [exact Hm | apply Hf].
Qed.

Lemma catchable_try_except {A} (m : M A) handles h :
  catchable m -> (forall e, catchable (h e)) ->
  catchable (try_except m handles h).
Proof.
  intros Hm Hh w. unfold try_except. specialize (Hm w).
  destruct (m w) as [[e|a] w']; [|done].
  destruct (handles e); [apply Hh | exact Hm].
Qed.

Lemma catchable_finally {A} (m : M A) f :
  catchable m -> catchable f -> catchable (finally m f).
Proof.
  intros Hm Hf w. unfold finally. specialize (Hm w).
  destruct (m w) as [r w']. specialize (Hf w').
  destruct (f w') as [[e|[]] w'']; [exact Hf | exact Hm].
Qed.

Lemma catchable_emit ev : catchable (emit ev).
Proof. by intros w. Qed.

Lemma catchable_for_each {A} (l : list A) body :
  (forall a, catchable (body a)) -> catchable (for_each l body).
Proof.
  intros Hb. induction l as [|a l IH]; [apply catchable_ret|].
  apply catchable_bind; [apply Hb | by intros _].
Qed.

Lemma exn_of_os_caught e : is_Exception (exn_of_os e) = true.
Proof. unfold exn_of_os, is_Exception. by destruct (timed_out e). Qed.

Lemma connect_error_class host port e :
  connect_error host port = Some e ->
  exn_cls e = UnicodeError \/ exn_cls e = OverflowError.
Proof.
  unfold connect_error. destruct (idna_error host); [intros [= <-]; by left|].
  destruct (_ || _); [intros [= <-]; by right|done].
Qed.

Lemma catchable_create_connection host port :
  catchable (create_connection host port).
Proof.
  intros w. unfold create_connection.
  destruct (connect_error host port) as [e|] eqn:He.
  { cbn. apply connect_error_class in He. unfold is_Exception.
    by destruct He as [-> | ->]. }
  destruct (pending w) as [|c rest]; [done|].
  destruct (on_connect c); [apply exn_of_os_caught | done].
Qed.

Lemma catchable_sendall payload : catchable (sendall payload).
Proof.
  intros w. unfold sendall.
  destruct (on_send (current w)) as [|[e|] rest];
    [done | apply exn_of_os_caught | done].
Qed.

Lemma drain_caught script chunks : caught (fst (drain script chunks)).
Proof.
  revert chunks.
  induction script as [|[e|b] rest IH]; intros chunks; simpl; [done| |].
  - destruct (is_timeout (exn_of_os e)); [done | apply exn_of_os_caught].
  - destruct (String.eqb b EmptyString); [done | apply IH].
Qed.

Lemma catchable_read_window : catchable read_window.
Proof.
  intros w. unfold read_window.
  pose proof (drain_caught (on_recv (current w)) []) as H.
  by destruct (drain _ _) as [r rest].
Qed.

Lemma catchable_with_connection {A} host port (body : M A) :
  catchable body -> catchable (with_connection host port body).
Proof.
  intros Hb. apply catchable_bind; [apply catchable_create_connection|].
  intros _. apply catchable_finally; [exact Hb | apply catchable_emit].
Qed.

Lemma sorted_atoms_caught l : caught (sorted_atoms l).
Proof.
  unfold sorted_atoms. destruct (Nat.leb _ _); [done|].
  by destruct (_ || _).
Qed.

Lemma py_int_caught s : caught (py_int s).
Proof. unfold py_int. repeat case_match; done. Qed.

Lemma int_atom_caught k : caught (int_atom k).
Proof. destruct k; simpl; [done | done | apply py_int_caught]. Qed.

Lemma map_err_caught {A B} (f : A -> exn + B) l :
  (forall a, caught (f a)) -> caught (map_err f l).
Proof.
  intros Hf. induction l as [|a l IH]; simpl; [done|].
  specialize (Hf a). destruct (f a) as [e|b]; [exact Hf|].
  destruct (map_err f l); [exact IH | done].
Qed.

Lemma sorted_by_int_caught l : caught (sorted_by_int l).
Proof.
  unfold sorted_by_int.
  match goal with
  | |- context [map_err ?f l] =>
      assert (caught (map_err f l)) as H;
      [apply map_err_caught | by destruct (map_err f l)]
  end.
  intros a. pose proof (int_atom_caught a). by destruct (int_atom a).
Qed.

Lemma format_output_caught j p r d fmt : caught (format_output j p r d fmt).
Proof.
  unfold format_output.
  destruct (String.eqb fmt "json"); [done|].
  destruct (String.eqb fmt "pretty"); [done|].
  destruct (String.eqb fmt "raw"); [done|].
  destruct d as [|kv d]; [done|].
  match goal with
  | |- context [sorted_atoms ?l] =>
      pose proof (sorted_atoms_caught l) as H1; destruct (sorted_atoms l)
  end; [exact H1|].
  match goal with
  | |- context [sorted_by_int ?l] =>
      pose proof (sorted_by_int_caught l) as H2; destruct (sorted_by_int l)
  end; [exact H2 | done].
Qed.

Lemma rendered_caught (r : exn + string) :
  caught r ->
  caught (match r with inl e => inl e | inr s => inr (StrV s) end).
Proof. by destruct r. Qed.

Lemma merge_entry_caught merged entry : caught (merge_entry merged entry).
Proof. unfold merge_entry. repeat case_match; done. Qed.

Lemma merge_entries_caught result :
  forall merged, caught (merge_entries merged result).
Proof.
  induction result as [|entry rest IH]; intros merged; simpl; [done|].
  pose proof (merge_entry_caught merged entry) as H.
  destruct (merge_entry merged entry); [exact H | apply IH].
Qed.

Lemma first_other_key_caught p : caught (first_other_key p).
Proof. unfold first_other_key. by case_match. Qed.

Lemma getitem_caught k p : caught (getitem k p).
Proof. unfold getitem. by case_match. Qed.

Lemma first_other_value_caught p : caught (P10t.first_other_value p).
Proof. unfold P10t.first_other_value. by case_match. Qed.

Lemma ad4d_find_reply_caught j p r command expect_key fmt bulk lines :
  caught (Ad4d.find_reply j p r command expect_key fmt bulk lines).
Proof.
  induction lines as [|line rest IH]; cbn [Ad4d.find_reply].
  - destruct (_ || _); [apply rendered_caught, format_output_caught | done].
  - destruct (Ad4d.parse_report_line line) as [[|kv q]|];
      [exact IH | | exact IH].
    pose proof (first_other_key_caught (kv :: q)) as Hk.
    destruct (first_other_key (kv :: q)) as [e|keyname]; [exact Hk|].
    cbv zeta.
    match goal with |- caught (if ?b then _ else _) => destruct b end;
      [|exact IH].
    match goal with |- caught (if ?b then _ else _) => destruct b end;
      [done|].
    destruct (_ || _);
      [apply rendered_caught, format_output_caught | apply getitem_caught].
Qed.

Lemma p10t_find_reply_caught j p r expect_key fmt bulk lines :
  caught (P10t.find_reply j p r expect_key fmt bulk lines).
Proof.
  induction lines as [|line rest IH]; cbn [P10t.find_reply].
  - destruct (_ || _); [apply rendered_caught, format_output_caught | done].
  - destruct (P10t.parse_report_line line) as [[|kv q]|];
      [exact IH | | exact IH].
    pose proof (getitem_caught "channel" (kv :: q)) as Hc.
    destruct (getitem "channel" (kv :: q)) as [e|channel]; [exact Hc|].
    pose proof (first_other_key_caught (kv :: q)) as Hk.
    destruct (first_other_key (kv :: q)) as [e|keyname]; [exact Hk|].
    cbv zeta.
    match goal with |- caught (if ?b then _ else _) => destruct b end;
      [|exact IH].
    destruct (_ || _);
      [apply rendered_caught, format_output_caught
      | apply first_other_value_caught].
Qed.

Lemma ad4d_resolve_caught j p r command expect_key fmt bulk raw :
  caught (Ad4d.resolve j p r command expect_key fmt bulk raw).
Proof.
  unfold Ad4d.resolve. cbv zeta. destruct bulk.
  - unfold bulk_merge.
    match goal with
    | |- context [merge_entries ?m ?l] =>
        pose proof (merge_entries_caught l m) as H;
        destruct (merge_entries m l)
    end; [exact H | apply rendered_caught, format_output_caught].
  - apply ad4d_find_reply_caught.
Qed.

Lemma p10t_resolve_caught j p r expect_key fmt bulk raw :
  caught (P10t.resolve j p r expect_key fmt bulk raw).
Proof.
  unfold P10t.resolve. cbv zeta. destruct bulk.
  - unfold bulk_merge.
    match goal with
    | |- context [merge_entries ?m ?l] =>
        pose proof (merge_entries_caught l m) as H;
        destruct (merge_entries m l)
    end; [exact H | apply rendered_caught, format_output_caught].
  - apply p10t_find_reply_caught.
Qed.

Lemma ad4d_body_catchable d j p r host port command expect_key fmt bulk :
  catchable
    (Ad4d.send_command_body d j p r host port command expect_key fmt bulk).
Proof.
  apply catchable_with_connection, catchable_bind.
  - destruct bulk; [apply catchable_for_each; intros cmd|];
      apply catchable_sendall.
  - intros _. apply catchable_bind; [apply catchable_read_window|].
    intros chunks. apply catchable_lift, ad4d_resolve_caught.
Qed.

Lemma p10t_body_catchable d j p r host port command expect_key fmt bulk :
  catchable
    (P10t.send_command_body d j p r host port command expect_key fmt bulk).
Proof.
  apply catchable_with_connection, catchable_bind.
  - destruct bulk; [apply catchable_for_each; intros cmd|];
      apply catchable_sendall.
  - intros _. apply catchable_try_except; [|intros e; apply catchable_ret].
    apply catchable_bind; [apply catchable_read_window|].
    intros chunks. apply catchable_lift, p10t_resolve_caught.
Qed.

(** A body that raises only what [except Exception] catches always gives
    a value under that handler, and an exception it raises becomes the
    text [(error: ...)]. *)
Lemma guarded_total (body : M atom) w :
  catchable body ->
  let guarded :=
    try_except body is_Exception
      (fun e => ret (StrV ("(error: " +:+ exn_msg e +:+ ")"))) in
  (exists v w', guarded w = (inr v, w'))
  /\ (forall e w', body w = (inl e, w') ->
      guarded w = (inr (StrV ("(error: " +:+ exn_msg e +:+ ")")), w'))
  /\ (forall v w', body w = (inr v, w') -> guarded w = (inr v, w')).
Proof.
  intros Hb guarded. subst guarded. unfold try_except.
  specialize (Hb w). destruct (body w) as [[e|v] w0]; simpl in Hb.
  - rewrite Hb. split; [by eexists _, _|].
    split; [by intros e' w' [= <- <-] | by intros v w' [=]].
  - split; [by eexists _, _|].
    split; [by intros e' w' [=] | by intros v' w' [= <- <-]].
Qed.

(** Totality of [send_command] (the subject of C10).  [send_command] of
    either client is total: whatever the
    arguments, the peer's behaviour and the library's renderers, it
    returns a value, and an exception raised inside (by the socket at
    connect, send or receive, or by the decoding of the replies) comes
    back as the string [(error: <text of the exception>)]. *)
Theorem send_command_total (decode : string -> string)
    (json_dumps pformat repr : data -> string) (host : string) (port : Z)
    (command expect_key : option string) (output_format : string)
    (bulk : bool) (w : world) :
  (exists v w',
      Ad4d.send_command decode json_dumps pformat repr host port command
        expect_key output_format bulk w = (inr v, w'))
  /\ (exists v w',
         P10t.send_command decode json_dumps pformat repr host port command
           expect_key output_format bulk w = (inr v, w'))
  /\ (forall e w',
         Ad4d.send_command_body decode json_dumps pformat repr host port
           command expect_key output_format bulk w = (inl e, w') ->
         Ad4d.send_command decode json_dumps pformat repr host port command
           expect_key output_format bulk w
         = (inr (StrV ("(error: " +:+ exn_msg e +:+ ")")), w'))
  /\ (forall e w',
         P10t.send_command_body decode json_dumps pformat repr host port
           command expect_key output_format bulk w = (inl e, w') ->
         P10t.send_command decode json_dumps pformat repr host port command
           expect_key output_format bulk w
         = (inr (StrV ("(error: " +:+ exn_msg e +:+ ")")), w')).
Proof.
  pose proof (guarded_total _ w
                (ad4d_body_catchable decode json_dumps pformat repr host port
                   command expect_key output_format bulk)) as (Ha & Hae & _).
  pose proof (guarded_total _ w
                (p10t_body_catchable decode json_dumps pformat repr host port
                   command expect_key output_format bulk)) as (Hp & Hpe & _).
  repeat split; assumption.
Qed.

(** ** Cutting a stream at its separators *)

Lemma split_go_cons sep n s : exists p ps, Py.split_go sep n s = p :: ps.
Proof.
  revert n. induction s as [|c s IH]; intros n; [by eexists _, _|].
  cbn [Py.split_go]. destruct n as [|n]; [|apply IH].
  destruct (String.prefix sep (String c s)); [by eexists _, _|].
  destruct (IH 0) as (p & ps & ->). by eexists _, _.
Qed.

Lemma prefix_app p t : String.prefix p (p +:+ t) = true.
Proof.
  induction p as [|a p IH]; [by destruct t|].
  rewrite str_app_cons. cbn [String.prefix].
  by destruct (ascii_dec a a).
Qed.

Lemma prefix_cut p s :
  String.prefix p s = true -> exists t, s = p +:+ t.
Proof.
  revert s. induction p as [|a p IH]; intros s H.
  - exists s. by rewrite str_app_nil_l.
  - destruct s as [|b s]; [discriminate H|].
    cbn [String.prefix] in H. destruct (ascii_dec a b) as [->|]; [|discriminate H].
    destruct (IH _ H) as [t ->]. exists t. by rewrite str_app_cons.
Qed.

Lemma split_go_skip sep u t :
  Py.split_go sep (String.length u) (u +:+ t) = Py.split_go sep 0 t.
Proof.
  induction u as [|c u IH]; [by rewrite str_app_nil_l|].
  rewrite str_app_cons. exact IH.
Qed.

Lemma split_at_sep a sep t :
  Py.split (String a sep) (String a sep +:+ t)
  = EmptyString :: Py.split (String a sep) t.
Proof.
  unfold Py.split. pose proof (prefix_app (String a sep) t) as H.
  rewrite str_app_cons in *. cbn [Py.split_go]. rewrite H.
  f_equal.
  replace (String.length (String a sep) - 1) with (String.length sep)
    by (cbn [String.length]; lia).
  apply split_go_skip.
Qed.

Lemma split_step sep c s :
  String.prefix sep (String c s) = false ->
  Py.split sep (String c s)
  = match Py.split sep s with
    | p :: ps => String c p :: ps
    | [] => [String c EmptyString]
    end.
Proof. intros H. unfold Py.split. cbn [Py.split_go]. by rewrite H. Qed.

Lemma split_whole sep s :
  Py.contains sep s = false -> Py.split sep s = [s].
Proof.
  induction s as [|c s IH]; intros H; [done|].
  cbn [Py.contains] in H. apply orb_false_elim in H as [Hp Hc].
  rewrite (split_step _ _ _ Hp), (IH Hc). done.
Qed.

(** No occurrence of [< REP ] overlaps another: one that starts inside
    [a] and is not inside it would. *)
Lemma rep_sep_border a t :
  a <> EmptyString ->
  String.prefix "< REP " a = false ->
  String.prefix "< REP " (a +:+ "< REP " +:+ t) = false.
Proof.
  intros Hne H.
  destruct a as [|c1 [|c2 [|c3 [|c4 [|c5 [|c6 a]]]]]]; [done|..];
    rewrite ?str_app_cons, ?str_app_nil_l in *;
    cbn [String.prefix] in *;
    repeat (case_match; try done; simplify_eq).
  by destruct a.
Qed.

Lemma split_app_sep pre t :
  Py.split "< REP " (pre +:+ "< REP " +:+ t)
  = Py.split "< REP " pre ++ Py.split "< REP " t.
Proof.
  remember (String.length pre) as n eqn:Hn. revert pre Hn.
  induction n as [n IH] using lt_wf_ind. intros pre ->.
  destruct pre as [|c pre].
  { rewrite str_app_nil_l. apply (split_at_sep "<" " REP "). }
  destruct (String.prefix "< REP " (String c pre)) eqn:Hp.
  - destruct (prefix_cut _ _ Hp) as [rest Hrest]. rewrite Hrest.
    rewrite str_app_assoc.
    rewrite (split_at_sep "<" " REP " rest).
    rewrite (split_at_sep "<" " REP " (rest +:+ "< REP " +:+ t)).
    rewrite (IH (String.length rest)); [done| |done].
    rewrite Hrest, str_length_app. cbn. lia.
  - rewrite (split_step _ _ _ Hp).
    pose proof (rep_sep_border (String c pre) t) as Hb.
    rewrite str_app_cons in *.
    rewrite split_step; [|by apply Hb].
    rewrite (IH (String.length pre)); [|cbn; lia|done].
    destruct (split_go_cons "< REP " 0 pre) as (p & ps & Hs).
    unfold Py.split at 1 3. by rewrite Hs.
Qed.

(** A reply that carries the error marker never reaches the scan or the
    merge of the multi-channel client: the text drained from the socket
    resolves to what it resolves to without that reply, whether other
    replies follow it or not. *)
Theorem ad4d_error_frame_dropped (json_dumps pformat repr : data -> string)
    (command expect_key : option string) (output_format : string)
    (bulk : bool) (pre body post : string) :
  Py.contains "ERR" body = true ->
  Py.contains "< REP " body = false ->
  Ad4d.resolve json_dumps pformat repr command expect_key output_format bulk
    (pre +:+ "< REP " +:+ body +:+ "< REP " +:+ post)
  = Ad4d.resolve json_dumps pformat repr command expect_key output_format
      bulk (pre +:+ "< REP " +:+ post)
  /\ Ad4d.resolve json_dumps pformat repr command expect_key output_format
       bulk (pre +:+ "< REP " +:+ body)
     = Ad4d.resolve json_dumps pformat repr command expect_key output_format
         bulk pre.
Proof.
  intros Herr Hone.
  assert (Ad4d.reply_lines (pre +:+ "< REP " +:+ body +:+ "< REP " +:+ post)
          = Ad4d.reply_lines (pre +:+ "< REP " +:+ post)) as H1.
  { unfold Ad4d.reply_lines.
    rewrite !split_app_sep, (split_whole _ _ Hone), !filter_app.
    by rewrite filter_cons_False;
      [|rewrite Herr, andb_false_r; intros []]. }
  assert (Ad4d.reply_lines (pre +:+ "< REP " +:+ body)
          = Ad4d.reply_lines pre) as H2.
  { unfold Ad4d.reply_lines.
    rewrite !split_app_sep, (split_whole _ _ Hone), !filter_app.
    rewrite filter_cons_False;
      [|rewrite Herr, andb_false_r; intros []].
    by rewrite filter_nil, app_nil_r. }
  unfold Ad4d.resolve. cbv zeta. by rewrite H1, H2.
Qed.

Lemma ad4d_error_frame_dropped_witness :
  Ad4d.resolve plain_render plain_render plain_render (Some "GET 1 FREQUENCY")
    (Some "1 FREQUENCY") "text" false
    ("" +:+ "< REP " +:+ "ERR >" +:+ "< REP " +:+ "1 FREQUENCY 5 >")
  = Ad4d.resolve plain_render plain_render plain_render
      (Some "GET 1 FREQUENCY") (Some "1 FREQUENCY") "text" false
      ("" +:+ "< REP " +:+ "1 FREQUENCY 5 >")
  /\ Ad4d.resolve plain_render plain_render plain_render
       (Some "GET 1 FREQUENCY") (Some "1 FREQUENCY") "text" false
       ("" +:+ "< REP " +:+ "ERR >")
     = Ad4d.resolve plain_render plain_render plain_render
         (Some "GET 1 FREQUENCY") (Some "1 FREQUENCY") "text" false "".
Proof.
  apply (ad4d_error_frame_dropped plain_render plain_render plain_render
           (Some "GET 1 FREQUENCY") (Some "1 FREQUENCY") "text" false
           "" "ERR >" "1 FREQUENCY 5 >"); reflexivity.
Defined.

(** ** The bulk merge *)

Section DictMap.
Context `{Countable K} {V : Type}.
Implicit Types d : Dict.t K V.

Lemma dict_get_lookup k d : Dict.get k d = (list_to_map d : gmap K V) !! k.
Proof.
  induction d as [|[k' v'] d IH]; [done|].
  cbn [Dict.get]. rewrite list_to_map_cons.
  destruct (decide (k = k')) as [->|Hne].
  - by rewrite lookup_insert_eq.
  - by rewrite lookup_insert_ne.
Qed.

Lemma dict_set_insert k v d :
  (list_to_map (Dict.set k v d) : gmap K V) = <[k := v]> (list_to_map d).
Proof.
  induction d as [|[k' v'] d IH]; [done|].
  cbn [Dict.set]. destruct (decide (k = k')) as [->|Hne].
  - by rewrite !list_to_map_cons, insert_insert_eq.
  - rewrite !list_to_map_cons, IH. by apply insert_insert_ne.
Qed.

End DictMap.

Lemma snapshot_lookup k d : snapshot d !! k = sval_of <$> Dict.get k d.
Proof. unfold snapshot. by rewrite lookup_fmap, dict_get_lookup. Qed.

Lemma snapshot_set k v d :
  snapshot (Dict.set k v d) = <[k := sval_of v]> (snapshot d).
Proof. unfold snapshot. by rewrite dict_set_insert, fmap_insert. Qed.

Lemma reply_entry_shape e :
  reply_entry e = true ->
  exists ch key v,
    e = [("channel", ch); (key, v)] /\ key <> "channel" /\ is_str ch = false.
Proof.
  destruct e as [|[c ch] [|[key v] [|]]]; try done.
  cbn [reply_entry]. intros H.
  apply andb_prop in H as [H Hs]. apply andb_prop in H as [Hc Hk].
  apply String.eqb_eq in Hc as ->.
  exists ch, key, v. split; [done|]. split.
  - intros ->. by rewrite String.eqb_refl in Hk.
  - by destruct (is_str ch).
Qed.

Lemma merge_entry_put d e :
  reply_entry e = true -> tidy (snapshot d) ->
  exists d', merge_entry d e = inr d' /\ snapshot d' = put e (snapshot d).
Proof.
  intros He Ht.
  destruct (reply_entry_shape _ He) as (ch & key & v & -> & Hk & Hs).
  unfold merge_entry. cbn [Dict.get]. rewrite decide_True by done.
  cbn [Dict.remove]. rewrite decide_True by done.
  destruct ch as [|n|s]; [| |done].
  - eexists. split; [done|]. unfold Dict.update, data_of_parsed.
    cbn [map fold_left fst snd put]. by rewrite snapshot_set.
  - cbn [put]. unfold Dict.mem.
    pose proof (snapshot_lookup (IntV n) d) as Hl.
    destruct (Dict.get (IntV n) d) as [[a|s]|] eqn:Hg.
    + by destruct (Ht n a).
    + rewrite Hg. eexists. split; [done|].
      rewrite snapshot_set, Hl. unfold Dict.update.
      cbn [fold_left fst snd sval_of fmap option_fmap option_map chan_of].
      by rewrite dict_set_insert.
    + rewrite dict_get_lookup, dict_set_insert, lookup_insert_eq.
      eexists. split; [done|].
      rewrite !snapshot_set, insert_insert_eq, Hl. done.
Qed.

Lemma tidy_put e m : reply_entry e = true -> tidy m -> tidy (put e m).
Proof.
  intros He Ht n a.
  destruct (reply_entry_shape _ He) as (ch & key & v & -> & Hk & Hs).
  destruct ch as [|n'|s]; [| |done]; cbn [put].
  - rewrite lookup_insert_ne by done. apply Ht.
  - destruct (decide (n' = n)) as [->|Hne].
    + by rewrite lookup_insert_eq.
    + rewrite lookup_insert_ne by congruence. apply Ht.
Qed.

Lemma tidy_empty : tidy (snapshot []).
Proof.
  intros n v. unfold snapshot.
  by rewrite list_to_map_nil, fmap_empty, lookup_empty.
Qed.

Lemma merge_entries_put l :
  forall d,
    forallb reply_entry l = true -> tidy (snapshot d) ->
    exists d',
      merge_entries d l = inr d'
      /\ snapshot d' = fold_left (fun m e => put e m) l (snapshot d).
Proof.
  induction l as [|e l IH]; intros d Hl Ht; [by eexists|].
  cbn [forallb] in Hl. apply andb_prop in Hl as [He Hl].
  destruct (merge_entry_put d e He Ht) as (d1 & Hm & Hs).
  cbn [merge_entries fold_left]. rewrite Hm, <- Hs.
  apply IH; [done|]. rewrite Hs. by apply tidy_put.
Qed.

Lemma agree_cases ch1 k1 v1 ch2 k2 v2 c1 c2 :
  agree [(c1, ch1); (k1, v1)] [(c2, ch2); (k2, v2)] = true ->
  ch1 = ch2 -> k1 = k2 -> v1 = v2.
Proof.
  unfold agree. cbn [address reading]. intros H -> ->.
  rewrite bool_decide_eq_true_2 in H by done.
  apply bool_decide_eq_true_1 in H. congruence.
Qed.

Lemma put_comm e1 e2 m :
  reply_entry e1 = true -> reply_entry e2 = true -> agree e1 e2 = true ->
  put e1 (put e2 m) = put e2 (put e1 m).
Proof.
  intros H1 H2 Ha.
  destruct (reply_entry_shape _ H1) as (ch1 & k1 & v1 & -> & _ & Hs1).
  destruct (reply_entry_shape _ H2) as (ch2 & k2 & v2 & -> & _ & Hs2).
  pose proof (agree_cases _ _ _ _ _ _ _ _ Ha) as Hv.
  destruct ch1 as [|n1|s1], ch2 as [|n2|s2]; try done; cbn [put].
  - destruct (decide (k1 = k2)) as [->|Hne].
    + by rewrite Hv.
    + apply insert_insert_ne. congruence.
  - rewrite lookup_insert_ne by done. by apply insert_insert_ne.
  - rewrite lookup_insert_ne by done. by apply insert_insert_ne.
  - destruct (decide (n1 = n2)) as [->|Hne].
    + rewrite !lookup_insert_eq, !insert_insert_eq. cbn [chan_of].
      do 2 f_equal.
      destruct (decide (k1 = k2)) as [->|Hk].
      * by rewrite Hv.
      * by apply insert_insert_ne.
    + rewrite !lookup_insert_ne by congruence.
      apply insert_insert_ne. congruence.
Qed.

Lemma put_other e m ch key :
  reply_entry e = true -> address e <> Some (ch, key) ->
  snapshot_at (put e m) ch key = snapshot_at m ch key.
Proof.
  intros He Ha.
  destruct (reply_entry_shape _ He) as (ch' & k & v & -> & _ & Hs).
  cbn [address] in Ha.
  destruct ch' as [|n'|s'], ch as [|n|s]; try done; cbn [put snapshot_at].
  - rewrite lookup_insert_ne; [done|]. congruence.
  - by rewrite lookup_insert_ne.
  - by rewrite lookup_insert_ne.
  - destruct (decide (n' = n)) as [->|Hne].
    + rewrite lookup_insert_eq, lookup_insert_ne by congruence.
      by destruct (m !! IntV n) as [[|]|].
    + rewrite lookup_insert_ne by congruence. done.
Qed.

Lemma put_same e m ch key :
  reply_entry e = true -> address e = Some (ch, key) ->
  snapshot_at (put e m) ch key = reading e.
Proof.
  intros He Ha.
  destruct (reply_entry_shape _ He) as (ch' & k & v & -> & _ & Hs).
  cbn [address] in Ha. injection Ha as -> ->.
  destruct ch as [|n|s]; [| |done]; cbn [put snapshot_at reading].
  - by rewrite lookup_insert_eq.
  - by rewrite !lookup_insert_eq.
Qed.

Lemma fold_put_at l ch key :
  forall m acc,
    forallb reply_entry l = true ->
    snapshot_at m ch key = acc ->
    snapshot_at (fold_left (fun m e => put e m) l m) ch key
    = fold_left
        (fun acc e =>
           if bool_decide (address e = Some (ch, key)) then reading e
           else acc)
        l acc.
Proof.
  induction l as [|e l IH]; intros m acc Hl Hm; [done|].
  cbn [forallb] in Hl. apply andb_prop in Hl as [He Hl].
  cbn [fold_left]. apply IH; [done|].
  case_bool_decide as Ha.
  - by apply put_same.
  - by rewrite put_other.
Qed.

(** The bulk merge never fails on decoded replies, and in its result
    every address holds the value of the last reply for it; an address
    that no reply names is not bound at all. *)
Theorem bulk_merge_last_wins (l : list parsed) :
  forallb reply_entry l = true ->
  exists d,
    merge_entries [] l = inr d
    /\ (forall ch key, snapshot_at (snapshot d) ch key = latest l ch key)
    /\ (forall ch key,
          (forall e, In e l -> address e <> Some (ch, key)) ->
          snapshot_at (snapshot d) ch key = None).
Proof.
  intros Hl.
  destruct (merge_entries_put l [] Hl tidy_empty) as (d & Hm & Hs).
  exists d. split; [done|].
  assert (forall ch key, snapshot_at (snapshot d) ch key = latest l ch key)
    as Hat.
  { intros ch key. rewrite Hs. apply fold_put_at; [done|].
    unfold snapshot. rewrite list_to_map_nil, fmap_empty.
    destruct ch; cbn [snapshot_at]; by rewrite ?lookup_empty. }
  split; [done|].
  intros ch key Habs. rewrite Hat. unfold latest.
  assert (forall acc,
            fold_left
              (fun acc e =>
                 if bool_decide (address e = Some (ch, key)) then reading e
                 else acc) l acc = acc) as Hfold; [|apply Hfold].
  clear -Habs. induction l as [|e l IH]; intros acc; [done|].
  cbn [fold_left]. rewrite bool_decide_eq_false_2.
  - apply IH. intros e' He'. apply Habs. by right.
  - apply Habs. by left.
Qed.

Lemma bulk_merge_last_wins_witness :
  exists d,
    merge_entries []
      [[("channel", IntV 1); ("FREQUENCY", StrV "5")];
       [("channel", NoneV); ("MODEL", StrV "a")];
       [("channel", IntV 1); ("FREQUENCY", StrV "6")]] = inr d
    /\ (forall ch key,
          snapshot_at (snapshot d) ch key
          = latest
              [[("channel", IntV 1); ("FREQUENCY", StrV "5")];
               [("channel", NoneV); ("MODEL", StrV "a")];
               [("channel", IntV 1); ("FREQUENCY", StrV "6")]] ch key)
    /\ (forall ch key,
          (forall e,
              In e [[("channel", IntV 1); ("FREQUENCY", StrV "5")];
                    [("channel", NoneV); ("MODEL", StrV "a")];
                    [("channel", IntV 1); ("FREQUENCY", StrV "6")]] ->
              address e <> Some (ch, key)) ->
          snapshot_at (snapshot d) ch key = None).
Proof.
  apply (bulk_merge_last_wins
           [[("channel", IntV 1); ("FREQUENCY", StrV "5")];
            [("channel", NoneV); ("MODEL", StrV "a")];
            [("channel", IntV 1); ("FREQUENCY", StrV "6")]]).
  reflexivity.
Defined.

Lemma forallb_perm {A} (f : A -> bool) l1 l2 :
  l1 ≡ₚ l2 -> forallb f l1 = true -> forallb f l2 = true.
Proof.
  intros Hp H. apply forallb_forall. intros x Hx.
  rewrite forallb_forall in H. apply H.
  by apply (Permutation_in _ (Permutation_sym Hp)).
Qed.

(** Replies that agree two by two merge to the same dictionary in every
    arrival order. *)
Theorem bulk_merge_permutation (l1 l2 : list parsed) :
  forallb reply_entry l1 = true -> consistent l1 = true -> l1 ≡ₚ l2 ->
  exists d1 d2,
    merge_entries [] l1 = inr d1 /\ merge_entries [] l2 = inr d2
    /\ snapshot d1 = snapshot d2.
Proof.
  intros Hl Hc Hp.
  destruct (merge_entries_put l1 [] Hl tidy_empty) as (d1 & Hm1 & Hs1).
  destruct (merge_entries_put l2 [] (forallb_perm _ _ _ Hp Hl) tidy_empty)
    as (d2 & Hm2 & Hs2).
  exists d1, d2. split; [done|]. split; [done|].
  rewrite Hs1, Hs2, <- !(fold_left_rev_right put).
  apply (foldr_permutation eq put).
  - by intros e m1 m2 ->.
  - intros j1 e1 j2 e2 m _ H1 H2.
    apply list_elem_of_lookup_2, list_elem_of_In, in_rev in H1, H2.
    unfold consistent in Hc. rewrite forallb_forall in Hc, Hl.
    specialize (Hc _ H1). rewrite forallb_forall in Hc.
    apply put_comm; auto.
  - by rewrite <- !Permutation_rev.
Qed.

Lemma bulk_merge_permutation_witness :
  exists d1 d2,
    merge_entries []
      [[("channel", IntV 1); ("FREQUENCY", StrV "5")];
       [("channel", NoneV); ("MODEL", StrV "a")]] = inr d1
    /\ merge_entries []
         [[("channel", NoneV); ("MODEL", StrV "a")];
          [("channel", IntV 1); ("FREQUENCY", StrV "5")]] = inr d2
    /\ snapshot d1 = snapshot d2.
Proof.
  apply (bulk_merge_permutation
           [[("channel", IntV 1); ("FREQUENCY", StrV "5")];
            [("channel", NoneV); ("MODEL", StrV "a")]]
           [[("channel", NoneV); ("MODEL", StrV "a")];
            [("channel", IntV 1); ("FREQUENCY", StrV "5")]]);
    [reflexivity | vm_compute; reflexivity | apply perm_swap].
Defined.

(** ** The line buffer of the passive monitor *)

Lemma prefix_nil s : String.prefix EmptyString s = true.
Proof. by destruct s. Qed.

Lemma one_line_cons c l :
  one_line (String c l) = negb (Ascii.eqb c "010"%char) && one_line l.
Proof.
  unfold one_line, Monitor.NL. cbn [Py.contains String.prefix].
  rewrite prefix_nil.
  destruct (ascii_dec "010" c) as [<-|Hne]; [done|].
  destruct (Ascii.eqb_spec c "010"%char) as [->|]; done.
Qed.

(** Cutting a buffer loses nothing: the lines, each with its newline,
    followed by what stays buffered, are the buffer; no line and no rest
    holds a newline. *)
Theorem cut_lines_unlines (buffer : string) :
  unlines (fst (Monitor.cut_lines buffer)) (snd (Monitor.cut_lines buffer))
  = buffer
  /\ forallb one_line (fst (Monitor.cut_lines buffer)) = true
  /\ one_line (snd (Monitor.cut_lines buffer)) = true.
Proof.
  induction buffer as [|c rest (IH1 & IH2 & IH3)]; [done|].
  cbn [Monitor.cut_lines].
  destruct (Monitor.cut_lines rest) as [lines tail]. cbn [fst snd] in *.
  destruct (Ascii.eqb_spec c "010"%char) as [->|Hc].
  - cbn [fst snd unlines fold_right forallb]. split; [|by split].
    fold (unlines lines tail). by rewrite IH1.
  - assert (Ascii.eqb c "010"%char = false) as Hc'
        by by apply Ascii.eqb_neq.
    destruct lines as [|l ls]; cbn [fst snd unlines fold_right forallb] in *.
    + rewrite <- IH1. split; [done|]. split; [done|].
      by rewrite one_line_cons, Hc', IH3.
    + rewrite <- IH1. split; [by rewrite str_app_cons|].
      apply andb_prop in IH2 as [Hl Hls].
      by rewrite one_line_cons, Hc', Hl, Hls.
Qed.

(** A line that arrives in two reads is put together: cutting [a +:+ b]
    gives the lines of [a], then the lines of what [a] left buffered
    followed by [b]. *)
Lemma cut_lines_app a b :
  Monitor.cut_lines (a +:+ b)
  = (fst (Monitor.cut_lines a)
       ++ fst (Monitor.cut_lines (snd (Monitor.cut_lines a) +:+ b)),
     snd (Monitor.cut_lines (snd (Monitor.cut_lines a) +:+ b))).
Proof.
  induction a as [|c a IH].
  - rewrite str_app_nil_l. cbn. rewrite str_app_nil_l.
    by destruct (Monitor.cut_lines b).
  - rewrite str_app_cons. cbn [Monitor.cut_lines]. rewrite IH.
    destruct (Monitor.cut_lines a) as [l1 t1]. cbn [fst snd].
    destruct (Ascii.eqb c "010"%char) eqn:Hc; [done|].
    destruct l1 as [|l ls]; cbn [fst snd app].
    + rewrite str_app_cons. cbn [Monitor.cut_lines]. rewrite Hc.
      destruct (Monitor.cut_lines (t1 +:+ b)) as [[|l2 ls2] t2]; done.
    + done.
Qed.

Lemma for_each_app {A} (l1 l2 : list A) (body : A -> M unit) w :
  for_each (l1 ++ l2) body w
  = (run for_each l1 body; for_each l2 body) w.
Proof.
  revert w. induction l1 as [|a l1 IH]; intros w; [done|].
  cbn [app for_each]. unfold bind.
  destruct (body a w) as [[e|[]] w1]; [done|].
  rewrite IH. unfold bind. done.
Qed.

(** The passive loop does not depend on how the stream is cut into
    reads: two reads in a row act as the one read of their bytes. *)
Theorem passive_loop_chunking (decode : string -> string)
    (host device_type : string) (c1 c2 : string)
    (rest : list (oserror + string)) (buffer : string) (w : world) :
  c1 <> EmptyString -> c2 <> EmptyString ->
  Monitor.passive_loop decode host device_type (inr c1 :: inr c2 :: rest)
    buffer w
  = Monitor.passive_loop decode host device_type (inr (c1 +:+ c2) :: rest)
      buffer w.
Proof.
  intros H1 H2. cbn [Monitor.passive_loop].
  assert (forall s, s <> EmptyString -> String.eqb s EmptyString = false)
    as Hne by (intros s Hs; by apply String.eqb_neq).
  rewrite (Hne _ H1), (Hne _ H2), (Hne (c1 +:+ c2)) by by destruct c1.
  rewrite <- (str_app_assoc buffer c1 c2), (cut_lines_app (buffer +:+ c1) c2).
  destruct (Monitor.cut_lines (buffer +:+ c1)) as [l1 t1]. cbn [fst snd].
  destruct (Monitor.cut_lines (t1 +:+ c2)) as [l2 t2]. cbn [fst snd].
  unfold bind at 1 3. rewrite for_each_app. unfold bind at 2.
  destruct (for_each l1 _ w) as [[e|[]] w1]; [done|].
  unfold bind. done.
Qed.

Lemma passive_loop_chunking_witness :
  Monitor.passive_loop decode_ascii "rx1" "p10t"
    [inr "< SAMPLE 1 A"; inr ("LL 5 >" +:+ Monitor.NL)] EmptyString
    (listening [])
  = Monitor.passive_loop decode_ascii "rx1" "p10t"
      [inr ("< SAMPLE 1 A" +:+ ("LL 5 >" +:+ Monitor.NL))] EmptyString
      (listening []).
Proof.
  apply (passive_loop_chunking decode_ascii "rx1" "p10t" "< SAMPLE 1 A"
           ("LL 5 >" +:+ Monitor.NL) [] EmptyString (listening []));
    discriminate.
Defined.

(** ** One call, one connection *)

Lemma quiet_ret {A} (a : A) : quiet (ret a).
Proof. by intros w. Qed.

Lemma quiet_lift {A} (r : exn + A) : quiet (lift r).
Proof. by intros w. Qed.

Lemma quiet_bind {A B} (m : M A) (f : A -> M B) :
  quiet m -> (forall a, quiet (f a)) -> quiet (bind m f).
Proof.
  intros Hm Hf w. unfold bind. specialize (Hm w).
  destruct (m w) as [[e|a] w1]; [exact Hm|].
  rewrite Hf. exact Hm.
Qed.

Lemma quiet_try_except {A} (m : M A) handles h :
  quiet m -> (forall e, quiet (h e)) -> quiet (try_except m handles h).
Proof.
  intros Hm Hh w. unfold try_except. specialize (Hm w).
  destruct (m w) as [[e|a] w1]; [|exact Hm].
  destruct (handles e); [|exact Hm]. rewrite Hh. exact Hm.
Qed.

Lemma quiet_read_window : quiet read_window.
Proof. intros w. unfold read_window. by destruct (drain _ _). Qed.

Lemma sendall_trace payload w :
  trace (snd (sendall payload w)) = trace w ++ [Sent payload].
Proof.
  unfold sendall. by destruct (on_send (current w)) as [|[e|] rest].
Qed.

Lemma for_each_sendall_trace (cmds : list string) :
  forall w,
    trace (snd (for_each cmds
                  (fun cmd => sendall ("< " +:+ cmd +:+ " >" +:+ CRLF)) w))
    = trace w ++ wire (written (on_send (current w)) cmds).
Proof.
  induction cmds as [|cmd cmds IH]; intros w.
  - cbn [for_each written wire map]. unfold ret. cbn [snd].
    by rewrite app_nil_r.
  - cbn [for_each written]. unfold bind, sendall.
    destruct (on_send (current w)) as [|[e|] rest] eqn:Hs; cbn [snd].
    + rewrite IH. cbn [current trace]. rewrite Hs, <- app_assoc.
      by destruct cmds.
    + done.
    + rewrite IH. cbn [current trace on_send]. by rewrite <- app_assoc.
Qed.

(** The body run under an open connection: the commands, or the first
    of them up to a failed write, and nothing else. *)
Lemma exchange_trace {A} (command : option string) (bulk : bool)
    (cmds : list string) (after : M A) w :
  quiet after ->
  trace
    (snd ((run (if bulk
                then for_each cmds
                       (fun cmd =>
                          sendall ("< " +:+ cmd +:+ " >" +:+ CRLF))
                else sendall ("< " +:+ str_opt command +:+ " >" +:+ CRLF));
           after) w))
  = trace w
    ++ wire (written (on_send (current w))
               (if bulk then cmds else [str_opt command])).
Proof.
  intros Hq. unfold bind. destruct bulk.
  - pose proof (for_each_sendall_trace cmds w) as Ht.
    destruct (for_each _ _ w) as [[e|[]] w1]; cbn [snd] in *; [done|].
    by rewrite Hq.
  - pose proof (sendall_trace ("< " +:+ str_opt command +:+ " >" +:+ CRLF) w)
      as Hs.
    assert (written (on_send (current w)) [str_opt command]
            = [str_opt command]) as ->.
    { cbn. by destruct (on_send (current w)) as [|[e|] rest]. }
    destruct (sendall _ w) as [[e|[]] w1]; cbn [snd] in *; [done|].
    by rewrite Hq.
Qed.

Lemma with_connection_trace {A} host port (body : M A) w :
  match opened host port w with
  | Some c =>
      exists w1,
        trace w1 = trace w ++ [Connect host port] /\ current w1 = c
        /\ trace (snd (with_connection host port body w))
           = trace (snd (body w1)) ++ [Closed]
  | None =>
      trace (snd (with_connection host port body w))
      = trace w ++ [Connect host port]
  end.
Proof.
  unfold with_connection, bind, create_connection, opened.
  destruct (connect_error host port); [done|].
  destruct (pending w) as [|c rest]; [done|].
  destruct (on_connect c); [done|].
  exists (World rest c (trace w ++ [Connect host port])).
  split; [done|]. split; [done|]. unfold finally.
  by destruct (body _) as [r w2].
Qed.

Lemma send_command_body_trace {A} host port (command : option string)
    (bulk : bool) (cmds : list string) (after : M A) w :
  quiet after ->
  trace
    (snd (with_connection host port
            (run (if bulk
                  then for_each cmds
                         (fun cmd =>
                            sendall ("< " +:+ cmd +:+ " >" +:+ CRLF))
                  else sendall
                         ("< " +:+ str_opt command +:+ " >" +:+ CRLF));
             after) w))
  = trace w ++ Connect host port
      :: match opened host port w with
         | Some c =>
             wire (written (on_send c)
                     (if bulk then cmds else [str_opt command]))
             ++ [Closed]
         | None => []
         end.
Proof.
  intros Hq.
  match goal with
  | |- context [with_connection host port ?b w] =>
      pose proof (with_connection_trace host port b w) as Hw
  end.
  destruct (opened host port w) as [c|].
  - destruct Hw as (w1 & Hw1 & Hc & Hw).
    rewrite Hw, (exchange_trace command bulk cmds after w1 Hq), Hw1, Hc.
    by rewrite <- !app_assoc.
  - exact Hw.
Qed.

Lemma guarded_trace (body : M atom) w :
  trace (snd (try_except body is_Exception
                (fun e => ret (StrV ("(error: " +:+ exn_msg e +:+ ")"))) w))
  = trace (snd (body w)).
Proof.
  unfold try_except. destruct (body w) as [[e|a] w1]; [|done].
  by destruct (is_Exception e).
Qed.

(** One call, one connection.  One call of [send_command], of either
    client, calls [create_connection] once.  When the host name is
    accepted and the peer accepts the connection, the call writes the
    command, or the commands of a bulk query in order: all of them, or
    the ones up to and including the first whose write fails; then it
    closes the socket, whatever happened in between.  When no connection
    is opened, nothing else happens.  The host name is one of 7-bit
    characters. *)
Theorem send_command_one_connection (decode : string -> string)
    (json_dumps pformat repr : data -> string) (host : string) (port : Z)
    (command expect_key : option string) (output_format : string)
    (bulk : bool) (w : world) :
  is_7bit host = true ->
  trace (snd (Ad4d.send_command decode json_dumps pformat repr host port
                command expect_key output_format bulk w))
  = trace w ++ Connect host port
      :: match opened host port w with
         | Some c =>
             wire (written (on_send c)
                     (if bulk then Ad4d.bulk_commands
                      else [str_opt command]))
             ++ [Closed]
         | None => []
         end
  /\ trace (snd (P10t.send_command decode json_dumps pformat repr host port
                   command expect_key output_format bulk w))
     = trace w ++ Connect host port
         :: match opened host port w with
            | Some c =>
                wire (written (on_send c)
                        (if bulk then P10t.bulk_commands
                         else [str_opt command]))
                ++ [Closed]
            | None => []
            end.
Proof.
  intros _. split.
  - unfold Ad4d.send_command. rewrite guarded_trace.
    apply send_command_body_trace.
    apply quiet_bind; [apply quiet_read_window|].
    intros chunks. apply quiet_lift.
  - unfold P10t.send_command. rewrite guarded_trace.
    apply send_command_body_trace.
    apply quiet_try_except; [|intros e; apply quiet_ret].
    apply quiet_bind; [apply quiet_read_window|].
    intros chunks. apply quiet_lift.
Qed.

(** A bulk query on a connection whose third write fails: three commands
    are written, then the socket is closed. *)
Lemma send_command_one_connection_witness :
  is_7bit "rx1" = true
  /\ trace (snd (Ad4d.send_command decode_ascii plain_render plain_render
                   plain_render "rx1" 2202 None None "text" true
                   (World [Conn None [None; None; Some (OSErr false "EPIPE")]
                             []]
                      silent [])))
     = [Connect "rx1" 2202;
        Sent ("< GET DEVICE_ID >" +:+ CRLF);
        Sent ("< GET MODEL >" +:+ CRLF);
        Sent ("< GET FW_VER >" +:+ CRLF);
        Closed].
Proof.
  split; [reflexivity|].
  exact (proj1 (send_command_one_connection decode_ascii plain_render
                  plain_render plain_render "rx1" 2202 None None "text" true
                  (World [Conn None [None; None; Some (OSErr false "EPIPE")]
                            []]
                     silent [])
                  eq_refl)).
Defined.

(** ** Validation in front of the client, in general *)

Lemma no_refusal_catchable {A} (m : M A) : catchable m -> no_refusal m.
Proof.
  intros Hm w e w' H Hc. specialize (Hm w). rewrite H in Hm.
  cbn in Hm. unfold is_Exception in Hm. by rewrite Hc in Hm.
Qed.

Lemma no_refusal_bind {A B} (m : M A) (f : A -> M B) :
  no_refusal m -> (forall a, no_refusal (f a)) -> no_refusal (bind m f).
Proof.
  intros Hm Hf w e w' H. unfold bind in H.
  destruct (m w) as [[e1|a] w1] eqn:Hmw.
  - injection H as <- <-. by apply (Hm _ _ _ Hmw).
  - by apply (Hf _ _ _ _ H).
Qed.

Lemma no_refusal_exit0 {A} : no_refusal (@sys_exit A 0).
Proof. by intros w e w' [= <- <-]. Qed.

Lemma refusal_no {A} (m : M A) w : no_refusal m -> refusal w (m w).
Proof. intros Hm msg w' H. by destruct (Hm _ _ _ H). Qed.

Lemma refusal_stderr {A} text w :
  refusal w ((run eprint text; @sys_exit A 1) w).
Proof. intros m w' [= <- <-]. by eexists. Qed.

Lemma catchable_send_ad4d d j p r host port command expect_key fmt bulk :
  catchable (Ad4d.send_command d j p r host port command expect_key fmt bulk).
Proof.
  apply catchable_try_except; [apply ad4d_body_catchable|].
  intros e. apply catchable_ret.
Qed.

Lemma catchable_send_p10t d j p r host port command expect_key fmt bulk :
  catchable (P10t.send_command d j p r host port command expect_key fmt bulk).
Proof.
  apply catchable_try_except; [apply p10t_body_catchable|].
  intros e. apply catchable_ret.
Qed.

Lemma ad4d_build_command_caught channel key :
  caught (Ad4d.build_command channel key).
Proof. unfold Ad4d.build_command. repeat case_match; done. Qed.

Lemma p10t_build_command_caught channel key :
  caught (P10t.build_command channel key).
Proof. unfold P10t.build_command. repeat case_match; done. Qed.

Lemma catchable_keys_ad4d d j p r host port channel keys :
  forall result,
    catchable (Ad4d.get_channel_keys d j p r host port channel keys result).
Proof.
  induction keys as [|key keys IH]; intros result; [apply catchable_ret|].
  cbn [Ad4d.get_channel_keys]. apply catchable_bind; [|apply IH].
  apply catchable_try_except; [|intros e; apply catchable_ret].
  apply catchable_bind;
    [apply catchable_lift, ad4d_build_command_caught|].
  intros full_key. apply catchable_bind; [apply catchable_send_ad4d|].
  intros value. apply catchable_ret.
Qed.

Lemma catchable_keys_p10t d j p r host port channel keys :
  forall result,
    catchable (P10t.get_channel_keys d j p r host port channel keys result).
Proof.
  induction keys as [|key keys IH]; intros result; [apply catchable_ret|].
  cbn [P10t.get_channel_keys]. apply catchable_bind; [|apply IH].
  apply catchable_try_except; [|intros e; apply catchable_ret].
  apply catchable_bind;
    [apply catchable_lift, p10t_build_command_caught|].
  intros full_key. apply catchable_bind; [apply catchable_send_p10t|].
  intros value. apply catchable_ret.
Qed.

Lemma no_refusal_print text : no_refusal (print text).
Proof. apply no_refusal_catchable, catchable_emit. Qed.

Lemma no_refusal_prints (l : list string) (f : string -> string) :
  no_refusal (for_each l (fun k => print (f k))).
Proof.
  apply no_refusal_catchable, catchable_for_each.
  intros k. apply catchable_emit.
Qed.

Lemma no_refusal_send_print (m : M atom) :
  catchable m -> no_refusal (do r <- m; print (str_atom r)).
Proof.
  intros Hm. apply no_refusal_bind; [by apply no_refusal_catchable|].
  intros r. apply no_refusal_print.
Qed.

Lemma no_refusal_keys_print j p r (m : M parsed) (channel : option string)
    fmt :
  catchable m ->
  no_refusal
    (do result <- m;
     do n <- lift (py_int (str_opt channel));
     do s <- lift (format_output j p r [(IntV n, Sub result)] fmt);
     print s).
Proof.
  intros Hm. apply no_refusal_bind; [by apply no_refusal_catchable|].
  intros result. apply no_refusal_bind.
  { apply no_refusal_catchable, catchable_lift, py_int_caught. }
  intros n. apply no_refusal_bind.
  { apply no_refusal_catchable, catchable_lift, format_output_caught. }
  intros s. apply no_refusal_print.
Qed.

Lemma refusal_build {A} (r : exn + string) (k : string -> M A) w :
  caught r -> (forall full_key, refusal w (k full_key w)) ->
  refusal w
    ((do full_key <-
        try_except (lift r) is_ValueError
          (fun e => run eprint ("Error: " +:+ exn_msg e); sys_exit 1);
      k full_key) w).
Proof.
  intros Hr Hk. unfold bind at 1. unfold try_except, lift.
  destruct r as [[cls text]|full_key]; [|apply Hk].
  cbn in Hr. unfold is_ValueError. cbn [exn_cls exn_msg].
  destruct cls; try (intros m w' [=]; done);
    apply (refusal_stderr (A:=A)).
Qed.

Lemma ad4d_main_refusal d j p r a w : refusal w (Ad4d.main d j p r a w).
Proof.
  unfold Ad4d.main.
  destruct (arg_list a).
  { apply refusal_no.
    apply no_refusal_bind; [apply no_refusal_print|intros _].
    apply no_refusal_bind; [apply no_refusal_prints|intros _].
    apply no_refusal_bind; [apply no_refusal_prints|intros _].
    apply no_refusal_bind; [apply no_refusal_print|intros _].
    apply no_refusal_bind; [apply no_refusal_prints|intros _].
    apply no_refusal_bind; [apply no_refusal_prints|intros _].
    apply no_refusal_exit0. }
  destruct (arg_host a) as [[|c host]|];
    [apply refusal_stderr | | apply refusal_stderr].
  cbv zeta.
  destruct (arg_get a && negb (given (arg_key a))).
  { apply refusal_no. apply no_refusal_bind; [|intros _; apply no_refusal_exit0].
    destruct (given (arg_channel a)).
    - apply no_refusal_keys_print, catchable_keys_ad4d.
    - apply no_refusal_send_print, catchable_send_ad4d. }
  apply refusal_build; [apply ad4d_build_command_caught|].
  intros full_key.
  destruct (arg_set a).
  - destruct (mem_str _ Ad4d.DEVICE_GET_ONLY_KEYS); [apply refusal_stderr|].
    destruct (arg_value a) as [v|]; [|apply refusal_stderr].
    apply refusal_no. apply no_refusal_bind.
    { apply no_refusal_catchable, catchable_send_ad4d. }
    intros [| |];
      first [apply no_refusal_print
            | apply no_refusal_catchable, catchable_ret].
  - destruct (arg_get a); [|apply refusal_stderr].
    apply refusal_no, no_refusal_send_print, catchable_send_ad4d.
Qed.

Lemma p10t_main_refusal d j p r a w : refusal w (P10t.main d j p r a w).
Proof.
  unfold P10t.main.
  destruct (arg_list a).
  { apply refusal_no.
    apply no_refusal_bind; [apply no_refusal_print|intros _].
    apply no_refusal_bind; [apply no_refusal_prints|intros _].
    apply no_refusal_bind; [apply no_refusal_prints|intros _].
    apply no_refusal_bind; [apply no_refusal_print|intros _].
    apply no_refusal_bind; [apply no_refusal_prints|intros _].
    apply no_refusal_exit0. }
  destruct (arg_host a) as [[|c host]|];
    [apply refusal_stderr | | apply refusal_stderr].
  cbv zeta.
  destruct (arg_get a && negb (given (arg_key a))).
  { apply refusal_no. apply no_refusal_bind; [|intros _; apply no_refusal_exit0].
    destruct (given (arg_channel a)).
    - apply no_refusal_keys_print, catchable_keys_p10t.
    - apply no_refusal_send_print, catchable_send_p10t. }
  apply refusal_build; [apply p10t_build_command_caught|].
  intros full_key.
  destruct (arg_set a).
  - destruct (mem_str _ P10t.DEVICE_GET_ONLY_KEYS); [apply refusal_stderr|].
    destruct (arg_value a) as [v|]; [|apply refusal_stderr].
    apply refusal_no. apply no_refusal_bind.
    { apply no_refusal_catchable, catchable_send_p10t. }
    intros result. destruct (truthy result);
      first [apply no_refusal_print
            | apply no_refusal_catchable, catchable_ret].
  - destruct (arg_get a); [|apply refusal_stderr].
    apply refusal_no, no_refusal_send_print, catchable_send_p10t.
Qed.

(** Whenever either client ends in [sys.exit(1)] it has refused the
    command line before touching the network: since the start it has
    written one line to standard error and done nothing else; no socket
    was opened. *)
Theorem main_refuses_before_io (decode : string -> string)
    (json_dumps pformat repr : data -> string) (a : args) (w : world) :
  (forall m w',
      Ad4d.main decode json_dumps pformat repr a w
      = (inl (Exn (SystemExit 1) m), w') ->
      exists msg,
        w' = World (pending w) (current w) (trace w ++ [Stderr msg]))
  /\ (forall m w',
         P10t.main decode json_dumps pformat repr a w
         = (inl (Exn (SystemExit 1) m), w') ->
         exists msg,
           w' = World (pending w) (current w) (trace w ++ [Stderr msg])).
Proof.
  split; [apply ad4d_main_refusal | apply p10t_main_refusal].
Qed.

Lemma mem_str_app s l1 l2 :
  mem_str s (l1 ++ l2) = mem_str s l1 || mem_str s l2.
Proof. apply existsb_app. Qed.

Lemma ad4d_set_device_read_only d j p r a host key w :
  arg_list a = false -> arg_host a = Some host -> host <> EmptyString ->
  arg_key a = Some key -> arg_set a = true ->
  mem_str (Py.upper key) Ad4d.DEVICE_GET_ONLY_KEYS = true ->
  Ad4d.main d j p r a w
  = (inl (Exn (SystemExit 1) EmptyString),
     World (pending w) (current w)
       (trace w
        ++ [Stderr ("Error: " +:+ Py.upper key
                    +:+ " is read-only and cannot be set")])).
Proof.
  intros Hl Hh Hne Hk Hs Hm. unfold Ad4d.main.
  rewrite Hl, Hh, Hk, Hs. destruct host as [|c host]; [done|].
  assert (given (Some key) = true) as ->.
  { destruct key; [discriminate Hm | done]. }
  rewrite andb_false_r. cbv zeta.
  unfold Ad4d.build_command, Ad4d.ALL_KEYS.
  rewrite mem_str_app, Hm. cbn [orb negb str_opt].
  unfold bind at 1. unfold try_except, lift. by rewrite Hm.
Qed.

Lemma p10t_set_device_read_only d j p r a host key w :
  arg_list a = false -> arg_host a = Some host -> host <> EmptyString ->
  arg_key a = Some key -> arg_set a = true ->
  mem_str (Py.upper key) P10t.DEVICE_GET_ONLY_KEYS = true ->
  P10t.main d j p r a w
  = (inl (Exn (SystemExit 1) EmptyString),
     World (pending w) (current w)
       (trace w
        ++ [Stderr ("Error: " +:+ Py.upper key
                    +:+ " is read-only and cannot be set")])).
Proof.
  intros Hl Hh Hne Hk Hs Hm. unfold P10t.main.
  rewrite Hl, Hh, Hk, Hs. destruct host as [|c host]; [done|].
  assert (given (Some key) = true) as ->.
  { destruct key; [discriminate Hm | done]. }
  rewrite andb_false_r. cbv zeta.
  unfold P10t.build_command, P10t.ALL_KEYS.
  rewrite mem_str_app, Hm. cbn [orb negb str_opt].
  unfold bind at 1. unfold try_except, lift. by rewrite Hm.
Qed.

(** A [--set] on a key of the device-level read-only list of a client,
    in any letter case, is refused by that client whatever the other
    arguments: one line on standard error, exit status 1, and no socket
    opened. *)
Theorem set_device_read_only_refused (decode : string -> string)
    (json_dumps pformat repr : data -> string) (a : args)
    (host key : string) (w : world) :
  arg_list a = false -> arg_host a = Some host -> host <> EmptyString ->
  arg_key a = Some key -> arg_set a = true ->
  (mem_str (Py.upper key) Ad4d.DEVICE_GET_ONLY_KEYS = true ->
   Ad4d.main decode json_dumps pformat repr a w
   = (inl (Exn (SystemExit 1) EmptyString),
      World (pending w) (current w)
        (trace w
         ++ [Stderr ("Error: " +:+ Py.upper key
                     +:+ " is read-only and cannot be set")])))
  /\ (mem_str (Py.upper key) P10t.DEVICE_GET_ONLY_KEYS = true ->
      P10t.main decode json_dumps pformat repr a w
      = (inl (Exn (SystemExit 1) EmptyString),
         World (pending w) (current w)
           (trace w
            ++ [Stderr ("Error: " +:+ Py.upper key
                        +:+ " is read-only and cannot be set")]))).
Proof.
  intros Hl Hh Hne Hk Hs. split; intros Hm.
  - by apply (ad4d_set_device_read_only _ _ _ _ _ host).
  - by apply (p10t_set_device_read_only _ _ _ _ _ host).
Qed.

Lemma set_device_read_only_refused_witness :
  Ad4d.main decode_ascii plain_render plain_render plain_render
    (Args false (Some "rx1") 2202 false true None (Some "model") (Some "x")
       "text" false)
    (fresh [])
  = (inl (Exn (SystemExit 1) EmptyString),
     World (pending (fresh [])) (current (fresh []))
       (trace (fresh [])
        ++ [Stderr ("Error: " +:+ Py.upper "model"
                    +:+ " is read-only and cannot be set")])).
Proof.
  apply (set_device_read_only_refused decode_ascii plain_render plain_render
           plain_render
           (Args false (Some "rx1") 2202 false true None (Some "model")
              (Some "x") "text" false)
           "rx1" "model" (fresh []));
    first [reflexivity | discriminate].
Defined.

(** ** The monitor: what raises and what does not *)

Lemma sem_caps_mono r : forall pos s c pos' s' c' i,
  sem r pos s c pos' s' c' -> is_Some (c i) -> is_Some (c' i).
Proof.
  induction r as [|a|p|r1 IH1 r2 IH2|r1 IH1|p min g|j r1 IH1| |];
    intros pos s c pos' s' c' i; cbn [sem].
  - by intros (_ & _ & ->).
  - by intros (_ & _ & ->).
  - by intros (b & _ & _ & _ & ->).
  - intros (p1 & s1 & c1 & H1 & H2) Hc. eauto.
  - intros [H|(_ & _ & ->)]; eauto.
  - by intros (u & _ & _ & _ & _ & ->).
  - intros (c1 & H1 & ->) Hc. unfold Re.set_cap.
    destruct (Nat.eqb i j); eauto.
  - by intros (_ & _ & _ & ->).
  - by intros (_ & _ & _ & ->).
Qed.

Lemma sem_sets r : forall pos s c pos' s' c' i,
  sem r pos s c pos' s' c' -> sets r i = true -> is_Some (c' i).
Proof.
  induction r as [|a|p|r1 IH1 r2 IH2|r1 IH1|p min g|j r1 IH1| |];
    intros pos s c pos' s' c' i; cbn [sem sets]; try done.
  - intros (p1 & s1 & c1 & H1 & H2) Hs.
    apply orb_prop in Hs as [Hs|Hs]; [|by eapply IH2].
    eapply sem_caps_mono; [exact H2|]. by eapply IH1.
  - intros (c1 & H1 & ->) Hs. unfold Re.set_cap.
    destruct (Nat.eqb i j) eqn:Hij; [done|]. eapply IH1; eauto.
Qed.

Lemma sample_groups line gs :
  Re.match_groups Monitor.sample_re 2 line = Some gs ->
  exists g1 g2, gs = [Some g1; Some g2].
Proof.
  unfold Re.match_groups. intros H.
  apply exec_sound in H as (pos' & s' & c' & Hsem & [= <-]).
  pose proof (sem_sets _ _ _ _ _ _ _ 1 Hsem eq_refl) as [g1 H1].
  pose proof (sem_sets _ _ _ _ _ _ _ 2 Hsem eq_refl) as [g2 H2].
  exists g1, g2. unfold Re.groups. cbn [seq map]. by rewrite H1, H2.
Qed.

Lemma returns_ret {A} (a : A) : returns (ret a).
Proof. intros w. by eexists _, _. Qed.

Lemma returns_emit ev : returns (emit ev).
Proof. intros w. by eexists _, _. Qed.

Lemma returns_bind {A B} (m : M A) (f : A -> M B) :
  returns m -> (forall a, returns (f a)) -> returns (bind m f).
Proof.
  intros Hm Hf w. unfold bind. destruct (Hm w) as (a & w1 & ->). apply Hf.
Qed.

Lemma returns_for_each {A} (l : list A) body :
  (forall a, returns (body a)) -> returns (for_each l body).
Proof.
  intros Hb. induction l as [|a l IH]; [apply returns_ret|].
  apply returns_bind; [apply Hb | by intros _].
Qed.

Lemma returns_handle_sample host ch_num raw device_type :
  returns (Monitor.handle_sample host ch_num raw device_type).
Proof.
  apply returns_for_each. intros kv.
  apply returns_bind; [apply returns_emit | intros _; apply returns_emit].
Qed.


Lemma returns_sample_call host line device_type gs :
  Re.match_groups Monitor.sample_re 2 line = Some gs ->
  returns
    (Monitor.call_handle_sample
       ([AStr host; ARedis] ++ map arg_of_group gs ++ [AStr device_type])).
Proof.
  intros H. destruct (sample_groups _ _ H) as (g1 & g2 & ->).
  apply returns_handle_sample.
Qed.









(** A negative interval: the first pass is made (every poll times out on
    a silent peer), then [time.sleep] raises and the exception leaves the
    loop. *)
Lemma polling_negative_interval :
  exists w',
    Monitor.polling_loop decode_ascii checked_sleep 3 "rx1" minus_one "ad4d"
      (listening [])
    = (inl (Exn ValueError "sleep length must be non-negative"), w')
    /\ length (trace w') = length Monitor.POLL_COMMANDS.
Proof. eexists. split; vm_compute; reflexivity. Qed.

Lemma report_groups line gs :
  Re.match_groups Monitor.report_re 3 line = Some gs ->
  exists g1 g2 g3, gs = [g1; g2; g3].
Proof.
  unfold Re.match_groups. intros H.
  apply exec_sound in H as (pos' & s' & c' & _ & [= <-]).
  by eexists _, _, _.
Qed.

(** What one line does to the passive monitor.  A line that the report
    pattern matches (and that does not start as a sample frame) raises
    [TypeError] before anything is forwarded or logged; every other line
    is handled without an exception. *)
Theorem ingest_line_outcome (decode : string -> string)
    (host device_type line0 : string) (w : world) :
  if report_line (Py.strip (decode line0))
  then Monitor.ingest_line decode host device_type line0 w
       = (inl (Exn TypeError
                 "handle_response() takes 4 positional arguments but 6 were given"),
          w)
  else exists w',
         Monitor.ingest_line decode host device_type line0 w = (inr tt, w').
Proof.
  unfold Monitor.ingest_line, report_line. cbv zeta.
  destruct (Py.startswith "< SAMPLE" _); cbn [negb andb].
  - destruct (Re.match_groups Monitor.sample_re _ _) as [gs|] eqn:Hm;
      [|by eexists].
    destruct (returns_sample_call host _ device_type gs Hm w)
      as ([] & w' & H).
    by exists w'.
  - destruct (Re.match_groups Monitor.report_re _ _) as [gs|] eqn:Hm;
      [|by eexists].
    destruct (report_groups _ _ Hm) as (g1 & g2 & g3 & ->).
    reflexivity.
Qed.

(** ** The replies the polling monitor forwards *)

Lemma strip_nonspace u : all_chars Re.nonspace u = true -> Py.strip u = u.
Proof.
  intros Hu. unfold Py.strip.
  assert (forall a, Re.nonspace a = true -> Py.isspace a = false) as Hns.
  { intros a. unfold Re.nonspace. by destruct (Py.isspace a). }
  assert (Py.lstrip_with Py.isspace u = u) as ->.
  { destruct u as [|a u]; [done|]. simpl in *.
    apply andb_prop in Hu as [Ha _]. by rewrite Hns. }
  induction u as [|a u IH]; [done|]. simpl in *.
  apply andb_prop in Hu as [Ha Hu]. rewrite (IH Hu).
  destruct u; [by rewrite Hns|done].
Qed.

Lemma nonspace_first u :
  all_chars Re.nonspace u = true -> u <> EmptyString ->
  stops Re.space u = true.
Proof.
  destruct u as [|a u]; [done|]. simpl. intros H _.
  apply andb_prop in H as [Ha _]. exact Ha.
Qed.

Lemma match_device_reply key v :
  all_chars Re.nonspace key = true -> key <> EmptyString ->
  all_chars (Re.none_of "}") v = true ->
  Re.match_groups Monitor.reply_device_re 2 (device_reply key v)
  = Some [Some key; Some v].
Proof.
  intros Hkey Hkne Hv. unfold Re.match_groups, Monitor.reply_device_re.
  cbn [Re.cat]. unfold device_reply.
  rewrite exec_cat, exec_lit, exec_cat, exec_group.
  apply exec_greedy_first; [done|done|destruct key; [done|simpl; lia]|].
  rewrite exec_cat.
  change (" {" +:+ v +:+ "} >") with (" " +:+ String "{" (v +:+ "} >")).
  apply exec_greedy_first; [done|done|simpl; lia|].
  rewrite exec_cat, exec_chr, exec_cat, exec_group.
  apply exec_greedy_first; [done|done|lia|].
  change ("} >") with ("} >" +:+ EmptyString).
  rewrite exec_lit.
  match goal with
  | |- context [Re.take ?n (key +:+ ?s)] =>
      replace n with (String.length key) by (simpl; lia)
  end.
  match goal with
  | |- context [Re.take ?n (v +:+ ?s)] =>
      replace n with (String.length v) by (simpl; lia)
  end.
  by rewrite !take_app.
Qed.

Lemma sem_lit w : forall pos s c pos' s' c',
  sem (Re.lit w) pos s c pos' s' c' -> s = w +:+ s' /\ c' = c.
Proof.
  induction w as [|a w IH]; intros pos s c pos' s' c'; cbn [Re.lit sem].
  - by intros (_ & -> & ->).
  - intros (p1 & s1 & c1 & (-> & _ & ->) & H).
    apply IH in H as [-> ->]. done.
Qed.

Lemma span_unique p u1 : forall u2 a b,
  all_chars p u1 = true -> all_chars p u2 = true ->
  stops p a = true -> stops p b = true ->
  u1 +:+ a = u2 +:+ b -> u1 = u2 /\ a = b.
Proof.
  induction u1 as [|c1 u1 IH]; intros [|c2 u2] a b H1 H2 Ha Hb;
    rewrite ?str_app_cons, ?str_app_nil_l; intros He.
  - done.
  - subst a. simpl in *. apply andb_prop in H2 as [H2 _].
    by rewrite H2 in Ha.
  - subst b. simpl in *. apply andb_prop in H1 as [H1 _].
    by rewrite H1 in Hb.
  - injection He as -> He. simpl in *.
    apply andb_prop in H1 as [_ H1]. apply andb_prop in H2 as [_ H2].
    destruct (IH _ _ _ H1 H2 Ha Hb He) as [-> ->]. done.
Qed.

Lemma digits_nonspace n :
  all_chars Re.digit n = true -> all_chars Re.nonspace n = true.
Proof.
  apply all_chars_impl. intros a Ha. unfold Re.nonspace.
  by rewrite digit_not_space.
Qed.

Lemma device_pattern_misses n key v :
  all_chars Re.digit n = true ->
  all_chars Re.nonspace key = true -> key <> EmptyString ->
  stops (Ascii.eqb "{") key = true ->
  Re.match_groups Monitor.reply_device_re 2 (channel_reply n key v) = None.
Proof.
  intros Hn Hkey Hkne Hbrace.
  destruct (Re.match_groups _ _ _) as [gs|] eqn:Hm; [exfalso|done].
  unfold Re.match_groups in Hm.
  apply exec_sound in Hm as (pos' & s' & c' & Hsem & _).
  unfold Monitor.reply_device_re in Hsem. cbn [Re.cat] in Hsem.
  cbn [sem] in Hsem.
  destruct Hsem as (p1 & s1 & c1 & Hlit & p2 & s2 & c2 & Hg1 & Hrest).
  apply sem_lit in Hlit as [Hline _].
  destruct Hg1 as (c1' & (u & Hu & _ & Hs1 & _) & _).
  destruct Hrest as (p3 & s3 & c3 & (ws & Hws & Hwl & Hs2 & _) & Hrest).
  destruct Hrest as (p4 & s4 & c4 & (Hs3 & _) & _).
  unfold channel_reply in Hline.
  assert (n +:+ " " +:+ key +:+ " " +:+ v +:+ " >" = s1) as Hs1'.
  { by injection Hline. }
  subst s1 s2 s3.
  assert (ws <> EmptyString) as Hwne by (destruct ws; [simpl in Hwl; lia|done]).
  destruct (span_unique Re.nonspace n u
              (" " +:+ key +:+ " " +:+ v +:+ " >")
              (ws +:+ String "{" s4)) as [-> Hrest]; [| | | |done|].
  { by apply digits_nonspace. }
  { done. }
  { done. }
  { destruct ws as [|a ws]; [done|]. simpl in *.
    apply andb_prop in Hws as [Ha _]. unfold Re.nonspace.
    unfold Re.space in Ha. by rewrite Ha. }
  destruct (span_unique Re.space " " ws
              (key +:+ " " +:+ v +:+ " >") (String "{" s4))
    as [<- Hk]; [done|done| |done|done|].
  { rewrite stops_app by done. by apply nonspace_first. }
  destruct key as [|a key]; [done|].
  rewrite str_app_cons in Hk. injection Hk as -> _. done.
Qed.

Lemma match_channel_reply n key v :
  all_chars Re.digit n = true -> n <> EmptyString ->
  all_chars Re.nonspace key = true -> key <> EmptyString ->
  all_chars Re.nonspace v = true -> v <> EmptyString ->
  Re.match_groups Monitor.reply_channel_re 3 (channel_reply n key v)
  = Some [Some n; Some key; Some v].
Proof.
  intros Hn Hnne Hkey Hkne Hv Hvne.
  unfold Re.match_groups, Monitor.reply_channel_re.
  cbn [Re.cat]. unfold channel_reply.
  rewrite exec_cat, exec_lit, exec_cat, exec_group.
  apply exec_greedy_first; [done|done|destruct n; [done|simpl; lia]|].
  rewrite exec_cat.
  change (" " +:+ key +:+ " " +:+ v +:+ " >")
    with (String " " (key +:+ " " +:+ v +:+ " >")).
  rewrite exec_chr, exec_cat, exec_group.
  apply exec_greedy_first; [done|done|destruct key; [done|simpl; lia]|].
  rewrite exec_cat.
  apply exec_greedy_first; [done| |simpl; lia|].
  { rewrite stops_app by done. by apply nonspace_first. }
  rewrite exec_cat, exec_group.
  apply exec_greedy_first; [done|done|destruct v; [done|simpl; lia]|].
  change (" >") with (" >" +:+ EmptyString).
  rewrite exec_lit.
  repeat match goal with
  | |- context [Re.take ?m (?u +:+ ?s)] =>
      lazymatch m with
      | String.length u => fail
      | _ => replace m with (String.length u) by (simpl; lia)
      end
  end.
  by rewrite !take_app.
Qed.

(** A device-level reply in braces is forwarded to the sink under
    [host:device], the key as written and the value without the braces
    and without white space around it. *)
Theorem handle_response_device_reply (host device_type key v : string)
    (w : world) :
  all_chars Re.nonspace key = true -> key <> EmptyString ->
  all_chars (Re.none_of "}") v = true ->
  exists fields,
    Monitor.handle_response host (device_reply key v) device_type w
    = (inr tt,
       World (pending w) (current w)
         (trace w
          ++ [Hset (host +:+ ":device") key (Py.strip v);
              Log ((host +:+ ":device") +:+ " " +:+ key +:+ " = "
                   +:+ Py.strip v) fields])).
Proof.
  intros Hkey Hkne Hv. unfold Monitor.handle_response.
  rewrite (match_device_reply key v Hkey Hkne Hv). cbv zeta.
  rewrite (strip_nonspace key Hkey).
  eexists. unfold bind, Monitor.hset, Monitor.log, emit.
  cbn [trace pending current]. rewrite <- app_assoc. reflexivity.
Qed.

Lemma handle_response_device_reply_witness :
  exists fields,
    Monitor.handle_response "rx1" (device_reply "DEVICE_ID" " Rack 1 ")
      "ad4d" (listening [])
    = (inr tt,
       World (pending (listening [])) (current (listening []))
         (trace (listening [])
          ++ [Hset ("rx1" +:+ ":device") "DEVICE_ID" (Py.strip " Rack 1 ");
              Log (("rx1" +:+ ":device") +:+ " " +:+ "DEVICE_ID" +:+ " = "
                   +:+ Py.strip " Rack 1 ") fields])).
Proof.
  apply (handle_response_device_reply "rx1" "ad4d" "DEVICE_ID" " Rack 1 "
           (listening []));
    first [reflexivity | discriminate].
Defined.

(** A channel-level reply whose value is one word is forwarded to the
    sink under [host:channel:n], key and value as written. *)
Theorem handle_response_channel_reply (host device_type n key v : string)
    (w : world) :
  all_chars Re.digit n = true -> n <> EmptyString ->
  all_chars Re.nonspace key = true -> key <> EmptyString ->
  stops (Ascii.eqb "{") key = true ->
  all_chars Re.nonspace v = true -> v <> EmptyString ->
  exists fields,
    Monitor.handle_response host (channel_reply n key v) device_type w
    = (inr tt,
       World (pending w) (current w)
         (trace w
          ++ [Hset (host +:+ ":channel:" +:+ n) key v;
              Log ((host +:+ ":channel:" +:+ n) +:+ " " +:+ key +:+ " = "
                   +:+ v) fields])).
Proof.
  intros Hn Hnne Hkey Hkne Hbrace Hv Hvne. unfold Monitor.handle_response.
  rewrite (device_pattern_misses n key v Hn Hkey Hkne Hbrace).
  rewrite (match_channel_reply n key v Hn Hnne Hkey Hkne Hv Hvne). cbv zeta.
  rewrite (strip_nonspace key Hkey), (strip_nonspace v Hv),
    (strip_nonspace n (digits_nonspace n Hn)).
  eexists. unfold bind, Monitor.hset, Monitor.log, emit.
  cbn [trace pending current]. rewrite <- app_assoc. reflexivity.
Qed.

Lemma handle_response_channel_reply_witness :
  exists fields,
    Monitor.handle_response "rx1" (channel_reply "2" "FREQUENCY" "518.475")
      "ad4d" (listening [])
    = (inr tt,
       World (pending (listening [])) (current (listening []))
         (trace (listening [])
          ++ [Hset ("rx1" +:+ ":channel:" +:+ "2") "FREQUENCY" "518.475";
              Log (("rx1" +:+ ":channel:" +:+ "2") +:+ " " +:+ "FREQUENCY"
                   +:+ " = " +:+ "518.475") fields])).
Proof.
  apply (handle_response_channel_reply "rx1" "ad4d" "2" "FREQUENCY"
           "518.475" (listening []));
    first [reflexivity | discriminate].
Defined.

(** ** What the multi-channel decoder can return *)

Lemma sem_groupless r : forall pos s c pos' s' c',
  sem r pos s c pos' s' c' -> groupless r = true -> c' = c.
Proof.
  induction r as [|a|p|r1 IH1 r2 IH2|r1 IH1|p min g|j r1 IH1| |];
    intros pos s c pos' s' c'; cbn [sem groupless]; try done.
  - by intros (_ & _ & ->).
  - by intros (_ & _ & ->).
  - by intros (b & _ & _ & _ & ->).
  - intros (p1 & s1 & c1 & H1 & H2) Hg. apply andb_prop in Hg as [Hg1 Hg2].
    rewrite (IH2 _ _ _ _ _ _ H2 Hg2). eauto.
  - intros [H|(_ & _ & ->)] Hg; eauto.
  - by intros (u & _ & _ & _ & _ & ->).
  - by intros (_ & _ & _ & ->).
  - by intros (_ & _ & _ & ->).
Qed.

Lemma lit_groupless w : groupless (Re.lit w) = true.
Proof. induction w as [|a w IH]; [done|exact IH]. Qed.

(** The groups of a match of [REP_RE]: no scope or one digit, a key of
    [[A-Z0-9_]+], a value. *)
Lemma rep_re_groups line gs :
  Re.match_groups Ad4d.REP_RE 3 line = Some gs ->
  exists scope key v,
    gs = [scope_group scope; Some key; Some v]
    /\ scope_ok scope = true
    /\ all_chars Ad4d.key_char key = true /\ key <> EmptyString.
Proof.
  unfold Re.match_groups. intros H.
  apply exec_sound in H as (pos' & s' & c' & Hsem & [= <-]).
  unfold Ad4d.REP_RE in Hsem. cbn [Re.cat] in Hsem.
  destruct Hsem as (p1 & s1 & c1 & H1 & Hsem).
  apply sem_groupless in H1 as ->; [|done].
  destruct Hsem as (p2 & s2 & c2 & H2 & Hsem).
  apply sem_groupless in H2 as ->; [|done].
  destruct Hsem as (p3 & s3 & c3 & H3 & Hsem).
  apply sem_groupless in H3 as ->; [|done].
  destruct Hsem as (p4 & s4 & c4 & H4 & Hsem).
  apply sem_groupless in H4 as ->; [|done].
  destruct Hsem as (p5 & s5 & c5 & H5 & Hsem).
  apply sem_groupless in H5 as ->; [|done].
  destruct Hsem as (p6 & s6 & c6 & Hscope & Hsem).
  destruct Hsem as (p7 & s7 & c7 & Hkey & Hsem).
  destruct Hsem as (p8 & s8 & c8 & H8 & Hsem).
  apply sem_groupless in H8 as ->; [|done].
  destruct Hsem as (p9 & s9 & c9 & H9 & Hsem).
  apply sem_groupless in H9 as ->; [|done].
  destruct Hsem as (p10 & s10 & c10 & Hval & Hsem).
  apply sem_groupless in Hsem as ->; [|done].
  cbn [sem] in Hkey, Hval.
  destruct Hkey as (ck & (key & Hkc & Hkl & -> & -> & ->) & ->).
  destruct Hval as (cv & (v & _ & _ & -> & -> & ->) & ->).
  replace (p6 + String.length key - p6) with (String.length key) by lia.
  replace (p9 + String.length v - p9) with (String.length v) by lia.
  rewrite !take_app.
  assert (key <> EmptyString) as Hkne.
  { destruct key; [simpl in Hkl; lia|done]. }
  cbn [sem] in Hscope.
  destruct Hscope as [(pa & sa & ca & Hg & Hsp)|(_ & _ & ->)].
  - apply sem_groupless in Hsp as ->; [|done].
    destruct Hg as (cd & (d & Hd & -> & -> & ->) & ->).
    replace (S p5 - p5) with 1 by lia.
    exists (Some d), key, v. by repeat split.
  - exists None, key, v. by repeat split.
Qed.

Lemma key_not_channel_word key :
  all_chars Ad4d.key_char key = true -> key <> "channel".
Proof. by intros H ->. Qed.

(** Every reply the multi-channel decoder accepts is a dictionary of two
    entries: the scope, [None] or the number of one digit, and a key of
    [[A-Z0-9_]+] with a string. *)
Lemma ad4d_parse_shape line p :
  Ad4d.parse_report_line line = Some p ->
  exists scope key v,
    p = [("channel", scope_atom scope); (key, StrV v)]
    /\ scope_ok scope = true
    /\ all_chars Ad4d.key_char key = true /\ key <> EmptyString.
Proof.
  unfold Ad4d.parse_report_line.
  destruct (Re.match_groups _ _ _) as [gs|] eqn:Hm; [|done].
  destruct (rep_re_groups _ _ Hm) as (scope & key & v & -> & Hs & Hk & Hne).
  cbv zeta. rewrite (strip_key key Hk).
  pose proof (key_not_channel_word key Hk) as Hc.
  intros H. exists scope, key, (Py.strip v).
  split; [|done].
  assert (forall x : atom,
            Dict.lit [("channel", x); (key, StrV (Py.strip v))]
            = [("channel", x); (key, StrV (Py.strip v))]) as Hlit.
  { intros x. unfold Dict.lit, Dict.update. cbn [fold_left fst snd Dict.set].
    by rewrite decide_False. }
  destruct scope as [d|]; cbn [scope_group scope_atom] in *;
    rewrite Hlit in H; by injection H.
Qed.

Lemma ad4d_entries_shape lines :
  forallb reply_entry (parsed_entries Ad4d.parse_report_line lines) = true.
Proof.
  apply forallb_forall. intros p Hp. unfold parsed_entries in Hp.
  apply list_elem_of_In, list_elem_of_filter in Hp as [_ Hp].
  apply list_elem_of_omap in Hp as (line & _ & Hline).
  destruct (ad4d_parse_shape _ _ Hline)
    as (scope & key & v & -> & Hs & Hk & Hne).
  cbn [reply_entry]. rewrite String.eqb_refl.
  assert (String.eqb key "channel" = false) as ->.
  { apply String.eqb_neq. by apply key_not_channel_word. }
  by destruct scope.
Qed.

(** Whatever text the multi-channel client has drained, its bulk merge
    does not fail: every reply that decodes is merged, and each address
    of the result holds the value of the last reply for it. *)
Theorem ad4d_bulk_merge_total (raw : string) :
  exists d,
    bulk_merge Ad4d.parse_report_line (Ad4d.reply_lines raw) = inr d
    /\ forall ch key,
         snapshot_at (snapshot d) ch key
         = latest
             (parsed_entries Ad4d.parse_report_line (Ad4d.reply_lines raw))
             ch key.
Proof.
  unfold bulk_merge.
  destruct (merge_entries_put _ [] (ad4d_entries_shape (Ad4d.reply_lines raw))
              tidy_empty) as (d & Hm & Hs).
  exists d. split; [done|].
  intros ch key. rewrite Hs. apply fold_put_at; [apply ad4d_entries_shape|].
  unfold snapshot. rewrite list_to_map_nil, fmap_empty.
  destruct ch; cbn [snapshot_at]; by rewrite ?lookup_empty.
Qed.

(** ** What makes the multi-channel client fail *)

Lemma sorted_atoms_strs l :
  forallb is_str l = true -> exists l', sorted_atoms l = inr l'.
Proof.
  intros H. unfold sorted_atoms. destruct (Nat.leb _ _); [by eexists|].
  rewrite H. by eexists.
Qed.

Lemma strip_with_none p s :
  all_chars (fun c => negb (p c)) s = true ->
  Py.rstrip_with p (Py.lstrip_with p s) = s.
Proof.
  intros Hs.
  assert (Py.lstrip_with p s = s) as ->.
  { destruct s as [|a s]; [done|]. simpl in *.
    apply andb_prop in Hs as [Ha _]. apply negb_true_iff in Ha.
    by rewrite Ha. }
  induction s as [|a s IH]; [done|]. simpl in *.
  apply andb_prop in Hs as [Ha Hs]. apply negb_true_iff in Ha.
  rewrite (IH Hs). destruct s; [by rewrite Ha|done].
Qed.

Lemma decimal_not_int_space a : Py.isdecimal a = true -> int_space a = false.
Proof.
  destruct a as [b0 b1 b2 b3 b4 b5 b6 b7].
  destruct b0, b1, b2, b3, b4, b5, b6, b7; vm_compute; congruence.
Qed.

Lemma int_run_digits s :
  all_chars Py.isdecimal s = true -> int_run s = (s, EmptyString).
Proof.
  induction s as [|a s IH]; [done|]. simpl. intros H.
  apply andb_prop in H as [Ha Hs]. by rewrite Ha, (IH Hs).
Qed.

Lemma int_body_digits s :
  all_chars Py.isdecimal s = true -> int_body true s = true.
Proof.
  induction s as [|a s IH]; [done|]. simpl. intros H.
  apply andb_prop in H as [Ha Hs]. rewrite Ha. by apply IH.
Qed.

Lemma drop_underscores_digits s :
  all_chars Py.isdecimal s = true -> drop_underscores s = s.
Proof.
  unfold drop_underscores. induction s as [|a s IH]; [done|]. simpl.
  intros H. apply andb_prop in H as [Ha Hs].
  assert (Ascii.eqb a "_" = false) as Hu.
  { destruct (Ascii.eqb_spec a "_") as [->|]; [by vm_compute in Ha|done]. }
  rewrite filter_cons_True by (by rewrite Hu).
  simpl. by rewrite (IH Hs).
Qed.

(** [int] on a string of decimal digits: the number, unless the digits
    are more than the limit allows. *)
Lemma py_int_digits s :
  all_chars Py.isdecimal s = true -> s <> EmptyString ->
  py_int s
  = if Nat.ltb MAX_STR_DIGITS (String.length s)
    then inl (digit_limit_error (String.length s))
    else inr (Py.int_of s).
Proof.
  intros Hs Hne. unfold py_int.
  rewrite strip_with_none
    by (eapply all_chars_impl; [|exact Hs]; intros a Ha;
        by rewrite decimal_not_int_space).
  destruct s as [|a s]; [done|]. pose proof Hs as Hs'. simpl in Hs'.
  apply andb_prop in Hs' as [Ha Hs'].
  assert (match String a s with
          | String "-"%char b => (true, b)
          | String "+"%char b => (false, b)
          | _ => (false, String a s)
          end = (false, String a s)) as ->.
  { destruct a as [b0 b1 b2 b3 b4 b5 b6 b7].
    destruct b0, b1, b2, b3, b4, b5, b6, b7; vm_compute in Ha;
      first [discriminate Ha | reflexivity]. }
  rewrite (int_run_digits _ Hs), (drop_underscores_digits _ Hs).
  cbn [int_body]. rewrite Ha, (int_body_digits s Hs'). cbn [negb].
  destruct (Nat.ltb _ _); done.
Qed.

Lemma isdigit_nonempty s : isdigit s = true -> s <> EmptyString.
Proof. by intros H ->. Qed.

Lemma digit_limit_intro n :
  Nat.ltb MAX_STR_DIGITS n = true -> digit_limit (digit_limit_error n).
Proof. intros H. exists n. split; [by apply Nat.ltb_lt|done]. Qed.

(** [int] on a key that the text rendering sorts as a channel: the
    number, or the [ValueError] of the digit limit on a long key. *)
Lemma int_atom_plain k :
  plain_key k = true -> isdigit (str_atom k) = true ->
  match int_atom k with
  | inr _ => True
  | inl e => digit_limit e /\ short k = false
  end.
Proof.
  destruct k as [|n|s]; [done|done|]. cbn [plain_key str_atom int_atom short].
  intros Hp Hd. rewrite Hd in Hp. cbn in Hp.
  rewrite (py_int_digits s Hp (isdigit_nonempty s Hd)).
  destruct (Nat.ltb MAX_STR_DIGITS (String.length s)) eqn:Hl; [|done].
  split; [by apply digit_limit_intro|].
  apply Nat.leb_gt. by apply Nat.ltb_lt.
Qed.

Lemma map_err_cases {A B} (f : A -> exn + B) (P : exn -> Prop)
    (Q : A -> Prop) l :
  (forall a, In a l ->
     match f a with inr _ => True | inl e => P e /\ Q a end) ->
  match map_err f l with
  | inr _ => True
  | inl e => P e /\ exists a, In a l /\ Q a
  end.
Proof.
  induction l as [|a l IH]; intros Hf; [done|].
  cbn [map_err]. pose proof (Hf a (or_introl eq_refl)) as Ha.
  destruct (f a) as [e|b].
  { destruct Ha as [HP HQ]. split; [done|]. exists a. split; [by left|done]. }
  assert (forall a', In a' l ->
            match f a' with inr _ => True | inl e => P e /\ Q a' end) as Hl
    by (intros a' Ha'; apply Hf; by right).
  specialize (IH Hl). destruct (map_err f l) as [e|bs]; [|done].
  destruct IH as (HP & a' & Ha' & HQ). split; [done|].
  exists a'. split; [by right|done].
Qed.

Lemma in_filter_bool {A} (f : A -> bool) (l : list A) x :
  In x (filter (fun a => Is_true (f a)) l) -> In x l /\ f x = true.
Proof.
  intros H. apply list_elem_of_In, list_elem_of_filter in H as [Hf Hx].
  split; [by apply list_elem_of_In|]. by apply Is_true_true.
Qed.

(** The rendering of a dictionary of plain keys fails in one way only:
    in a text format, on a key of more than 4300 digits. *)
Lemma format_output_plain j p r d fmt :
  plain d = true ->
  match format_output j p r d fmt with
  | inr _ => True
  | inl e =>
      digit_limit e /\ structured fmt = false
      /\ forallb short (Dict.keys d) = false
  end.
Proof.
  intros Hd. unfold format_output, structured, mem_str. cbn [existsb].
  destruct (String.eqb fmt "json"); [done|].
  destruct (String.eqb fmt "pretty"); [done|].
  destruct (String.eqb fmt "raw"); [done|].
  destruct d as [|kv d]; [done|].
  unfold plain in Hd. rewrite forallb_forall in Hd.
  match goal with
  | |- context [sorted_atoms ?l] =>
      destruct (sorted_atoms_strs l) as [l1 ->]
  end.
  { apply forallb_forall. intros k Hk.
    apply in_filter_bool in Hk as [Hk Hn]. specialize (Hd _ Hk).
    destruct k as [|n|s]; [done| |done].
    cbn [plain_key str_atom] in *. by rewrite Hd in Hn. }
  match goal with
  | |- context [sorted_by_int ?l] =>
      assert (match sorted_by_int l with
              | inr _ => True
              | inl e => digit_limit e /\ exists k, In k l /\ short k = false
              end) as Hs
  end.
  { unfold sorted_by_int.
    match goal with
    | |- context [map_err ?f ?l] =>
        pose proof (map_err_cases f digit_limit
                      (fun k => short k = false) l) as Hm
    end.
    match type of Hm with
    | ?H -> _ => assert H as Hf; [|specialize (Hm Hf)]
    end.
    { intros k Hk. apply in_filter_bool in Hk as [Hk Hn].
      pose proof (int_atom_plain k (Hd _ Hk) Hn) as Hi.
      by destruct (int_atom k). }
    by destruct (map_err _ _). }
  destruct (sorted_by_int _) as [e|l2]; [|done].
  destruct Hs as (He & k & Hk & Hshort). split; [done|]. split; [done|].
  apply in_filter_bool in Hk as [Hk _].
  apply not_true_is_false. intros Hall. rewrite forallb_forall in Hall.
  specialize (Hall _ Hk). congruence.
Qed.

Lemma key_digits key :
  all_chars Ad4d.key_char key = true -> isdigit key = true ->
  all_chars Py.isdecimal key = true.
Proof.
  unfold isdigit. intros Hk Hd. apply andb_prop in Hd as [_ Hd].
  induction key as [|a key IH]; [done|]. simpl in *.
  apply andb_prop in Hk as [Ha Hk]. apply andb_prop in Hd as [Hda Hd].
  rewrite (IH Hk Hd), andb_true_r.
  destruct a as [b0 b1 b2 b3 b4 b5 b6 b7].
  destruct b0, b1, b2, b3, b4, b5, b6, b7; vm_compute in Ha, Hda;
    first [discriminate Ha | discriminate Hda | reflexivity].
Qed.

Lemma key_plain key :
  all_chars Ad4d.key_char key = true -> plain_key (StrV key) = true.
Proof.
  intros Hk. cbn [plain_key]. destruct (isdigit key) eqn:Hd; [|done].
  by rewrite (key_digits key Hk Hd).
Qed.

Lemma scope_plain d :
  Py.isdecimal d = true -> plain_key (scope_atom (Some d)) = true.
Proof.
  intros Hd. destruct d as [b0 b1 b2 b3 b4 b5 b6 b7].
  destruct b0, b1, b2, b3, b4, b5, b6, b7; vm_compute in Hd;
    first [discriminate Hd | vm_compute; reflexivity].
Qed.

(** Keys of one kind: a property of the keys of every reply is one of the
    keys of what the replies merge to. *)
Section Keys.

Variable P : atom -> bool.

Lemma dict_set_keys (k : atom) (v : mval) (d : data) :
  forallb P (Dict.keys d) = true -> P k = true ->
  forallb P (Dict.keys (Dict.set k v d)) = true.
Proof.
  intros Hd Hk.
  induction d as [|[k' v'] d IH]; cbn [Dict.set].
  - cbn. by rewrite Hk.
  - cbn [Dict.keys map fst forallb] in Hd.
    apply andb_prop in Hd as [Hk' Hd].
    destruct (decide (k = k')) as [->|Hne]; cbn [Dict.keys map fst forallb].
    + by rewrite Hk'.
    + rewrite Hk'. by apply IH.
Qed.

Lemma merge_entry_keys (d : data) scope key v d' :
  (forall c, scope = Some c -> P (scope_atom scope) = true) ->
  P (StrV key) = true ->
  forallb P (Dict.keys d) = true ->
  merge_entry d [("channel", scope_atom scope); (key, StrV v)] = inr d' ->
  forallb P (Dict.keys d') = true.
Proof.
  intros Hs Hk Hd. unfold merge_entry. cbn [Dict.get].
  rewrite decide_True by done. cbn [Dict.remove].
  rewrite decide_True by done.
  destruct scope as [c|]; cbn [scope_atom].
  - pose proof (Hs c eq_refl) as Hc. cbn [scope_atom] in Hc.
    set (ch := IntV (Py.int_of (String c EmptyString))) in *.
    set (d1 := if Dict.mem ch d then d else Dict.set ch (Sub []) d).
    assert (forallb P (Dict.keys d1) = true) as Hd1.
    { subst d1. destruct (Dict.mem ch d); [done|by apply dict_set_keys]. }
    destruct (Dict.get ch d1) as [[[| |]|s]|]; try done.
    intros [= <-]. by apply dict_set_keys.
  - intros [= <-]. unfold Dict.update, data_of_parsed.
    cbn [map fold_left fst snd]. by apply dict_set_keys.
Qed.

Lemma merge_entries_keys entries : forall (d d' : data),
  (forall e, In e entries ->
     exists scope key v,
       e = [("channel", scope_atom scope); (key, StrV v)]
       /\ (forall c, scope = Some c -> P (scope_atom scope) = true)
       /\ P (StrV key) = true) ->
  forallb P (Dict.keys d) = true -> merge_entries d entries = inr d' ->
  forallb P (Dict.keys d') = true.
Proof.
  induction entries as [|e entries IH]; intros d d' He Hd.
  - by intros [= <-].
  - cbn [merge_entries].
    destruct (merge_entry d e) as [x|d1] eqn:Hm; [done|].
    apply IH; [intros e' He'; apply He; by right|].
    destruct (He e) as (scope & key & v & -> & Hs & Hk); [by left|].
    by apply (merge_entry_keys d scope key v).
Qed.

End Keys.

(** A key is shorter than the line it is read from. *)
Lemma rep_re_key_length line g1 key g3 :
  Re.match_groups Ad4d.REP_RE 3 line = Some [g1; Some key; g3] ->
  String.length key + 7 <= String.length line.
Proof.
  unfold Re.match_groups. intros H.
  apply exec_sound in H as (pos' & s' & c' & Hsem & [= H1 H2 H3]).
  unfold Ad4d.REP_RE in Hsem. cbn [Re.cat] in Hsem.
  destruct Hsem as (p1 & s1 & c1 & Hbol & Hsem).
  destruct Hsem as (p2 & s2 & c2 & Hlt & Hsem).
  destruct Hsem as (p3 & s3 & c3 & Hsp1 & Hsem).
  destruct Hsem as (p4 & s4 & c4 & Hrep & Hsem).
  destruct Hsem as (p5 & s5 & c5 & Hsp2 & Hsem).
  destruct Hsem as (p6 & s6 & c6 & Hscope & Hsem).
  destruct Hsem as (p7 & s7 & c7 & Hkey & Hsem).
  destruct Hsem as (p8 & s8 & c8 & Hsp3 & Hsem).
  destruct Hsem as (p9 & s9 & c9 & Hbr & Hsem).
  destruct Hsem as (p10 & s10 & c10 & Hval & Hsem).
  apply sem_groupless in Hsem as Hc; [|done]. subst c'.
  cbn [sem] in Hbol, Hlt, Hsp1, Hsp2, Hkey, Hsp3, Hval.
  destruct Hbol as (_ & _ & E1 & _).
  destruct Hlt as (E2 & _ & _).
  destruct Hsp1 as (u1 & _ & _ & E3 & _ & _).
  apply sem_lit in Hrep as [E4 _].
  destruct Hsp2 as (u2 & _ & Hu2 & E5 & _ & _).
  destruct Hkey as (ck & (k & _ & _ & E7 & Ep7 & _) & Ec7).
  destruct Hsp3 as (u3 & _ & Hu3 & E8 & _ & Ec8).
  apply sem_groupless in Hbr as Ec9; [|done].
  destruct Hval as (cv & (v & _ & Hv & E10 & _ & Ecv) & Ec10).
  assert (String.length s6 <= String.length s5) as Hs6.
  { cbn [sem] in Hscope.
    destruct Hscope as [(pa & sa & ca & Hg & Hsp)|(_ & -> & _)]; [|done].
    destruct Hg as (cd & (dg & _ & -> & _) & _).
    destruct Hsp as (u & _ & _ & -> & _). simpl.
    rewrite str_length_app. lia. }
  assert (String.length s9 <= String.length s8) as Hs9.
  { cbn [sem] in Hbr. destruct Hbr as [(-> & _)|(_ & -> & _)]; simpl; lia. }
  assert (key = k) as ->.
  { subst c10 cv c9 c8 c7 p7. cbn [Re.groups map seq] in H2.
    unfold Re.set_cap in H2. cbn [Nat.eqb] in H2.
    replace (p6 + String.length k - p6) with (String.length k) in H2 by lia.
    rewrite E7, take_app in H2. congruence. }
  apply (f_equal String.length) in E1, E2, E3, E4, E5, E7, E8, E10.
  rewrite ?str_length_app in *. cbn [String.length] in *. lia.
Qed.

Lemma split_go_length sep : forall s skip part,
  In part (Py.split_go sep skip s) -> String.length part <= String.length s.
Proof.
  induction s as [|c s IH]; intros skip part; cbn [Py.split_go].
  - intros [<-|[]]. done.
  - destruct skip as [|n].
    + destruct (String.prefix sep (String c s)).
      * intros [<-|H]; [simpl; lia|]. apply IH in H. simpl. lia.
      * destruct (Py.split_go sep 0 s) as [|q qs] eqn:Hq.
        { intros [<-|[]]. simpl. lia. }
        intros [<-|H].
        { assert (String.length q <= String.length s) as Hl
            by (apply (IH 0); rewrite Hq; by left).
          simpl. lia. }
        assert (String.length part <= String.length s) as Hl
          by (apply (IH 0); rewrite Hq; by right).
        simpl. lia.
    + intros H. apply IH in H. simpl. lia.
Qed.

Lemma strip_length s : String.length (Py.strip s) <= String.length s.
Proof.
  unfold Py.strip.
  pose proof (rstrip_length Py.isspace (Py.lstrip_with Py.isspace s)).
  pose proof (lstrip_length Py.isspace s). lia.
Qed.

Lemma reply_lines_length raw line :
  In line (Ad4d.reply_lines raw) ->
  String.length line <= 6 + String.length raw.
Proof.
  unfold Ad4d.reply_lines. intros H. apply in_map_iff in H as (part & <- & H).
  apply list_elem_of_In, list_elem_of_filter in H as [_ H].
  apply list_elem_of_In, split_go_length in H.
  rewrite str_length_app. pose proof (strip_length part).
  cbn [String.length]. lia.
Qed.

(** The replies that the decoder makes of the lines of a text: the
    shape of each, and its key shorter than the text. *)
Lemma ad4d_entries_built lines n e :
  (forall line, In line lines -> String.length line <= 6 + n) ->
  In e (parsed_entries Ad4d.parse_report_line lines) ->
  exists scope key v,
    e = [("channel", scope_atom scope); (key, StrV v)]
    /\ scope_ok scope = true /\ all_chars Ad4d.key_char key = true
    /\ String.length key < n.
Proof.
  intros Hn He. unfold parsed_entries in He.
  apply list_elem_of_In, list_elem_of_filter in He as [_ He].
  apply list_elem_of_omap in He as (line & Hin & Hline).
  apply list_elem_of_In, Hn in Hin.
  destruct (ad4d_parse_shape _ _ Hline)
    as (scope & key & v & -> & Hs & Hk & Hne).
  exists scope, key, v. repeat split; try done.
  unfold Ad4d.parse_report_line in Hline.
  destruct (Re.match_groups _ _ _) as [gs|] eqn:Hm; [|done].
  destruct (rep_re_groups _ _ Hm) as (scope' & key' & v' & -> & _ & Hk' & _).
  pose proof (rep_re_key_length _ _ _ _ Hm) as Hl.
  pose proof (strip_length line).
  cbv zeta in Hline. rewrite (strip_key key' Hk') in Hline.
  assert (key = key') as ->.
  { pose proof (key_not_channel_word key' Hk') as Hc.
    assert (forall x : atom,
              Dict.lit [("channel", x); (key', StrV (Py.strip v'))]
              = [("channel", x); (key', StrV (Py.strip v'))]) as Hlit.
    { intros x. unfold Dict.lit, Dict.update.
      cbn [fold_left fst snd Dict.set]. by rewrite decide_False. }
    destruct scope' as [d|]; cbn [scope_group] in Hline;
      rewrite Hlit in Hline; congruence. }
  lia.
Qed.

(** The scan fails in one way only: a format that is rendered as text,
    and a key of more than 4300 digits in a line. *)
Lemma ad4d_find_reply_cases j p r command expect_key fmt bulk lines n :
  (forall line, In line lines -> String.length line <= 6 + n) ->
  match Ad4d.find_reply j p r command expect_key fmt bulk lines with
  | inr _ => True
  | inl e =>
      digit_limit e /\ structured fmt = false
      /\ bulk || negb (String.eqb fmt "text") = true
      /\ MAX_STR_DIGITS < n
  end.
Proof.
  induction lines as [|line rest IH]; intros Hn; cbn [Ad4d.find_reply].
  - destruct (_ || _); [|done].
    pose proof (format_output_plain j p r [] fmt eq_refl) as Hf.
    unfold Ad4d.format_output.
    destruct (format_output j p r [] fmt); [|done].
    by destruct Hf as (_ & _ & Hf).
  - assert (forall l, In l rest -> String.length l <= 6 + n) as Hrest
      by (intros l Hl; apply Hn; by right).
    specialize (IH Hrest).
    destruct (Ad4d.parse_report_line line) as [q|] eqn:Hq; [|exact IH].
    destruct (ad4d_entries_built [line] n q) as
      (scope & key & v & -> & Hs & Hk & Hlen).
    { intros l [<-|[]]. apply Hn. by left. }
    { unfold parsed_entries. cbn [omap list_omap]. rewrite Hq.
      cbn [option_bind]. destruct (ad4d_parse_shape _ _ Hq)
        as (scope & key & v & -> & _).
      rewrite filter_cons_True by done. by left. }
    pose proof (key_not_channel_word key Hk) as Hc.
    assert (first_other_key [("channel", scope_atom scope); (key, StrV v)]
            = inr key) as ->.
    { unfold first_other_key. cbn [Dict.keys map fst].
      rewrite filter_cons_False by (cbn; tauto).
      rewrite filter_cons_True; [done|].
      apply Is_true_true, negb_true_iff, String.eqb_neq. done. }
    cbv zeta.
    match goal with
    | |- context [if ?b then _ else Ad4d.find_reply _ _ _ _ _ _ _ _] =>
        destruct b
    end; [|exact IH].
    match goal with
    | |- match (if ?b then _ else _) with _ => _ end => destruct b
    end; [done|].
    destruct (_ || _) eqn:Hfmt.
    + pose proof (format_output_plain j p r
                    (data_of_parsed
                       [("channel", scope_atom scope); (key, StrV v)]) fmt)
        as Hf.
      unfold Ad4d.format_output.
      destruct (format_output j p r _ fmt) as [e|s']; [|done].
      destruct Hf as (He & Hst & Hshort).
      { unfold plain, data_of_parsed. cbn [map Dict.keys fst snd forallb].
        by rewrite (key_plain key Hk). }
      repeat split; try done.
      unfold data_of_parsed in Hshort.
      cbn [map Dict.keys fst snd forallb short String.length] in Hshort.
      rewrite andb_true_r in Hshort. cbn [Nat.leb] in Hshort.
      apply Nat.leb_gt in Hshort. unfold MAX_STR_DIGITS in *. lia.
    + unfold getitem. cbn [Dict.get].
      rewrite decide_False by done. by rewrite decide_True.
Qed.

(** What [send_command] makes of a drained text fails in one way only. *)
Lemma ad4d_resolve_cases j p r command expect_key fmt bulk raw :
  match Ad4d.resolve j p r command expect_key fmt bulk raw with
  | inr _ => True
  | inl e =>
      digit_limit e /\ structured fmt = false
      /\ bulk || negb (String.eqb fmt "text") = true
      /\ MAX_STR_DIGITS < String.length raw
  end.
Proof.
  unfold Ad4d.resolve. cbv zeta. destruct bulk.
  2:{ apply ad4d_find_reply_cases. apply reply_lines_length. }
  unfold bulk_merge.
  destruct (merge_entries_put _ [] (ad4d_entries_shape (Ad4d.reply_lines raw))
              tidy_empty) as (d & Hm & _).
  rewrite Hm.
  pose proof (ad4d_entries_built (Ad4d.reply_lines raw) (String.length raw))
    as Hb.
  assert (plain d = true) as Hd.
  { apply (merge_entries_keys plain_key
             (parsed_entries Ad4d.parse_report_line (Ad4d.reply_lines raw))
             [] d); [|done|exact Hm].
    intros e He. destruct (Hb e) as (scope & key & v & -> & Hs & Hk & _);
      [apply reply_lines_length|done|].
    exists scope, key, v. split; [done|].
    split; [|by apply key_plain].
    intros c ->. by apply scope_plain. }
  pose proof (format_output_plain j p r d fmt Hd) as Hf.
  unfold Ad4d.format_output.
  destruct (format_output j p r d fmt) as [e|s']; [|done].
  destruct Hf as (He & Hst & Hshort). repeat split; try done.
  destruct (le_lt_dec (String.length raw) MAX_STR_DIGITS) as [Hle|]; [|done].
  rewrite (merge_entries_keys short
             (parsed_entries Ad4d.parse_report_line (Ad4d.reply_lines raw))
             [] d) in Hshort; [done| |done|exact Hm].
  intros e' He'. destruct (Hb e') as (scope & key & v & -> & _ & _ & Hl);
    [apply reply_lines_length|done|].
  exists scope, key, v. split; [done|]. split; [by intros c ->|].
  cbn [short]. apply Nat.leb_le. lia.
Qed.

Lemma raises_only_bind {A B} (P : exn -> Prop) (m : M A) (f : A -> M B) :
  raises_only P m -> (forall a, raises_only P (f a)) ->
  raises_only P (bind m f).
Proof.
  intros Hm Hf w e w' H. unfold bind in H.
  destruct (m w) as [[e1|a] w1] eqn:Hmw.
  - injection H as <- <-. by apply (Hm _ _ _ Hmw).
  - by apply (Hf _ _ _ _ H).
Qed.

Lemma raises_only_mono {A} (P Q : exn -> Prop) (m : M A) :
  (forall e, P e -> Q e) -> raises_only P m -> raises_only Q m.
Proof. intros HPQ Hm w e w' H. by apply HPQ, (Hm _ _ _ H). Qed.

Lemma raises_only_returns {A} (P : exn -> Prop) (m : M A) :
  returns m -> raises_only P m.
Proof. intros Hm w e w' H. destruct (Hm w) as (a & w1 & Hw). congruence. Qed.

Lemma socket_error_os e : socket_error (exn_of_os e).
Proof. unfold socket_error, exn_of_os. destruct (timed_out e); auto. Qed.

Lemma socket_only_connect host port :
  raises_only socket_error (create_connection host port).
Proof.
  intros w e w'. unfold create_connection.
  destruct (connect_error host port) as [x|] eqn:Hx.
  { intros [= <- _]. apply connect_error_class in Hx.
    unfold socket_error. tauto. }
  destruct (pending w) as [|c rest]; [intros [= <- _]; by left|].
  destruct (on_connect c); [|done].
  intros [= <- _]. apply socket_error_os.
Qed.

Lemma socket_only_sendall payload : raises_only socket_error (sendall payload).
Proof.
  intros w e w'. unfold sendall.
  destruct (on_send (current w)) as [|[x|] rest]; try done.
  intros [= <- _]. apply socket_error_os.
Qed.

Lemma raises_only_for_each {A} (P : exn -> Prop) (l : list A) body :
  (forall a, raises_only P (body a)) -> raises_only P (for_each l body).
Proof.
  intros Hb. induction l as [|a l IH].
  - apply raises_only_returns, returns_ret.
  - apply raises_only_bind; [apply Hb | by intros _].
Qed.

Lemma drain_socket script : forall chunks e rest,
  drain script chunks = (inl e, rest) -> socket_error e.
Proof.
  induction script as [|[x|b] script IH]; intros chunks e rest; simpl;
    [done| |].
  - destruct (is_timeout (exn_of_os x)); [done|].
    intros [= <- _]. apply socket_error_os.
  - destruct (String.eqb b EmptyString); [done|apply IH].
Qed.

Lemma socket_only_read_window : raises_only socket_error read_window.
Proof.
  intros w e w'. unfold read_window.
  destruct (drain _ _) as [[x|chunks] rest] eqn:Hd; [|done].
  intros [= <- _]. by apply (drain_socket _ _ _ _ Hd).
Qed.

Lemma raises_only_with_connection {A} (P : exn -> Prop) host port
    (body : M A) :
  (forall e, socket_error e -> P e) ->
  raises_only P body -> raises_only P (with_connection host port body).
Proof.
  intros HP Hb. apply raises_only_bind.
  { eapply raises_only_mono; [exact HP|apply socket_only_connect]. }
  intros _ w e w'. unfold finally.
  destruct (body w) as [[x|a] w1] eqn:Hbw; cbn; [|done].
  intros [= <- _]. by apply (Hb _ _ _ Hbw).
Qed.

(** What makes the multi-channel client fail.  What [send_command] makes
    of the text it has drained fails in one way only: with the
    [ValueError] of [int] on a key of more than 4300 digits, which takes a
    text of more than 4300 characters and a format that is rendered as
    text.  So in the formats json, pretty and raw, in a single query in
    text format, and on every text of at most 4300 characters there is a
    result; and an exception inside [send_command] (and with it an answer
    [(error: ...)]) is one of the socket layer or that [ValueError]. *)
Theorem ad4d_send_command_failures (decode : string -> string)
    (json_dumps pformat repr : data -> string) (host : string) (port : Z)
    (command expect_key : option string) (output_format : string)
    (bulk : bool) :
  (forall raw,
      structured output_format = true
      \/ (bulk = false /\ output_format = "text")
      \/ String.length raw <= 4300 ->
      exists v,
        Ad4d.resolve json_dumps pformat repr command expect_key
          output_format bulk raw = inr v)
  /\ (forall raw e,
         Ad4d.resolve json_dumps pformat repr command expect_key
           output_format bulk raw = inl e ->
         digit_limit e)
  /\ (forall w e w',
         Ad4d.send_command_body decode json_dumps pformat repr host port
           command expect_key output_format bulk w = (inl e, w') ->
         socket_error e \/ digit_limit e).
Proof.
  assert (forall raw e,
            Ad4d.resolve json_dumps pformat repr command expect_key
              output_format bulk raw = inl e ->
            digit_limit e) as Hfail.
  { intros raw e H.
    pose proof (ad4d_resolve_cases json_dumps pformat repr command
                  expect_key output_format bulk raw) as Hc.
    rewrite H in Hc. by destruct Hc. }
  split; [|split; [exact Hfail|]].
  - intros raw Hsafe.
    pose proof (ad4d_resolve_cases json_dumps pformat repr command
                  expect_key output_format bulk raw) as Hc.
    destruct (Ad4d.resolve _ _ _ _ _ _ _ _) as [e|v]; [|by exists v].
    destruct Hc as (_ & Hst & Htext & Hlen). exfalso.
    destruct Hsafe as [Hs|[[-> ->]|Hs]];
      [congruence | done | unfold MAX_STR_DIGITS in Hlen; lia].
  - apply raises_only_with_connection; [by left|].
    apply raises_only_bind.
    { eapply raises_only_mono; [intros e He; left; exact He|].
      destruct bulk; [apply raises_only_for_each; intros cmd|];
        apply socket_only_sendall. }
    intros _. apply raises_only_bind.
    { eapply raises_only_mono; [intros e He; left; exact He|].
      apply socket_only_read_window. }
    intros chunks w e w'. unfold lift. intros [= H _]. right.
    by apply (Hfail _ _ H).
Qed.

(** A bulk query in text format on a short reply. *)
Lemma ad4d_send_command_failures_witness :
  exists v,
    Ad4d.resolve plain_render plain_render plain_render None None "text" true
      "< REP 1 FREQUENCY 518475 >"
    = inr v.
Proof.
  apply (proj1 (ad4d_send_command_failures decode_ascii plain_render
                  plain_render plain_render "rx1" 2202 None None "text"
                  true)).
  right. right. vm_compute. lia.
Defined.

(** The failure is real: a bulk query in text format on a reply whose
    key is 4301 digits long. *)
Lemma ad4d_long_digit_key_fails :
  Ad4d.resolve plain_render plain_render plain_render None None "text" true
    ("< REP " +:+ ones 4301 +:+ " x >")
  = inl (digit_limit_error 4301).
Proof. vm_compute. reflexivity. Qed.

(** ** What the point-to-point decoder returns *)

Lemma strip_report body v :
  v <> EmptyString ->
  Py.rstrip_with (Py.mem_chars "<> ") v = v ->
  Py.strip_chars "<> " ("< REPORT " +:+ body +:+ v +:+ " >")
  = "REPORT " +:+ body +:+ v.
Proof.
  intros Hne Hv. unfold Py.strip_chars.
  change ("< REPORT " +:+ body +:+ v +:+ " >")
    with (String "<" (String " " ("REPORT " +:+ body +:+ v +:+ " >"))).
  cbn [Py.lstrip_with].
  replace (Py.mem_chars "<> " "<") with true by by vm_compute.
  replace (Py.mem_chars "<> " " ") with true by by vm_compute.
  change ("REPORT " +:+ body +:+ v +:+ " >")
    with (String "R" ("EPORT " +:+ body +:+ v +:+ " >")).
  cbn [Py.lstrip_with].
  replace (Py.mem_chars "<> " "R") with false by by vm_compute.
  change (String "R" ("EPORT " +:+ body +:+ v +:+ " >"))
    with ("REPORT " +:+ (body +:+ (v +:+ " >"))).
  rewrite <- !str_app_assoc.
  rewrite rstrip_app_all by by vm_compute.
  by apply rstrip_app.
Qed.

Lemma dict_lit_pair (key : string) (x y : atom) :
  key <> "channel" ->
  Dict.lit [("channel", x); (key, y)] = [("channel", x); (key, y)].
Proof.
  intros Hk. unfold Dict.lit, Dict.update. cbn [fold_left fst snd Dict.set].
  by rewrite decide_False.
Qed.

(** The point-to-point decoder on a report of one-word fields: a report
    with a channel number of the family gives that number, the key and
    the value; a report without one gives [None], the key and the value.
    The value is returned as written, braces included. *)
Theorem p10t_report_decodes (scope : option string) (key v : string) :
  word key = true -> word v = true -> key <> "channel" ->
  Py.rstrip_with (Py.mem_chars "<> ") v = v ->
  match scope with
  | Some n => mem_str n P10t.CHANNELS = true
  | None => mem_str key P10t.CHANNELS = false
  end ->
  P10t.parse_report_line (report_frame scope key v)
  = Some [("channel",
           match scope with
           | Some n => IntV (Py.int_of n)
           | None => NoneV
           end);
          (key, StrV v)].
Proof.
  intros Hkey Hv Hkc Hvr Hscope.
  destruct (word_parts v Hv) as [_ Hvne].
  unfold P10t.parse_report_line, report_frame.
  destruct scope as [n|].
  - replace ("< REPORT " +:+ (n +:+ " ") +:+ key +:+ " " +:+ v +:+ " >")
      with ("< REPORT " +:+ ((n +:+ " ") +:+ key +:+ " ") +:+ v +:+ " >")
      by by rewrite !str_app_assoc.
    rewrite (strip_report ((n +:+ " ") +:+ key +:+ " ") v Hvne Hvr).
    assert (word n = true) as Hn.
    { unfold P10t.CHANNELS, mem_str in Hscope. cbn [existsb] in Hscope.
      rewrite orb_false_r in Hscope.
      apply orb_prop in Hscope as [H|H]; apply String.eqb_eq in H as ->;
        done. }
    rewrite !str_app_assoc.
    change ("REPORT " +:+ ?x) with ("REPORT" +:+ " " +:+ x).
    rewrite (split_ws_word_space "REPORT") by done.
    rewrite (split_ws_word_space n) by done.
    rewrite (split_ws_word_space key) by done.
    rewrite (split_ws_word v) by done.
    cbn [String.eqb Ascii.eqb Bool.eqb negb]. rewrite Hscope.
    cbn [head P10t.opt_atom]. by rewrite dict_lit_pair.
  - rewrite str_app_nil_l.
    replace ("< REPORT " +:+ key +:+ " " +:+ v +:+ " >")
      with ("< REPORT " +:+ (key +:+ " ") +:+ v +:+ " >")
      by by rewrite !str_app_assoc.
    rewrite (strip_report (key +:+ " ") v Hvne Hvr).
    rewrite !str_app_assoc.
    change ("REPORT " +:+ ?x) with ("REPORT" +:+ " " +:+ x).
    rewrite (split_ws_word_space "REPORT") by done.
    rewrite (split_ws_word_space key) by done.
    rewrite (split_ws_word v) by done.
    cbn [String.eqb Ascii.eqb Bool.eqb negb]. rewrite Hscope.
    by rewrite dict_lit_pair.
Qed.

Lemma p10t_report_decodes_witness :
  P10t.parse_report_line (report_frame (Some "2") "CHAN_NAME" "{Lead}")
  = Some [("channel", IntV (Py.int_of "2")); ("CHAN_NAME", StrV "{Lead}")].
Proof.
  apply (p10t_report_decodes (Some "2") "CHAN_NAME" "{Lead}");
    first [reflexivity | discriminate].
Defined.

(** ** The per-channel query *)

Lemma connects_wire cmds : connects (wire cmds) = [].
Proof. induction cmds as [|cmd cmds IH]; [done|exact IH]. Qed.

Lemma connects_one_call tr host port (sent : option (list string)) :
  connects
    (tr ++ Connect host port
        :: match sent with
           | Some cmds => wire cmds ++ [Closed]
           | None => []
           end)
  = connects tr ++ [(host, port)].
Proof.
  rewrite connects_app. cbn [connects]. destruct sent as [cmds|]; [|done].
  by rewrite connects_app, connects_wire.
Qed.

Lemma ad4d_send_connects d j p r host port command expect_key fmt bulk w :
  exists v w',
    Ad4d.send_command d j p r host port command expect_key fmt bulk w
    = (inr v, w')
    /\ connects (trace w') = connects (trace w) ++ [(host, port)].
Proof.
  destruct (guarded_total _ w
              (ad4d_body_catchable d j p r host port command expect_key fmt
                 bulk)) as ((v & w' & Hv) & _).
  exists v, w'. split; [exact Hv|].
  pose proof (guarded_trace
                (Ad4d.send_command_body d j p r host port command expect_key
                   fmt bulk) w) as Ht.
  fold (Ad4d.send_command d j p r host port command expect_key fmt bulk)
    in Ht.
  unfold Ad4d.send_command in Hv, Ht. rewrite Hv in Ht. cbn [snd] in Ht.
  rewrite Ht.
  pose proof (send_command_body_trace host port command bulk
                Ad4d.bulk_commands
                (do chunks <- read_window;
                 lift (Ad4d.resolve j p r command expect_key fmt bulk
                         (d (join_chunks chunks)))) w) as Hn.
  unfold Ad4d.send_command_body. rewrite Hn.
  { destruct (opened host port w) as [c|].
    - apply (connects_one_call _ _ _ (Some _)).
    - apply (connects_one_call _ _ _ None). }
  apply quiet_bind; [apply quiet_read_window|].
  intros chunks. apply quiet_lift.
Qed.

Lemma p10t_send_connects d j p r host port command expect_key fmt bulk w :
  exists v w',
    P10t.send_command d j p r host port command expect_key fmt bulk w
    = (inr v, w')
    /\ connects (trace w') = connects (trace w) ++ [(host, port)].
Proof.
  destruct (guarded_total _ w
              (p10t_body_catchable d j p r host port command expect_key fmt
                 bulk)) as ((v & w' & Hv) & _).
  exists v, w'. split; [exact Hv|].
  pose proof (guarded_trace
                (P10t.send_command_body d j p r host port command expect_key
                   fmt bulk) w) as Ht.
  unfold P10t.send_command in Hv. rewrite Hv in Ht. cbn [snd] in Ht.
  rewrite Ht.
  pose proof (send_command_body_trace host port command bulk
                P10t.bulk_commands
                (try_except
                   (do chunks <- read_window;
                    lift (P10t.resolve j p r expect_key fmt bulk
                            (d (join_chunks chunks))))
                   is_timeout (fun _ => ret (StrV "(timeout)"))) w) as Hn.
  unfold P10t.send_command_body. rewrite Hn.
  { destruct (opened host port w) as [c|].
    - apply (connects_one_call _ _ _ (Some _)).
    - apply (connects_one_call _ _ _ None). }
  apply quiet_try_except; [|intros e; apply quiet_ret].
  apply quiet_bind; [apply quiet_read_window|].
  intros chunks. apply quiet_lift.
Qed.

Lemma ad4d_build_channel_key channel key :
  ad4d_channel_key key = true ->
  if known_channel Ad4d.CHANNELS channel
  then exists full_key,
         Ad4d.build_command channel (Some key) = inr full_key
  else exists text,
         Ad4d.build_command channel (Some key) = inl (Exn ValueError text).
Proof.
  unfold ad4d_channel_key, Ad4d.build_command, known_channel.
  intros H. apply andb_prop in H as [-> H]. apply negb_true_iff in H as ->.
  cbn [negb]. destruct channel as [ch|]; [|by eexists].
  destruct (mem_str ch Ad4d.CHANNELS); by eexists.
Qed.

Lemma p10t_build_channel_key channel key :
  p10t_channel_key key = true ->
  if known_channel P10t.CHANNELS channel
  then exists full_key,
         P10t.build_command channel (Some key) = inr full_key
  else exists text,
         P10t.build_command channel (Some key) = inl (Exn ValueError text).
Proof.
  unfold p10t_channel_key, P10t.build_command, known_channel.
  intros H. apply andb_prop in H as [-> H]. apply negb_true_iff in H as ->.
  cbn [negb]. destruct channel as [ch|]; [|by eexists].
  destruct (mem_str ch P10t.CHANNELS); by eexists.
Qed.

Lemma ad4d_keys_connects d j p r host port channel keys :
  forallb ad4d_channel_key keys = true ->
  forall result w,
  exists result' w',
    Ad4d.get_channel_keys d j p r host port channel keys result w
    = (inr result', w')
    /\ connects (trace w')
       = connects (trace w)
         ++ (if known_channel Ad4d.CHANNELS channel
             then repeat (host, port) (length keys) else []).
Proof.
  induction keys as [|key keys IH]; intros Hk result w.
  { exists result, w. split; [done|].
    destruct (known_channel _ _); by rewrite app_nil_r. }
  cbn [forallb] in Hk. apply andb_prop in Hk as [Hkey Hk].
  cbn [Ad4d.get_channel_keys]. unfold bind, try_except, lift, ret.
  pose proof (ad4d_build_channel_key channel key Hkey) as Hb.
  destruct (known_channel Ad4d.CHANNELS channel).
  - destruct Hb as [full_key ->].
    destruct (ad4d_send_connects d j p r host port
                (Some ("GET " +:+ full_key)) (Some full_key) "text" false w)
      as (v & w1 & -> & Hc).
    match goal with
    | |- context [Ad4d.get_channel_keys _ _ _ _ _ _ _ _ ?res w1] =>
        destruct (IH Hk res w1) as (result' & w' & -> & Hc')
    end.
    exists result', w'. split; [done|].
    rewrite Hc', Hc, <- app_assoc. done.
  - destruct Hb as [text ->].
    destruct (IH Hk result w) as (result' & w' & -> & Hc').
    exists result', w'. split; [done|]. exact Hc'.
Qed.

Lemma p10t_keys_connects d j p r host port channel keys :
  forallb p10t_channel_key keys = true ->
  forall result w,
  exists result' w',
    P10t.get_channel_keys d j p r host port channel keys result w
    = (inr result', w')
    /\ connects (trace w')
       = connects (trace w)
         ++ (if known_channel P10t.CHANNELS channel
             then repeat (host, port) (length keys) else []).
Proof.
  induction keys as [|key keys IH]; intros Hk result w.
  { exists result, w. split; [done|].
    destruct (known_channel _ _); by rewrite app_nil_r. }
  cbn [forallb] in Hk. apply andb_prop in Hk as [Hkey Hk].
  cbn [P10t.get_channel_keys]. unfold bind, try_except, lift, ret.
  pose proof (p10t_build_channel_key channel key Hkey) as Hb.
  destruct (known_channel P10t.CHANNELS channel).
  - destruct Hb as [full_key ->].
    destruct (p10t_send_connects d j p r host port
                (Some ("GET " +:+ full_key)) (Some full_key) "text" false w)
      as (v & w1 & -> & Hc).
    match goal with
    | |- context [P10t.get_channel_keys _ _ _ _ _ _ _ _ ?res w1] =>
        destruct (IH Hk res w1) as (result' & w' & -> & Hc')
    end.
    exists result', w'. split; [done|].
    rewrite Hc', Hc, <- app_assoc. done.
  - destruct Hb as [text ->].
    destruct (IH Hk result w) as (result' & w' & -> & Hc').
    exists result', w'. split; [done|]. exact Hc'.
Qed.

(** The loop of a per-channel query never raises.  For a channel the
    client knows it opens one connection per channel key, one after the
    other (21 on the multi-channel client, 9 on the point-to-point one);
    for any other channel, or none, it opens no connection at all. *)
Theorem channel_query_connections (decode : string -> string)
    (json_dumps pformat repr : data -> string) (host : string) (port : Z)
    (channel : option string) (w : world) :
  (exists result w',
      Ad4d.get_channel_keys decode json_dumps pformat repr host port channel
        (Ad4d.CHANNEL_GET_SET_KEYS ++ Ad4d.CHANNEL_GET_ONLY_KEYS) [] w
      = (inr result, w')
      /\ connects (trace w')
         = connects (trace w)
           ++ (if known_channel Ad4d.CHANNELS channel
               then repeat (host, port) 21 else []))
  /\ (exists result w',
         P10t.get_channel_keys decode json_dumps pformat repr host port
           channel P10t.CHANNEL_GET_SET_KEYS [] w
         = (inr result, w')
         /\ connects (trace w')
            = connects (trace w)
              ++ (if known_channel P10t.CHANNELS channel
                  then repeat (host, port) 9 else [])).
Proof.
  split.
  - apply (ad4d_keys_connects decode json_dumps pformat repr host port
             channel (Ad4d.CHANNEL_GET_SET_KEYS ++ Ad4d.CHANNEL_GET_ONLY_KEYS)).
    by vm_compute.
  - apply (p10t_keys_connects decode json_dumps pformat repr host port
             channel P10t.CHANNEL_GET_SET_KEYS).
    by vm_compute.
Qed.

(** ** The scan for one reply *)

(** A single query of the multi-channel client, in text format, answers
    with the value of the first reply at the requested address among those
    that decode, whatever follows it, and with [None] when no reply is at
    that address. *)
Theorem ad4d_get_first_match (json_dumps pformat repr : data -> string)
    (command : option string) (k : string) (lines : list string) :
  is_set command = false ->
  Ad4d.find_reply json_dumps pformat repr command (Some k) "text" false lines
  = inr (first_reply (omap Ad4d.parse_report_line lines) k).
Proof.
  intros Hset. induction lines as [|line rest IH]; [done|].
  cbn [Ad4d.find_reply omap list_omap].
  destruct (Ad4d.parse_report_line line) as [q|] eqn:Hq; [|exact IH].
  destruct (ad4d_parse_shape _ _ Hq)
    as (scope & key & v & -> & Hs & Hk & Hne).
  pose proof (key_not_channel_word key Hk) as Hc.
  assert (first_other_key [("channel", scope_atom scope); (key, StrV v)]
          = inr key) as ->.
  { unfold first_other_key. cbn [Dict.keys map fst].
    rewrite filter_cons_False by (cbn; tauto).
    rewrite filter_cons_True; [done|].
    apply Is_true_true, negb_true_iff, String.eqb_neq. done. }
  cbv zeta. cbn [Dict.get]. rewrite decide_True by done.
  unfold first_reply. cbn [List.find reply_address].
  unfold is_set in Hset. rewrite Hset.
  destruct scope as [d|]; cbn [scope_atom str_atom];
    match goal with
    | |- context [String.eqb ?a k] => destruct (String.eqb a k)
    end;
    try exact IH;
    cbn [orb negb String.eqb Ascii.eqb Bool.eqb reading];
    unfold getitem; cbn [Dict.get];
    rewrite decide_False by done; by rewrite decide_True.
Qed.

Lemma ad4d_get_first_match_witness :
  Ad4d.find_reply plain_render plain_render plain_render
    (Some "GET 1 FREQUENCY") (Some "1 FREQUENCY") "text" false
    ["< REP 1 FREQUENCY 5 >"; "< REP 1 FREQUENCY 6 >"]
  = inr (first_reply
           (omap Ad4d.parse_report_line
              ["< REP 1 FREQUENCY 5 >"; "< REP 1 FREQUENCY 6 >"])
           "1 FREQUENCY").
Proof.
  apply (ad4d_get_first_match plain_render plain_render plain_render
           (Some "GET 1 FREQUENCY") "1 FREQUENCY"
           ["< REP 1 FREQUENCY 5 >"; "< REP 1 FREQUENCY 6 >"]).
  reflexivity.
Defined.
